(** * flowman: credential persistence in shell start-up files

    A shallow embedding of the credential path of the CLI:
    - [ShellDetector]       (src/utils/shell-detector.js),
    - [Validator]           (src/utils/validator.js),
    - [ConfigFileManager]   (src/utils/config-file-manager.js),
    - [CredentialStorage]   (src/lib/credential-storage.js),
    - [AuthManager]         (src/lib/auth-manager.js),
    - [LoginCommand]        (src/commands/login.js, logout.js),
    followed by the properties of the specification that concern them
    and by further properties of the same code.

    JavaScript strings are sequences of UTF-16 code units; they are
    modelled as lists of [N].  The regular expressions of the config file
    manager are run by a small backtracking matcher that follows the
    ECMAScript rules for the constructs those expressions use. *)

From Stdlib Require Import NArith List String Ascii Bool Lia.
From stdpp Require Import gmap list.

Local Open Scope N_scope.

(** ** Strings *)

Abbreviation jsstring := (list N).

(** A string literal of the source, as code units. *)
Definition lit (s : string) : jsstring :=
  map N_of_ascii (list_ascii_of_string s).

Definition str_eqb (a b : jsstring) : bool := bool_decide (a = b).

(** [String.prototype.startsWith]. *)
Fixpoint startsWith (s p : jsstring) {struct p} : bool :=
  match p, s with
  | [], _ => true
  | c :: p', x :: s' => (x =? c) && startsWith s' p'
  | _ :: _, [] => false
  end.

(** [String.prototype.endsWith] for a one-character suffix. *)
Definition endsWith1 (s : jsstring) (c : N) : bool :=
  match last s with
  | Some x => x =? c
  | None => false
  end.

(** [String.prototype.substring(a, b)] for [a <= b]. *)
Definition substring (a b : nat) (s : jsstring) : jsstring :=
  take (b - a) (drop a s).

(** [String.prototype.repeat] on a one-character string. *)
Definition repeat_char (c : N) (n : nat) : jsstring := replicate n c.

(** ** Character classes of the regular expressions *)

(** LineTerminator: LF, CR, LS, PS.  With the [m] flag [^] and [$] look
    for these, and [.] excludes them. *)
Definition is_line_terminator (c : N) : bool :=
  (c =? 10) || (c =? 13) || (c =? 8232) || (c =? 8233).

(** [\s]: WhiteSpace and LineTerminator. *)
Definition is_space (c : N) : bool :=
  (c =? 9) || (c =? 10) || (c =? 11) || (c =? 12) || (c =? 13) ||
  (c =? 32) || (c =? 160) || (c =? 5760) ||
  ((8192 <=? c) && (c <=? 8202)) ||
  (c =? 8232) || (c =? 8233) || (c =? 8239) || (c =? 8287) ||
  (c =? 12288) || (c =? 65279).

(** [.] *)
Definition is_dot (c : N) : bool := negb (is_line_terminator c).

(** The class of the two quote characters (double, single). *)
Definition is_quote (c : N) : bool := (c =? 34) || (c =? 39).

(** The negated class of the capture: anything but a double quote, a
    single quote or a line feed. *)
Definition is_value_char (c : N) : bool :=
  negb ((c =? 34) || (c =? 39) || (c =? 10)).

(** ** A backtracking matcher

    The expressions of the source are sequences of: literal characters,
    a character class under a greedy [*], [+] or [?], the capture group 1
    and the assertion [$]; some start with the assertion [^].  All of
    them carry the [m] flag or have no assertion. *)

Inductive item : Type :=
| Lit (c : N)
| Star (p : N -> bool)
| Plus (p : N -> bool)
| Opt (p : N -> bool)
| Open
| Close
| Eol.

Record regex : Type := { anchored : bool; body : list item }.

(** Length of the longest prefix of [s] in the class [p]. *)
Fixpoint run_len (p : N -> bool) (s : jsstring) : nat :=
  match s with
  | c :: s' => if p c then S (run_len p s') else 0%nat
  | [] => 0%nat
  end.

(** A greedy quantifier tries the longest repetition first and gives
    characters back one at a time, down to [lo] repetitions. *)
Fixpoint try_down {A : Type} (f : nat -> option A) (lo k : nat) : option A :=
  if (k <? lo)%nat then None
  else match f k with
       | Some r => Some r
       | None => match k with
                 | O => None
                 | S k' => try_down f lo k'
                 end
       end.

Definition at_eol (s : jsstring) : bool :=
  match s with
  | [] => true
  | c :: _ => is_line_terminator c
  end.

Definition at_bol (prev : option N) : bool :=
  match prev with
  | None => true
  | Some c => is_line_terminator c
  end.

(** [exec its s gs cap] matches [its] at the start of [s]; [gs] is the
    input where group 1 was opened, [cap] its capture.  The result is
    the input left after the match and the capture. *)
Fixpoint exec (its : list item) (s : jsstring)
    (gs cap : option jsstring) : option (jsstring * option jsstring) :=
  match its with
  | [] => Some (s, cap)
  | Lit c :: r =>
      match s with
      | x :: s' => if x =? c then exec r s' gs cap else None
      | [] => None
      end
  | Star p :: r => try_down (fun k => exec r (drop k s) gs cap) 0 (run_len p s)
  | Plus p :: r => try_down (fun k => exec r (drop k s) gs cap) 1 (run_len p s)
  | Opt p :: r =>
      try_down (fun k => exec r (drop k s) gs cap) 0 (Nat.min 1 (run_len p s))
  | Open :: r => exec r s (Some s) cap
  | Close :: r =>
      exec r s gs
        (match gs with
         | Some s0 => Some (take (length s0 - length s) s0)
         | None => cap
         end)
  | Eol :: r => if at_eol s then exec r s gs cap else None
  end.

(** One attempt at a position whose preceding character is [prev]. *)
Definition attempt (re : regex) (prev : option N) (s : jsstring)
    : option (jsstring * option jsstring) :=
  if anchored re && negb (at_bol prev) then None else exec (body re) s None None.

(** The leftmost match at or after the current position: the text
    skipped, the text left and the capture. *)
Fixpoint find (re : regex) (prev : option N) (s : jsstring)
    : option (jsstring * jsstring * option jsstring) :=
  match attempt re prev s with
  | Some (rest, cap) => Some ([], rest, cap)
  | None =>
      match s with
      | [] => None
      | c :: s' =>
          match find re (Some c) s' with
          | Some (pre, rest, cap) => Some (c :: pre, rest, cap)
          | None => None
          end
      end
  end.

(** [content.match(re)] for a regex without the [g] flag, projected on
    group 1: [match ? match[1] : null]. *)
Definition match_group1 (re : regex) (s : jsstring) : option jsstring :=
  match find re None s with
  | Some (_, _, cap) => Some (default [] cap)
  | None => None
  end.

(** [content.replace(re, repl)] for a regex with the [g] flag.  [skip]
    counts the characters of the current match still to be dropped.
    After an empty match the next character is copied and the search
    resumes behind it. *)
Fixpoint replace_go (re : regex) (repl : jsstring) (prev : option N)
    (s : jsstring) (skip : nat) : jsstring :=
  match s with
  | [] =>
      match skip with
      | O => match attempt re prev [] with Some _ => repl | None => [] end
      | S _ => []
      end
  | c :: s' =>
      match skip with
      | S k => replace_go re repl (Some c) s' k
      | O =>
          match attempt re prev s with
          | Some (rest, _) =>
              match (length s - length rest)%nat with
              | O => repl ++ c :: replace_go re repl (Some c) s' 0
              | S k => repl ++ replace_go re repl (Some c) s' k
              end
          | None => c :: replace_go re repl (Some c) s' 0
          end
      end
  end.

Definition replace_all (re : regex) (repl s : jsstring) : jsstring :=
  replace_go re repl None s 0.

(** ** JavaScript values that reach the modelled calls *)

Inductive jsval : Type :=
| JUndefined
| JNull
| JBool (b : bool)
| JStr (s : jsstring)
| JObject.

(** ToBoolean *)
Definition truthy (v : jsval) : bool :=
  match v with
  | JUndefined | JNull => false
  | JBool b => b
  | JStr s => negb (str_eqb s [])
  | JObject => true
  end.

(** ToString, as a template literal or a property key applies it;
    [JObject] stands for an object or a function, and no modelled call
    applies ToString to a function. *)
Definition to_string (v : jsval) : jsstring :=
  match v with
  | JUndefined => lit "undefined"
  | JNull => lit "null"
  | JBool true => lit "true"
  | JBool false => lit "false"
  | JStr s => s
  | JObject => lit "[object Object]"
  end.

Definition str_truthy (s : jsstring) : bool := truthy (JStr s).

(** How a call that may throw ends: with its result, or with the message
    of the [Error] thrown. *)
Inductive completion (A : Type) : Type :=
| Returned (a : A)
| Thrown (message : jsstring).

Arguments Returned {A} a.
Arguments Thrown {A} message.

Definition opt_truthy (o : option jsstring) : bool :=
  match o with
  | Some s => str_truthy s
  | None => false
  end.

(** ** The process and the file system

    [env] is [process.env]; [files] maps the path of each existing file
    to its text; a write to a path of [unwritable] throws.  Directories
    are implicit and a file text is kept decoded.  [platform] is
    [os.platform()], [homedir] is [os.homedir()], [pkg_name] the [name]
    field of package.json. *)

Record world : Type := mkWorld {
  env : gmap jsstring jsstring;
  files : gmap jsstring jsstring;
  unwritable : gset jsstring;
  platform : jsstring;
  homedir : jsstring;
  pkg_name : jsstring
}.

Definition delete_env (k : jsstring) (w : world) : world :=
  mkWorld (delete k (env w)) (files w) (unwritable w)
          (platform w) (homedir w) (pkg_name w).

(** The property names an object inherits from [Object.prototype]. *)
Definition inherited_names : list jsstring :=
  [ lit "constructor"; lit "hasOwnProperty"; lit "isPrototypeOf";
    lit "propertyIsEnumerable"; lit "toLocaleString"; lit "toString";
    lit "valueOf"; lit "__proto__"; lit "__defineGetter__";
    lit "__defineSetter__"; lit "__lookupGetter__"; lit "__lookupSetter__" ].

(** [process.env[name]]: the variable when it is set; otherwise the
    look-up goes on to the prototype, which answers the names above. *)
Definition getenv (w : world) (name : jsstring) : jsval :=
  match env w !! name with
  | Some v => JStr v
  | None =>
      if bool_decide (name ∈ inherited_names) then JObject else JUndefined
  end.

Definition existsSync (p : jsstring) (w : world) : bool :=
  bool_decide (is_Some (files w !! p)).

(** Text goes to disk as UTF-8 and comes back decoded: a surrogate code
    unit that is not part of a pair becomes U+FFFD. *)
Definition is_high_surrogate (c : N) : bool := (55296 <=? c) && (c <=? 56319).
Definition is_low_surrogate (c : N) : bool := (56320 <=? c) && (c <=? 57343).

Fixpoint utf8_text (s : jsstring) : jsstring :=
  match s with
  | [] => []
  | c :: s' =>
      if is_high_surrogate c then
        match s' with
        | d :: s'' =>
            if is_low_surrogate d then c :: d :: utf8_text s''
            else 65533 :: utf8_text s'
        | [] => [65533]
        end
      else if is_low_surrogate c then 65533 :: utf8_text s'
      else c :: utf8_text s'
  end.

(** [process.env[k] = v]: the value reaches the environment block as
    UTF-8 text that ends at the first NUL character, and is read back
    decoded; so what the process holds afterwards is the value up to
    the first NUL, with U+FFFD for every surrogate code unit that is
    not part of a pair. *)
Fixpoint until_nul (s : jsstring) : jsstring :=
  match s with
  | [] => []
  | c :: s' => if c =? 0 then [] else c :: until_nul s'
  end.

Definition env_text (v : jsstring) : jsstring := until_nul (utf8_text v).

Definition set_env (k v : jsstring) (w : world) : world :=
  mkWorld (<[k := env_text v]> (env w)) (files w) (unwritable w)
          (platform w) (homedir w) (pkg_name w).

(** [fs.writeFileSync(p, text, 'utf8')]: [None] when the call throws. *)
Definition writeFileSync (p text : jsstring) (w : world) : option world :=
  if bool_decide (p ∈ unwritable w) then None
  else Some (mkWorld (env w) (<[p := utf8_text text]> (files w)) (unwritable w)
                     (platform w) (homedir w) (pkg_name w)).

(** [path.basename] for POSIX paths: the last segment, trailing
    separators dropped. *)
Fixpoint drop_slashes (r : jsstring) : jsstring :=
  match r with
  | c :: r' => if c =? 47 then drop_slashes r' else r
  | [] => []
  end.

Fixpoint until_slash (r : jsstring) : jsstring :=
  match r with
  | c :: r' => if c =? 47 then [] else c :: until_slash r'
  | [] => []
  end.

Definition basename (p : jsstring) : jsstring :=
  reverse (until_slash (drop_slashes (reverse p))).

(** [path.join(homeDir, file)] for a home directory without a final
    separator and the relative names of the tables below, none of which
    needs normalising. *)
Definition path_join (dir file : jsstring) : jsstring :=
  dir ++ lit "/" ++ file.

(** ** ShellDetector *)

Module ShellDetector.

Definition detectShell (w : world) : jsstring :=
  match env w !! lit "SHELL" with
  | Some shellEnv =>
      if str_truthy shellEnv then basename shellEnv
      else if str_eqb (platform w) (lit "win32") then lit "cmd"
      else if str_eqb (platform w) (lit "darwin") then lit "zsh"
      else lit "bash"
  | None =>
      if str_eqb (platform w) (lit "win32") then lit "cmd"
      else if str_eqb (platform w) (lit "darwin") then lit "zsh"
      else lit "bash"
  end.

(** The [configFiles] table with its [|| ['.profile']] fallback.  This
    table, [syntaxMap] and the pattern tables are read by their own
    keys: a shell called like a member of [Object.prototype] is outside
    the model. *)
Definition possibleFiles (shell : jsstring) : list jsstring :=
  if str_eqb shell (lit "bash") then
    [lit ".bashrc"; lit ".bash_profile"; lit ".profile"]
  else if str_eqb shell (lit "zsh") then
    [lit ".zshrc"; lit ".zprofile"; lit ".profile"]
  else if str_eqb shell (lit "fish") then [lit ".config/fish/config.fish"]
  else if str_eqb shell (lit "cmd") then []
  else if str_eqb shell (lit "powershell") then
    [lit "Documents/PowerShell/profile.ps1"]
  else [lit ".profile"].

(** [shell || this.detectShell()] *)
Definition or_detect (shell : jsstring) (w : world) : jsstring :=
  if str_truthy shell then shell else detectShell w.

Fixpoint first_existing (dir : jsstring) (fs : list jsstring) (w : world)
    : option jsstring :=
  match fs with
  | f :: fs' =>
      if existsSync (path_join dir f) w then Some (path_join dir f)
      else first_existing dir fs' w
  | [] => None
  end.

Definition getShellConfigPath (shell : jsstring) (w : world) : jsstring :=
  let possible := possibleFiles (or_detect shell w) in
  match first_existing (homedir w) possible w with
  | Some p => p
  | None => path_join (homedir w) (default (lit ".profile") (head possible))
  end.

Definition getAllShellConfigPaths (shell : jsstring) (w : world)
    : list jsstring :=
  map (path_join (homedir w)) (possibleFiles (or_detect shell w)).

Definition supportsEnvPersistence (shell : jsstring) (w : world) : bool :=
  negb (str_eqb (or_detect shell w) (lit "cmd")).

(** The [syntaxMap] table with its [|| 'export'] fallback. *)
Definition syntaxMap (s : jsstring) : jsstring :=
  if str_eqb s (lit "bash") then lit "export"
  else if str_eqb s (lit "zsh") then lit "export"
  else if str_eqb s (lit "fish") then lit "set -gx"
  else if str_eqb s (lit "cmd") then lit "set"
  else if str_eqb s (lit "powershell") then lit "$env:"
  else lit "export".

Definition getExportSyntax (shell : jsstring) (w : world) : jsstring :=
  syntaxMap (or_detect shell w).

End ShellDetector.

(** ** Validator *)

Module Validator.

Definition validateApiKey (apiKey : jsval) : bool :=
  match apiKey with
  | JStr s =>
      if negb (truthy apiKey) then false
      else if negb (startsWith s (lit "PMAK-")) then false
      else if (length s <? 20)%nat then false
      else true
  | _ => false
  end.

Definition is_hex (c : N) : bool :=
  ((48 <=? c) && (c <=? 57)) || ((97 <=? c) && (c <=? 102)) ||
  ((65 <=? c) && (c <=? 70)).
Definition is_dash (c : N) : bool := c =? 45.
Definition is_1_5 (c : N) : bool := (49 <=? c) && (c <=? 53).
Definition is_89ab (c : N) : bool :=
  (c =? 56) || (c =? 57) || (c =? 97) || (c =? 98) || (c =? 65) || (c =? 66).

(** The UUID expression, one class per position, [i] flag applied. *)
Definition uuid_shape : list (N -> bool) :=
  replicate 8 is_hex ++ [is_dash] ++ replicate 4 is_hex ++ [is_dash] ++
  [is_1_5] ++ replicate 3 is_hex ++ [is_dash] ++
  [is_89ab] ++ replicate 3 is_hex ++ [is_dash] ++ replicate 12 is_hex.

Fixpoint matches_shape (ps : list (N -> bool)) (s : jsstring) : bool :=
  match ps, s with
  | [], [] => true
  | p :: ps', c :: s' => p c && matches_shape ps' s'
  | _, _ => false
  end.

Definition validateWorkspaceId (workspaceId : jsval) : bool :=
  match workspaceId with
  | JStr s =>
      if negb (truthy workspaceId) then false
      else matches_shape uuid_shape s
  | _ => false
  end.

End Validator.

(** ** ConfigFileManager *)

Module ConfigFileManager.

Definition lits (s : jsstring) : list item := map Lit s.

(** The four [RegExp] objects of [extractEnvVariable], flag [m].  The
    variable name is spliced into the source of the expression; the
    model reads it as literal characters, which is what the splice
    means for a name without regular-expression operators. *)
Definition extract_bash (name : jsstring) : regex :=
  {| anchored := true;
     body := Star is_space :: lits (lit "export") ++ Plus is_space ::
             lits name ++ lits (lit "=") ++
             [Opt is_quote; Open; Plus is_value_char; Close; Opt is_quote] |}.

Definition extract_zsh (name : jsstring) : regex :=
  {| anchored := true;
     body := Star is_space :: lits (lit "export") ++ Plus is_space ::
             lits name ++ lits (lit "=") ++
             [Opt is_quote; Open; Plus is_value_char; Close; Opt is_quote] |}.

Definition extract_fish (name : jsstring) : regex :=
  {| anchored := true;
     body := Star is_space :: lits (lit "set") ++ Plus is_space ::
             lits (lit "-gx") ++ Plus is_space :: lits name ++
             [Plus is_space;
              Opt is_quote; Open; Plus is_value_char; Close; Opt is_quote] |}.

Definition extract_powershell (name : jsstring) : regex :=
  {| anchored := true;
     body := Star is_space :: lits (lit "$env:") ++ lits name ++
             Star is_space :: lits (lit "=") ++
             [Star is_space;
              Opt is_quote; Open; Plus is_value_char; Close; Opt is_quote] |}.

(** [patterns[shell] || patterns.bash] *)
Definition extract_pattern (shell name : jsstring) : regex :=
  if str_eqb shell (lit "bash") then extract_bash name
  else if str_eqb shell (lit "zsh") then extract_zsh name
  else if str_eqb shell (lit "fish") then extract_fish name
  else if str_eqb shell (lit "powershell") then extract_powershell name
  else extract_bash name.

Definition extractEnvVariable (content variableName shell : jsstring)
    : option jsstring :=
  match_group1 (extract_pattern shell variableName) content.

(** The four [RegExp] objects of the content transform, flags [gm]. *)
Definition remove_bash (name : jsstring) : regex :=
  {| anchored := true;
     body := Star is_space :: lits (lit "export") ++ Plus is_space ::
             lits name ++ lits (lit "=") ++ [Star is_dot; Eol] |}.

Definition remove_zsh (name : jsstring) : regex :=
  {| anchored := true;
     body := Star is_space :: lits (lit "export") ++ Plus is_space ::
             lits name ++ lits (lit "=") ++ [Star is_dot; Eol] |}.

Definition remove_fish (name : jsstring) : regex :=
  {| anchored := true;
     body := Star is_space :: lits (lit "set") ++ Plus is_space ::
             lits (lit "-gx") ++ Plus is_space :: lits name ++
             [Plus is_space; Star is_dot; Eol] |}.

Definition remove_powershell (name : jsstring) : regex :=
  {| anchored := true;
     body := Star is_space :: lits (lit "$env:") ++ lits name ++
             Star is_space :: lits (lit "=") ++ [Star is_dot; Eol] |}.

Definition remove_pattern (shell name : jsstring) : regex :=
  if str_eqb shell (lit "bash") then remove_bash name
  else if str_eqb shell (lit "zsh") then remove_zsh name
  else if str_eqb shell (lit "fish") then remove_fish name
  else if str_eqb shell (lit "powershell") then remove_powershell name
  else remove_bash name.

(** The clean-up expression: a line feed, white space, a line feed,
    white space, a line feed; flag [g]. *)
Definition blank_lines : regex :=
  {| anchored := false;
     body := [Lit 10; Star is_space; Lit 10; Star is_space; Lit 10] |}.

(** [removeEnvVariable(content, variableName, shell)], the second
    static method of that name (lines 183-193). *)
Definition removeEnvVariable_content (content variableName shell : jsstring)
    : jsstring :=
  replace_all blank_lines [10; 10]
    (replace_all (remove_pattern shell variableName) [] content).

(** The static members of the class body, in source order.  A class
    body may define a name twice; the later definition replaces the
    earlier one. *)
Inductive member : Type :=
| M_readEnvVariable
| M_writeEnvVariable
| M_removeEnvVariable_file
| M_extractEnvVariable
| M_removeEnvVariable_content
| M_hasEnvVariable.

Definition statics : list (string * member) :=
  [ ("readEnvVariable"%string, M_readEnvVariable);
    ("writeEnvVariable"%string, M_writeEnvVariable);
    ("removeEnvVariable"%string, M_removeEnvVariable_file);
    ("extractEnvVariable"%string, M_extractEnvVariable);
    ("removeEnvVariable"%string, M_removeEnvVariable_content);
    ("hasEnvVariable"%string, M_hasEnvVariable) ].

Fixpoint resolve_in (defs : list (string * member)) (name : string)
    (found : option member) : option member :=
  match defs with
  | (n, m) :: defs' =>
      resolve_in defs' name (if String.eqb n name then Some m else found)
  | [] => found
  end.

Definition resolve (name : string) : option member :=
  resolve_in statics name None.

Record options : Type := mkOptions {
  o_shell : option jsstring;
  o_comment : option jsstring;
  o_overwrite : option bool
}.

Definition no_options : options := mkOptions None None None.

Fixpoint read_paths (paths : list jsstring) (variableName shell : jsstring)
    (w : world) : option jsstring :=
  match paths with
  | configPath :: rest =>
      match files w !! configPath with
      | Some content =>
          let value := extractEnvVariable content variableName shell in
          if opt_truthy value then value
          else read_paths rest variableName shell w
      | None => read_paths rest variableName shell w
      end
  | [] => None
  end.

Definition readEnvVariable (variableName : jsstring) (w : world) : jsval :=
  if truthy (getenv w variableName) then getenv w variableName
  else
    let shell := ShellDetector.detectShell w in
    match read_paths (ShellDetector.getAllShellConfigPaths shell w)
                     variableName shell w with
    | Some value => JStr value
    | None => JNull
    end.

(** [readEnvVariable(variableName) !== null] *)
Definition not_null (v : jsval) : bool :=
  match v with
  | JNull => false
  | _ => true
  end.

Definition hasEnvVariable (variableName : jsstring) (w : world) : bool :=
  not_null (readEnvVariable variableName w).

(** The [switch (shell)] that builds the export line. *)
Definition exportLine (shell exportSyntax variableName value : jsstring)
    : jsstring :=
  if str_eqb shell (lit "fish") then
    exportSyntax ++ lit " " ++ variableName ++ lit " " ++
    [34] ++ value ++ [34]
  else if str_eqb shell (lit "powershell") then
    exportSyntax ++ variableName ++ lit " = " ++ [34] ++ value ++ [34]
  else
    exportSyntax ++ lit " " ++ variableName ++ lit "=" ++
    [34] ++ value ++ [34].

Definition default_comment (w : world) : jsstring :=
  lit "Added by " ++ pkg_name w.

(** The text handed to [writeFileSync]. *)
Definition newContent (content comment line : jsstring) : jsstring :=
  content ++
  (if str_truthy content && negb (endsWith1 content 10) then [10] else []) ++
  [10] ++ lit "# " ++ comment ++ [10] ++ line ++ [10].

Definition writeEnvVariable (variableName value : jsstring) (o : options)
    (w : world) : bool * world :=
  let shell := default (ShellDetector.detectShell w) (o_shell o) in
  let comment := default (default_comment w) (o_comment o) in
  let overwrite := default true (o_overwrite o) in
  if negb (ShellDetector.supportsEnvPersistence shell w) then (false, w)
  else
    let configPath := ShellDetector.getShellConfigPath shell w in
    let exportSyntax := ShellDetector.getExportSyntax shell w in
    let content := default [] (files w !! configPath) in
    let existingValue := extractEnvVariable content variableName shell in
    if opt_truthy existingValue && negb overwrite then (true, w)
    else
      let content :=
        if opt_truthy existingValue then
          (* this.removeEnvVariable(content, variableName, shell) *)
          removeEnvVariable_content content variableName shell
        else content in
      let line := exportLine shell exportSyntax variableName value in
      match writeFileSync configPath (newContent content comment line) w with
      | Some w' => (true, w')
      | None => (false, w)
      end.

(** [removeEnvVariable(variableName, options)], the first static method
    of that name (lines 129-154).  Its inner call
    [this.removeEnvVariable(content, variableName, shell)] is written
    for the content transform. *)
Definition removeEnvVariable_file (variableName : jsstring) (o : options)
    (w : world) : bool * world :=
  let shell := default (ShellDetector.detectShell w) (o_shell o) in
  let configPath := ShellDetector.getShellConfigPath shell w in
  match files w !! configPath with
  | None => (true, w)
  | Some content =>
      let new := removeEnvVariable_content content variableName shell in
      if negb (str_eqb content new) then
        match writeFileSync configPath new w with
        | Some w' => (true, w')
        | None => (false, w)
        end
      else (true, w)
  end.

(** A call [ConfigFileManager.removeEnvVariable(a0, a1, a2)] from
    outside the class, with a string as first argument; arguments left
    out are [undefined].  The member the name is bound to decides what
    the arguments mean. *)
Definition removeEnvVariable (a0 : jsstring) (a1 a2 : jsval) (w : world)
    : jsval * world :=
  match resolve "removeEnvVariable" with
  | Some M_removeEnvVariable_content =>
      (JStr (removeEnvVariable_content a0 (to_string a1) (to_string a2)), w)
  | Some M_removeEnvVariable_file =>
      let '(ok, w') := removeEnvVariable_file a0 no_options w in
      (JBool ok, w')
  | _ => (JUndefined, w)
  end.

End ConfigFileManager.

(** ** CredentialStorage *)

Module CredentialStorage.

Definition POSTMAN_API_KEY : jsstring := lit "POSTMAN_API_KEY".
Definition POSTMAN_WORKSPACE_ID : jsstring := lit "POSTMAN_WORKSPACE_ID".

Definition api_key_options : ConfigFileManager.options :=
  ConfigFileManager.mkOptions None
    (Some (lit "Postman API Key for flowman-cli")) (Some true).

Definition workspace_options : ConfigFileManager.options :=
  ConfigFileManager.mkOptions None
    (Some (lit "Postman Workspace ID for flowman-cli")) (Some true).

Definition storeApiKey (apiKey : jsval) (w : world) : bool * world :=
  if negb (Validator.validateApiKey apiKey) then (false, w)
  else
    let '(success, w1) :=
      ConfigFileManager.writeEnvVariable POSTMAN_API_KEY (to_string apiKey)
        api_key_options w in
    if success then (success, set_env POSTMAN_API_KEY (to_string apiKey) w1)
    else (success, w1).

Definition getApiKey (w : world) : jsval :=
  ConfigFileManager.readEnvVariable POSTMAN_API_KEY w.

Definition storeWorkspaceId (workspaceId : jsval) (w : world)
    : bool * world :=
  if negb (Validator.validateWorkspaceId workspaceId) then (false, w)
  else
    let '(success, w1) :=
      ConfigFileManager.writeEnvVariable POSTMAN_WORKSPACE_ID
        (to_string workspaceId) workspace_options w in
    if success then
      (success, set_env POSTMAN_WORKSPACE_ID (to_string workspaceId) w1)
    else (success, w1).

Definition getWorkspaceId (w : world) : jsval :=
  ConfigFileManager.readEnvVariable POSTMAN_WORKSPACE_ID w.

Definition hasApiKey (w : world) : bool :=
  ConfigFileManager.hasEnvVariable POSTMAN_API_KEY w.

Definition clearCredentials (w : world) : bool * world :=
  let '(apiKeyRemoved, w1) :=
    ConfigFileManager.removeEnvVariable POSTMAN_API_KEY
      JUndefined JUndefined w in
  let '(workspaceIdRemoved, w2) :=
    ConfigFileManager.removeEnvVariable POSTMAN_WORKSPACE_ID
      JUndefined JUndefined w1 in
  let w3 := delete_env POSTMAN_WORKSPACE_ID (delete_env POSTMAN_API_KEY w2) in
  if truthy apiKeyRemoved && truthy workspaceIdRemoved then (true, w3)
  else if truthy apiKeyRemoved || truthy workspaceIdRemoved then (true, w3)
  else (false, w3).

Definition isAuthenticated (w : world) : bool :=
  hasApiKey w && ConfigFileManager.not_null (getApiKey w).

Definition storeCredentials (apiKey workspaceId : jsval) (w : world)
    : bool * world :=
  let '(success, w1) :=
    if truthy apiKey then
      let '(ok, w') := storeApiKey apiKey w in (ok && true, w')
    else (true, w) in
  if truthy workspaceId then
    let '(ok, w') := storeWorkspaceId workspaceId w1 in (ok && success, w')
  else (success, w1).

Definition hasWorkspaceId (w : world) : bool :=
  ConfigFileManager.hasEnvVariable POSTMAN_WORKSPACE_ID w.

(** The object [getAllCredentials] returns. *)
Record credentials : Type := mkCredentials {
  c_apiKey : jsval;
  c_workspaceId : jsval
}.

Definition getAllCredentials (w : world) : credentials :=
  mkCredentials (getApiKey w) (getWorkspaceId w).

Definition validateStoredApiKey (w : world) : bool :=
  let apiKey := getApiKey w in
  if truthy apiKey then Validator.validateApiKey apiKey else false.


End CredentialStorage.

(** ** AuthManager *)

Module AuthManager.

(** [remote] stands for [PostmanClient.validateApiKey]: whether the
    service accepts the key; a failed request counts as a rejection. *)
Definition validateCredentials (remote : jsval -> bool) (w : world) : bool :=
  let apiKey := CredentialStorage.getApiKey w in
  if negb (truthy apiKey) then false else remote apiKey.

Definition authenticateWithApiKey (remote : jsval -> bool)
    (apiKey workspaceId : jsval) (w : world) : bool * world :=
  let '(success, w1) :=
    CredentialStorage.storeCredentials apiKey workspaceId w in
  if negb success then (false, w1)
  else if negb (validateCredentials remote w1) then
    let '(_, w2) := CredentialStorage.clearCredentials w1 in (false, w2)
  else (true, w1).

Definition logout (w : world) : bool * world :=
  CredentialStorage.clearCredentials w.

Definition maskApiKey (apiKey : jsstring) : jsstring :=
  if negb (str_truthy apiKey) || (length apiKey <? 8)%nat then lit "****"
  else
    let start := substring 0 8 apiKey in
    let end_ := substring (length apiKey - 4) (length apiKey) apiKey in
    let middle := repeat_char 42 (Nat.max 0 (length apiKey - 12)) in
    start ++ middle ++ end_.

Definition isAuthenticated (w : world) : bool :=
  CredentialStorage.isAuthenticated w.

(** [this.maskApiKey(v)] on what a read of the key returns, a string or
    [null]; [null] is masked like the empty string. *)
Definition maskApiKey_value (v : jsval) : jsval :=
  match v with
  | JStr s => JStr (maskApiKey s)
  | _ => JStr (lit "****")
  end.

(** The object [getAuthStatus] returns. *)
Record authStatus : Type := mkAuthStatus {
  authenticated : bool;
  s_hasApiKey : bool;
  s_hasWorkspace : bool;
  s_apiKey : jsval;
  s_workspaceId : jsval
}.

Definition getAuthStatus (w : world) : authStatus :=
  let credentials := CredentialStorage.getAllCredentials w in
  let hasApiKey := truthy (CredentialStorage.c_apiKey credentials) in
  let hasWorkspace := truthy (CredentialStorage.c_workspaceId credentials) in
  mkAuthStatus hasApiKey hasApiKey hasWorkspace
    (if hasApiKey then
       maskApiKey_value (CredentialStorage.c_apiKey credentials)
     else JNull)
    (CredentialStorage.c_workspaceId credentials).

Definition getMaskedApiKey (w : world) : jsval :=
  let apiKey := CredentialStorage.getApiKey w in
  if truthy apiKey then maskApiKey_value apiKey else JNull.

Definition getWorkspaceId (w : world) : jsval :=
  CredentialStorage.getWorkspaceId w.

Definition requireAuthentication (w : world) : completion unit :=
  if negb (isAuthenticated w) then
    Thrown (lit "Authentication required. Please run " ++ [34] ++
            lit "flowman-cli login" ++ [34] ++ lit " first.")
  else Returned tt.

(** The headers object, as its entries in source order. *)
Definition getAuthHeaders (w : world) : completion (list (jsstring * jsval)) :=
  let apiKey := CredentialStorage.getApiKey w in
  if negb (truthy apiKey) then
    Thrown (lit "No API key found. Please authenticate first.")
  else
    Returned [ (lit "X-API-Key", apiKey);
               (lit "Content-Type", JStr (lit "application/json")) ].

Definition checkCredentialsHealth (remote : jsval -> bool) (w : world)
    : bool :=
  if negb (isAuthenticated w) then false
  else if negb (CredentialStorage.validateStoredApiKey w) then false
  else validateCredentials remote w.

Definition refreshAuthStatus (remote : jsval -> bool) (w : world)
    : bool * world :=
  let isValid := checkCredentialsHealth remote w in
  if negb isValid && isAuthenticated w then
    let '(_, w1) := CredentialStorage.clearCredentials w in (isValid, w1)
  else (isValid, w).

End AuthManager.

(** ** The login and logout commands (src/commands/login.js,
    src/commands/logout.js)

    The prompts are answered from outside: the text prompt hands over
    the key typed, the confirm prompt its answer.  What a command shows
    at its end is its result. *)

Module LoginCommand.

(** The [validate] callback of the key prompt: the complaint shown, or
    [None] for [undefined], which lets the value through. *)
Definition validate (value : jsstring) : option jsstring :=
  if negb (str_truthy value) then Some (lit "API key is required")
  else if negb (startsWith value (lit "PMAK-")) then
    Some (lit "API key should start with " ++ [34] ++ lit "PMAK-" ++ [34])
  else if (length value <? 20)%nat then
    Some (lit "API key appears to be too short")
  else None.



Inductive logout_end : Type :=
| NothingToDo
| LogoutCancelled
| LoggedOut
| FailedToLogout.

(** [handleLogout], and [run] of logout.js, which has the same body;
    [shouldLogout] is the answer of the confirm prompt. *)
Definition handleLogout (shouldLogout : jsval) (w : world)
    : logout_end * world :=
  if negb (AuthManager.isAuthenticated w) then (NothingToDo, w)
  else if negb (truthy shouldLogout) then (LogoutCancelled, w)
  else
    let '(success, w1) := AuthManager.logout w in
    if success then (LoggedOut, w1) else (FailedToLogout, w1).

End LoginCommand.

(** * Vocabulary of the properties *)

(** ** Names, values, comments *)

(** A variable name made of word characters: letters, digits and the
    underscore.  Such a name has no regular-expression operator, so the
    expressions above are the ones the source builds for it. *)
Definition is_word_char (c : N) : bool :=
  ((65 <=? c) && (c <=? 90)) || ((97 <=? c) && (c <=? 122)) ||
  ((48 <=? c) && (c <=? 57)) || (c =? 95).

Definition valid_name (n : jsstring) : bool :=
  negb (str_eqb n []) && forallb is_word_char n.

(** A text that survives the way to disk and back: every surrogate code
    unit is part of a pair. *)
Definition well_formed (s : jsstring) : bool := str_eqb (utf8_text s) s.

(** A value the quoted serialisation can carry: not empty, no quote
    character, no line terminator, well formed. *)
Definition is_plain_char (c : N) : bool :=
  negb (is_quote c) && negb (is_line_terminator c).

Definition valid_value (v : jsstring) : bool :=
  negb (str_eqb v []) && forallb is_plain_char v && well_formed v.

(** The characters of a workspace id are among these: ASCII other than
    NUL, the quote characters and the line terminators. *)
Definition id_char (c : N) : bool :=
  is_plain_char c && (0 <? c) && (c <? 128).

(** A comment that stays on its line. *)
Definition valid_comment (c : jsstring) : bool :=
  forallb is_dot c && well_formed c.

(** ** The four supported shells *)

Inductive shell_kind : Type := Bash | Zsh | Fish | PowerShell.

Definition shell_name (k : shell_kind) : jsstring :=
  match k with
  | Bash => lit "bash"
  | Zsh => lit "zsh"
  | Fish => lit "fish"
  | PowerShell => lit "powershell"
  end.

(** The line [writeEnvVariable] builds for the shell [k]. *)
Definition assignment (k : shell_kind) (name value : jsstring) : jsstring :=
  ConfigFileManager.exportLine (shell_name k)
    (ShellDetector.syntaxMap (shell_name k)) name value.

(** The parts of the line and of the two expressions of a shell: what
    stands before the name and what follows it. *)
Definition keyword_text (k : shell_kind) : jsstring :=
  match k with
  | Bash | Zsh => lit "export "
  | Fish => lit "set -gx "
  | PowerShell => lit "$env:"
  end.

Definition value_text (k : shell_kind) (v : jsstring) : jsstring :=
  match k with
  | Bash | Zsh => lit "=" ++ 34 :: v ++ [34]
  | Fish => lit " " ++ 34 :: v ++ [34]
  | PowerShell => lit " = " ++ 34 :: v ++ [34]
  end.

Definition keyword_items (k : shell_kind) : list item :=
  match k with
  | Bash | Zsh => ConfigFileManager.lits (lit "export") ++ [Plus is_space]
  | Fish => ConfigFileManager.lits (lit "set") ++ Plus is_space ::
            ConfigFileManager.lits (lit "-gx") ++ [Plus is_space]
  | PowerShell => ConfigFileManager.lits (lit "$env:")
  end.

Definition capture_items : list item :=
  [Opt is_quote; Open; Plus is_value_char; Close; Opt is_quote].

Definition extract_tail (k : shell_kind) : list item :=
  match k with
  | Bash | Zsh => Lit 61 :: capture_items
  | Fish => Plus is_space :: capture_items
  | PowerShell => Star is_space :: Lit 61 :: Star is_space :: capture_items
  end.

Definition remove_tail (k : shell_kind) : list item :=
  match k with
  | Bash | Zsh => [Lit 61; Star is_dot; Eol]
  | Fish => [Plus is_space; Star is_dot; Eol]
  | PowerShell => [Star is_space; Lit 61; Star is_dot; Eol]
  end.

(** An expression part that cannot start on a word character. *)
Definition stops_on_word (r : list item) : Prop :=
  forall d s gs cap, is_word_char d = true -> exec r (d :: s) gs cap = None.

(** A text that ends here or continues with a line feed. *)
Definition line_end (t : jsstring) : bool :=
  match t with
  | [] => true
  | c :: _ => c =? 10
  end.

(** The first character after leading white space. *)
Definition after_space (s : jsstring) : option N :=
  head (drop (run_len is_space s) s).

(** ** Config files kept by the tool

    What [writeEnvVariable] and the content transform leave in a file
    that they alone have written: blank lines, comment lines and
    assignment lines, each closed by a line feed. *)

Inductive line : Type :=
| Blank
| Note (c : jsstring)
| Assign (n v : jsstring).

Definition line_text (k : shell_kind) (l : line) : jsstring :=
  match l with
  | Blank => []
  | Note c => lit "# " ++ c
  | Assign n v => assignment k n v
  end.

Fixpoint render (k : shell_kind) (ls : list line) : jsstring :=
  match ls with
  | [] => []
  | l :: ls' => line_text k l ++ 10 :: render k ls'
  end.

Definition line_ok (l : line) : bool :=
  match l with
  | Blank => true
  | Note c => valid_comment c
  | Assign n v => valid_name n && valid_value v
  end.

Definition is_assign (l : line) : bool :=
  match l with
  | Assign _ _ => true
  | _ => false
  end.

Definition is_note (l : line) : bool :=
  match l with
  | Note _ => true
  | _ => false
  end.

(** Every line is well formed and every assignment line stands directly
    under a comment line, as [writeEnvVariable] lays them out; [noted]
    tells whether the line before the first one is a comment. *)
Fixpoint kept_from (noted : bool) (ls : list line) : bool :=
  match ls with
  | [] => true
  | l :: ls' =>
      line_ok l && (if is_assign l then noted else true) &&
      kept_from (is_note l) ls'
  end.

Definition kept_lines (ls : list line) : bool := kept_from false ls.

(** The weaker shape the two expressions need: every line is well formed
    and no blank line stands directly before an assignment line. *)
Fixpoint tidy (ls : list line) : bool :=
  match ls with
  | [] => true
  | l :: ls' =>
      line_ok l &&
      match l, ls' with
      | Blank, Assign _ _ :: _ => false
      | _, _ => true
      end && tidy ls'
  end.

Definition assigns (name : jsstring) (l : line) : bool :=
  match l with
  | Assign n _ => str_eqb n name
  | _ => false
  end.

(** The value of the first assignment line for [name]. *)
Fixpoint first_value (name : jsstring) (ls : list line) : option jsstring :=
  match ls with
  | [] => None
  | Assign n v :: ls' => if str_eqb n name then Some v else first_value name ls'
  | _ :: ls' => first_value name ls'
  end.

(** The values of the assignment lines for [name], in file order. *)
Fixpoint values_of (name : jsstring) (ls : list line) : list jsstring :=
  match ls with
  | [] => []
  | Assign n v :: ls' =>
      if str_eqb n name then v :: values_of name ls' else values_of name ls'
  | _ :: ls' => values_of name ls'
  end.

(** The assignment lines for [name] emptied. *)
Definition blank_out (name : jsstring) (ls : list line) : list line :=
  map (fun l => if assigns name l then Blank else l) ls.

(** [shorter ls' ls]: [ls'] is [ls] with some blank lines taken out. *)
Inductive shorter : list line -> list line -> Prop :=
| shorter_nil : shorter [] []
| shorter_keep l ls' ls : shorter ls' ls -> shorter (l :: ls') (l :: ls)
| shorter_drop ls' ls : shorter ls' ls -> shorter ls' (Blank :: ls).

(** The world after a successful [writeFileSync]. *)
Definition with_file (p text : jsstring) (w : world) : world :=
  mkWorld (env w) (<[p := text]> (files w)) (unwritable w)
          (platform w) (homedir w) (pkg_name w).

(** The state of the config file of shell [k] in the world [w]: absent,
    or kept by the tool. *)
Definition config_kept (k : shell_kind) (w : world) (ls : list line) : Prop :=
  kept_lines ls = true /\
  match files w !! ShellDetector.getShellConfigPath (shell_name k) w with
  | Some text => text = render k ls
  | None => ls = []
  end.

(** The comments of the comment lines, in file order. *)
Fixpoint notes_of (ls : list line) : list jsstring :=
  match ls with
  | [] => []
  | Note c :: ls' => c :: notes_of ls'
  | _ :: ls' => notes_of ls'
  end.

(** ** Shells without an entry in the tables

    A shell name that is none of the five keys of [configFiles] and
    [syntaxMap] (and no member of [Object.prototype]): sh, dash, ksh and
    the like.  The tables answer such a name with their fallbacks. *)
Definition other_shell (sh : jsstring) : bool :=
  str_truthy sh &&
  negb (str_eqb sh (lit "bash")) && negb (str_eqb sh (lit "zsh")) &&
  negb (str_eqb sh (lit "fish")) && negb (str_eqb sh (lit "cmd")) &&
  negb (str_eqb sh (lit "powershell")) &&
  negb (bool_decide (sh ∈ inherited_names)).

(** A shell name the tables can be read with by their own keys: not the
    name of a member of [Object.prototype]. *)
Definition own_name (sh : jsstring) : bool :=
  negb (bool_decide (sh ∈ inherited_names)).

Definition profile_path (w : world) : jsstring :=
  path_join (homedir w) (lit ".profile").

(** The state of .profile in the world [w]: absent, or kept by the tool
    in the syntax of bash. *)
Definition profile_kept (w : world) (ls : list line) : Prop :=
  kept_lines ls = true /\
  match files w !! profile_path w with
  | Some text => text = render Bash ls
  | None => ls = []
  end.

(** ** Lines of a text and the assignment lines among them *)

(** The lines of a text, split at line feeds; a final line feed closes
    the last line. *)
Fixpoint lines_from (cur : jsstring) (s : jsstring) : list jsstring :=
  match s with
  | [] => match cur with [] => [] | _ => [reverse cur] end
  | c :: s' =>
      if c =? 10 then reverse cur :: lines_from [] s'
      else lines_from (c :: cur) s'
  end.

Definition lines_of (s : jsstring) : list jsstring := lines_from [] s.

(** A line the locate pattern of [name] matches from its first
    character. *)
Definition is_assignment_line (k : shell_kind) (name l : jsstring) : bool :=
  bool_decide (is_Some
    (exec (body (ConfigFileManager.remove_pattern (shell_name k) name))
          l None None)).

Definition assignment_lines (k : shell_kind) (name text : jsstring)
    : list jsstring :=
  List.filter (is_assignment_line k name) (lines_of text).

(** ** Worlds for the examples *)

Definition posix_world (shell : string) : world :=
  mkWorld {[ lit "SHELL" := lit shell ]} ∅ ∅ (lit "linux") (lit "/home/u")
          (lit "flowman-cli").

Definition file_world (shell : string) (path : string) (text : jsstring)
    : world :=
  mkWorld {[ lit "SHELL" := lit shell ]} {[ lit path := text ]} ∅
          (lit "linux") (lit "/home/u") (lit "flowman-cli").

Definition nl : jsstring := [10].
Definition dq : jsstring := [34].

(** * Properties *)

(** ** The matcher *)

Section TryDown.
Context {A : Type}.
Implicit Types (f : nat -> option A) (lo k : nat).

Lemma try_down_below f lo k : (k < lo)%nat -> try_down f lo k = None.
Proof.
  intros H. destruct k; simpl; apply Nat.ltb_lt in H; rewrite H; reflexivity.
Qed.

Lemma try_down_unfold f lo k :
  (lo <= k)%nat ->
  try_down f lo k =
    match f k with
    | Some r => Some r
    | None => match k with O => None | S k' => try_down f lo k' end
    end.
Proof.
  intros H. apply Nat.ltb_ge in H. destruct k; simpl; rewrite H; reflexivity.
Qed.

Lemma try_down_hit f lo k r :
  (lo <= k)%nat -> f k = Some r -> try_down f lo k = Some r.
Proof. intros Hk Hf. rewrite try_down_unfold, Hf by assumption. reflexivity. Qed.

Lemma try_down_zero f : try_down f 0 0 = f 0%nat.
Proof. simpl. destruct (f 0%nat); reflexivity. Qed.

Lemma try_down_one f : try_down f 1 1 = f 1%nat.
Proof. simpl. destruct (f 1%nat); reflexivity. Qed.

Lemma try_down_none f lo k :
  (forall j, (lo <= j <= k)%nat -> f j = None) -> try_down f lo k = None.
Proof.
  induction k as [|k IH]; intros H.
  - destruct lo; [|apply try_down_below; lia].
    rewrite try_down_zero. apply H. lia.
  - destruct (Nat.le_gt_cases lo (S k)) as [Hle|Hgt];
      [|apply try_down_below; assumption].
    rewrite try_down_unfold, (H (S k)) by lia.
    apply IH. intros j Hj. apply H. lia.
Qed.

(** When every shorter repetition fails, the longest decides. *)
Lemma try_down_top f lo k :
  (lo <= k)%nat ->
  (forall j, (j < k)%nat -> f j = None) ->
  try_down f lo k = f k.
Proof.
  intros Hk H. rewrite try_down_unfold by assumption.
  destruct (f k); [reflexivity|].
  destruct k; [reflexivity|].
  apply try_down_none. intros j Hj. apply H. lia.
Qed.

(** When every longer repetition fails, the one [d] steps down decides. *)
Lemma try_down_step f lo k d r :
  (lo + d <= k)%nat ->
  (forall j, (k - d < j <= k)%nat -> f j = None) ->
  f (k - d)%nat = Some r ->
  try_down f lo k = Some r.
Proof.
  revert k. induction d as [|d IH]; intros k Hk Hnone Hhit.
  - rewrite Nat.sub_0_r in Hhit. apply try_down_hit; [lia|assumption].
  - destruct k as [|k]; [lia|].
    rewrite try_down_unfold, (Hnone (S k)) by lia.
    apply IH; [lia| |].
    + intros j Hj. apply Hnone. lia.
    + replace (k - d)%nat with (S k - S d)%nat by lia. assumption.
Qed.

End TryDown.

Section RunLen.
Implicit Types (p : N -> bool) (s u : jsstring).

Lemma run_len_app p u s :
  forallb p u = true -> run_len p (u ++ s) = (length u + run_len p s)%nat.
Proof.
  induction u as [|c u IH]; simpl; [reflexivity|].
  intros H. apply andb_true_iff in H as [Hc Hu]. rewrite Hc, IH by assumption.
  reflexivity.
Qed.

Lemma run_len_stop p c s : p c = false -> run_len p (c :: s) = 0%nat.
Proof. intros H. simpl. rewrite H. reflexivity. Qed.

Lemma run_len_le p s : (run_len p s <= length s)%nat.
Proof.
  induction s as [|c s IH]; simpl; [lia|]. destruct (p c); simpl; lia.
Qed.

(** Below the run the text still starts with a character of the class. *)
Lemma run_len_inside p s j :
  (j < run_len p s)%nat -> exists c t, drop j s = c :: t /\ p c = true.
Proof.
  revert j. induction s as [|c s IH]; simpl; intros j Hj; [lia|].
  destruct (p c) eqn:Hc; [|lia].
  destruct j as [|j]; [exists c, s; split; [reflexivity|assumption]|].
  simpl. apply IH. lia.
Qed.

Lemma drop_run_len_app p u s :
  forallb p u = true -> run_len p s = 0%nat ->
  drop (run_len p (u ++ s)) (u ++ s) = s.
Proof.
  intros Hu Hs. rewrite run_len_app, Hs, Nat.add_0_r by assumption.
  apply drop_app_length.
Qed.

End RunLen.

Section Exec.
Implicit Types (r : list item) (s u : jsstring) (gs cap : option jsstring).

Lemma exec_lit_hit c r s gs cap :
  exec (Lit c :: r) (c :: s) gs cap = exec r s gs cap.
Proof. simpl. rewrite N.eqb_refl. reflexivity. Qed.

Lemma exec_lit_miss c x r s gs cap :
  x <> c -> exec (Lit c :: r) (x :: s) gs cap = None.
Proof. intros H. simpl. apply N.eqb_neq in H. rewrite H. reflexivity. Qed.

Lemma exec_lits u r s gs cap :
  exec (ConfigFileManager.lits u ++ r) (u ++ s) gs cap = exec r s gs cap.
Proof.
  induction u as [|c u IH]; [reflexivity|].
  cbn [ConfigFileManager.lits map app]. rewrite exec_lit_hit. apply IH.
Qed.

Lemma exec_star r p s gs cap :
  exec (Star p :: r) s gs cap =
  try_down (fun k => exec r (drop k s) gs cap) 0 (run_len p s).
Proof. reflexivity. Qed.

Lemma exec_plus r p s gs cap :
  exec (Plus p :: r) s gs cap =
  try_down (fun k => exec r (drop k s) gs cap) 1 (run_len p s).
Proof. reflexivity. Qed.

Lemma exec_opt r p s gs cap :
  exec (Opt p :: r) s gs cap =
  try_down (fun k => exec r (drop k s) gs cap) 0 (Nat.min 1 (run_len p s)).
Proof. reflexivity. Qed.

(** A greedy star in front of a literal outside its class does not
    backtrack. *)
Lemma exec_star_lit p c r s gs cap :
  p c = false ->
  exec (Star p :: Lit c :: r) s gs cap =
  exec (Lit c :: r) (drop (run_len p s) s) gs cap.
Proof.
  intros Hc. rewrite exec_star.
  apply (try_down_top (fun k => exec (Lit c :: r) (drop k s) gs cap) 0); [lia|].
  intros j Hj. destruct (run_len_inside p s j Hj) as (x & t & -> & Hx).
  apply exec_lit_miss. congruence.
Qed.

Lemma exec_plus_lit p c r s gs cap :
  p c = false ->
  exec (Plus p :: Lit c :: r) s gs cap =
  match run_len p s with
  | O => None
  | S _ => exec (Lit c :: r) (drop (run_len p s) s) gs cap
  end.
Proof.
  intros Hc. rewrite exec_plus. destruct (run_len p s) as [|n] eqn:Hn.
  - apply try_down_below. lia.
  - rewrite <- Hn.
    apply (try_down_top (fun k => exec (Lit c :: r) (drop k s) gs cap) 1);
      [lia|].
    intros j Hj. destruct (run_len_inside p s j Hj) as (x & t & -> & Hx).
    apply exec_lit_miss. congruence.
Qed.

(** No expression of the file matches the empty text at its first
    literal. *)
Lemma exec_lit_nil c r gs cap : exec (Lit c :: r) [] gs cap = None.
Proof. reflexivity. Qed.

End Exec.

(** ** Character classes *)

Ltac class_prop :=
  unfold is_plain_char in *;
  unfold is_dot, is_value_char, is_high_surrogate, is_low_surrogate in *;
  unfold is_word_char, is_space, is_line_terminator, is_quote in *;
  repeat first
    [ rewrite negb_true_iff in * | rewrite negb_false_iff in *
    | rewrite orb_true_iff in * | rewrite orb_false_iff in *
    | rewrite andb_true_iff in * | rewrite andb_false_iff in *
    | rewrite N.eqb_eq in * | rewrite N.eqb_neq in *
    | rewrite N.leb_le in * | rewrite N.leb_gt in * ].

Ltac class_solve := intros; class_prop; repeat split; lia.

Section Classes.
Implicit Types (c : N) (n v s : jsstring).

Lemma word_not_space c : is_word_char c = true -> is_space c = false.
Proof. class_solve. Qed.

Lemma word_is_dot c : is_word_char c = true -> is_dot c = true.
Proof. class_solve. Qed.

Lemma word_not_terminator c :
  is_word_char c = true -> is_line_terminator c = false.
Proof. class_solve. Qed.

Lemma word_range c : is_word_char c = true -> 48 <= c <= 122.
Proof. class_solve. Qed.

Lemma plain_is_value_char c : is_plain_char c = true -> is_value_char c = true.
Proof. class_solve. Qed.

Lemma plain_is_dot c : is_plain_char c = true -> is_dot c = true.
Proof. class_solve. Qed.

Lemma plain_not_quote c : is_plain_char c = true -> is_quote c = false.
Proof. class_solve. Qed.

Lemma dot_not_feed c : is_dot c = true -> c <> 10.
Proof. class_solve. Qed.

Lemma word_not_high c : is_word_char c = true -> is_high_surrogate c = false.
Proof. class_solve. Qed.

Lemma word_not_low c : is_word_char c = true -> is_low_surrogate c = false.
Proof. class_solve. Qed.

Lemma high_not_replacement c : is_high_surrogate c = true -> c <> 65533.
Proof. class_solve. Qed.

Lemma low_not_replacement c : is_low_surrogate c = true -> c <> 65533.
Proof. class_solve. Qed.

(** A text of word characters reaches the disk as it is. *)
Lemma utf8_text_words s :
  forallb is_word_char s = true -> utf8_text s = s.
Proof.
  induction s as [|c s IH]; [reflexivity|]. simpl forallb.
  intros H. apply andb_true_iff in H as [Hc Hs]. cbn [utf8_text].
  rewrite (word_not_high c Hc), (word_not_low c Hc), IH by assumption.
  reflexivity.
Qed.

(** Well-formed texts stay well formed when put one after the other. *)
Lemma utf8_text_app_len m a b :
  (length a <= m)%nat ->
  utf8_text a = a -> utf8_text b = b -> utf8_text (a ++ b) = a ++ b.
Proof.
  revert a. induction m as [|m IH]; intros a Hlen Ha Hb.
  - destruct a; [exact Hb|simpl in Hlen; lia].
  - destruct a as [|c a]; [exact Hb|]. simpl in Hlen.
    cbn [utf8_text app] in *.
    destruct (is_high_surrogate c) eqn:Hhigh.
    + destruct a as [|d a].
      * injection Ha as Ha. apply high_not_replacement in Hhigh. congruence.
      * cbn [app]. destruct (is_low_surrogate d) eqn:Hlow.
        -- injection Ha as Ha. simpl in Hlen.
           rewrite (IH a) by (assumption || lia). reflexivity.
        -- injection Ha as Ha _. apply high_not_replacement in Hhigh.
           congruence.
    + destruct (is_low_surrogate c) eqn:Hlow.
      * injection Ha as Ha _. apply low_not_replacement in Hlow. congruence.
      * injection Ha as Ha. rewrite (IH a) by (assumption || lia).
        reflexivity.
Qed.

Lemma utf8_text_app a b :
  utf8_text a = a -> utf8_text b = b -> utf8_text (a ++ b) = a ++ b.
Proof. apply (utf8_text_app_len (length a)). lia. Qed.

Lemma well_formed_eq s : well_formed s = true -> utf8_text s = s.
Proof. unfold well_formed, str_eqb. apply bool_decide_eq_true_1. Qed.

Lemma forallb_impl (p q : N -> bool) s :
  (forall c, p c = true -> q c = true) ->
  forallb p s = true -> forallb q s = true.
Proof.
  intros Hpq. induction s as [|c s IH]; simpl; [reflexivity|].
  intros H. apply andb_true_iff in H as [Hc Hs].
  rewrite (Hpq c Hc), IH by assumption. reflexivity.
Qed.

Lemma valid_name_cons n :
  valid_name n = true ->
  exists c n', n = c :: n' /\ is_word_char c = true /\
               forallb is_word_char n' = true.
Proof.
  unfold valid_name. destruct n as [|c n']; [discriminate|].
  intros H. apply andb_true_iff in H as [_ H]. simpl in H.
  apply andb_true_iff in H as [Hc Hn]. eauto.
Qed.

Lemma valid_name_words n : valid_name n = true -> forallb is_word_char n = true.
Proof. unfold valid_name. intros H. apply andb_true_iff in H as [_ H]. exact H. Qed.

Lemma valid_value_cons v :
  valid_value v = true ->
  exists c v', v = c :: v' /\ is_plain_char c = true /\
               forallb is_plain_char v' = true.
Proof.
  unfold valid_value. destruct v as [|c v']; [discriminate|].
  intros H. apply andb_true_iff in H as [H _].
  apply andb_true_iff in H as [_ H]. simpl in H.
  apply andb_true_iff in H as [Hc Hn]. eauto.
Qed.

Lemma valid_value_plain v :
  valid_value v = true -> forallb is_plain_char v = true.
Proof.
  unfold valid_value. intros H. apply andb_true_iff in H as [H _].
  apply andb_true_iff in H as [_ H]. exact H.
Qed.

Lemma valid_value_text v : valid_value v = true -> utf8_text v = v.
Proof.
  unfold valid_value. intros H. apply andb_true_iff in H as [_ H].
  apply well_formed_eq, H.
Qed.

Lemma valid_comment_dots s : valid_comment s = true -> forallb is_dot s = true.
Proof. unfold valid_comment. intros H. apply andb_true_iff in H as [H _]. exact H. Qed.

Lemma valid_comment_text s : valid_comment s = true -> utf8_text s = s.
Proof.
  unfold valid_comment. intros H. apply andb_true_iff in H as [_ H].
  apply well_formed_eq, H.
Qed.

End Classes.

(** ** The expressions of each shell on the lines of the tool *)

Ltac numerals :=
  repeat match goal with
  | |- context [keyword_items ?k] =>
      let t := constr:(keyword_items k) in
      let v := eval cbv -[is_space is_quote is_dot is_value_char] in t in
      change t with v
  | |- context [keyword_text ?k] =>
      let t := constr:(keyword_text k) in
      let v := eval vm_compute in t in change t with v
  end.

Section Patterns.
Import ConfigFileManager.
Implicit Types (k : shell_kind) (n v s t : jsstring) (r : list item)
               (gs cap : option jsstring).

Lemma run_len_one (p : N -> bool) a c s :
  p a = true -> p c = false -> run_len p (a :: c :: s) = 1%nat.
Proof. intros Ha Hc. simpl. rewrite Ha, Hc. reflexivity. Qed.

Lemma body_extract k n :
  body (extract_pattern (shell_name k) n) =
  Star is_space :: keyword_items k ++ lits n ++ extract_tail k.
Proof. destruct k; reflexivity. Qed.

Lemma body_remove k n :
  body (remove_pattern (shell_name k) n) =
  Star is_space :: keyword_items k ++ lits n ++ remove_tail k.
Proof. destruct k; reflexivity. Qed.

Lemma anchored_extract k n : anchored (extract_pattern (shell_name k) n) = true.
Proof. destruct k; reflexivity. Qed.

Lemma anchored_remove k n : anchored (remove_pattern (shell_name k) n) = true.
Proof. destruct k; reflexivity. Qed.

Lemma assignment_parts k n v :
  assignment k n v = keyword_text k ++ n ++ value_text k v.
Proof.
  destruct k; unfold assignment, exportLine; simpl;
    rewrite <- ?app_assoc; reflexivity.
Qed.

(** The start of the expression consumes the keyword of the line. *)
Lemma exec_keyword k n r c s gs cap :
  valid_name n = true -> is_space c = false ->
  exec (Star is_space :: keyword_items k ++ lits n ++ r)
       (keyword_text k ++ c :: s) gs cap =
  exec (lits n ++ r) (c :: s) gs cap.
Proof.
  intros Hn Hc.
  destruct (valid_name_cons n Hn) as (d & n' & -> & Hd & _).
  apply word_not_space in Hd.
  destruct k; numerals; cbn [app lits map].
  all: rewrite exec_star_lit by reflexivity.
  all: rewrite run_len_stop by reflexivity; cbn [drop]; rewrite ?drop_0.
  all: rewrite !exec_lit_hit.
  all: repeat (rewrite exec_plus_lit by (reflexivity || assumption);
               (rewrite (run_len_one is_space) by (reflexivity || assumption));
               cbn [drop]; rewrite ?drop_0; rewrite ?exec_lit_hit).
  all: reflexivity.
Qed.

Lemma exec_keyword_name k n m r s gs cap :
  valid_name n = true -> valid_name m = true ->
  exec (Star is_space :: keyword_items k ++ lits n ++ r)
       (keyword_text k ++ m ++ s) gs cap =
  exec (lits n ++ r) (m ++ s) gs cap.
Proof.
  intros Hn Hm. destruct (valid_name_cons m Hm) as (c & m' & -> & Hc & _).
  apply (exec_keyword k n r c (m' ++ s)); [assumption|].
  apply word_not_space, Hc.
Qed.

Lemma exec_name_other n n' x s r gs cap :
  forallb is_word_char n = true -> forallb is_word_char n' = true ->
  n <> n' -> is_word_char x = false -> stops_on_word r ->
  exec (lits n ++ r) (n' ++ x :: s) gs cap = None.
Proof.
  intros Hn Hn' Hne Hx Hr. revert n' Hn' Hne.
  induction n as [|c n IH]; intros [|d n'] Hn' Hne; simpl in Hn, Hn'.
  - congruence.
  - apply andb_true_iff in Hn' as [Hd _]. apply Hr. exact Hd.
  - apply andb_true_iff in Hn as [Hc _].
    cbn [lits map app]. apply exec_lit_miss. congruence.
  - apply andb_true_iff in Hn as [Hc Hn].
    apply andb_true_iff in Hn' as [Hd Hn'].
    cbn [lits map app]. destruct (N.eq_dec d c) as [->|Hdc].
    + rewrite exec_lit_hit. apply IH; [assumption|assumption|congruence].
    + apply exec_lit_miss. exact Hdc.
Qed.

Lemma extract_tail_stops k : stops_on_word (extract_tail k).
Proof.
  intros d s gs cap Hd. pose proof (word_not_space d Hd) as Hs.
  destruct k; cbn [extract_tail].
  1,2: apply exec_lit_miss; class_solve.
  - rewrite exec_plus. rewrite run_len_stop by assumption.
    apply try_down_below. lia.
  - rewrite exec_star_lit by reflexivity. rewrite run_len_stop by assumption.
    apply exec_lit_miss. class_solve.
Qed.

Lemma remove_tail_stops k : stops_on_word (remove_tail k).
Proof.
  intros d s gs cap Hd. pose proof (word_not_space d Hd) as Hs.
  destruct k; cbn [remove_tail].
  1,2: apply exec_lit_miss; class_solve.
  - rewrite exec_plus. rewrite run_len_stop by assumption.
    apply try_down_below. lia.
  - rewrite exec_star_lit by reflexivity. rewrite run_len_stop by assumption.
    apply exec_lit_miss. class_solve.
Qed.

Lemma line_end_eol t : line_end t = true -> at_eol t = true.
Proof. destruct t as [|c t]; [reflexivity|]. simpl. intros ->%N.eqb_eq. reflexivity. Qed.

Lemma line_end_run p t :
  p 10 = false -> line_end t = true -> run_len p t = 0%nat.
Proof.
  intros Hp. destruct t as [|c t]; [reflexivity|]. simpl.
  intros ->%N.eqb_eq. rewrite Hp. reflexivity.
Qed.

Lemma exec_open r s gs cap :
  exec (Open :: r) s gs cap = exec r s (Some s) cap.
Proof. reflexivity. Qed.

Lemma exec_close r s s0 cap :
  exec (Close :: r) s (Some s0) cap =
  exec r s (Some s0) (Some (take (length s0 - length s) s0)).
Proof. reflexivity. Qed.

Lemma exec_eol r s gs cap :
  at_eol s = true -> exec (Eol :: r) s gs cap = exec r s gs cap.
Proof. intros H. simpl. rewrite H. reflexivity. Qed.

Lemma min_one_run (p : N -> bool) a s :
  p a = true -> Nat.min 1 (run_len p (a :: s)) = 1%nat.
Proof. intros H. simpl. rewrite H. reflexivity. Qed.

(** The capture group on a quoted value. *)
Lemma exec_capture v t gs cap :
  valid_value v = true ->
  exec capture_items (34 :: v ++ 34 :: t) gs cap = Some (t, Some v).
Proof.
  intros Hv. unfold capture_items.
  pose proof (valid_value_plain v Hv) as Hp.
  destruct (valid_value_cons v Hv) as (c & v' & Hcv & _ & _).
  assert (forallb is_value_char v = true) as Hval
    by (eapply forallb_impl; [apply plain_is_value_char|assumption]).
  assert (1 <= length v)%nat as Hlen by (rewrite Hcv; simpl; lia).
  rewrite exec_opt, min_one_run by reflexivity.
  apply try_down_hit; [lia|]. cbn [drop]; rewrite ?drop_0.
  rewrite exec_open, exec_plus, run_len_app by assumption.
  rewrite (run_len_stop is_value_char 34) by reflexivity.
  rewrite Nat.add_0_r. apply try_down_hit; [lia|].
  rewrite drop_app_length, exec_close.
  rewrite length_app. cbn [length].
  replace (length v + S (length t) - S (length t))%nat with (length v) by lia.
  rewrite take_app_length.
  rewrite exec_opt, min_one_run by reflexivity.
  apply try_down_hit; [lia|]. reflexivity.
Qed.

(** What follows the name in the line, under the extraction expression. *)
Lemma exec_extract_tail k v t :
  valid_value v = true ->
  exec (extract_tail k) (value_text k v ++ t) None None = Some (t, Some v).
Proof.
  intros Hv. destruct k; cbn [extract_tail value_text].
  all: change (lit "=") with [61]; change (lit " ") with [32];
       change (lit " = ") with [32; 61; 32]; cbn [app];
       rewrite <- ?app_assoc; cbn [app].
  - rewrite exec_lit_hit. apply exec_capture, Hv.
  - rewrite exec_lit_hit. apply exec_capture, Hv.
  - rewrite exec_plus, (run_len_one is_space) by reflexivity.
    rewrite try_down_one. cbn [drop]; rewrite ?drop_0. apply exec_capture, Hv.
  - rewrite exec_star_lit by reflexivity.
    rewrite (run_len_one is_space) by reflexivity. cbn [drop]; rewrite ?drop_0.
    rewrite exec_lit_hit, exec_star.
    rewrite (run_len_one is_space) by reflexivity.
    apply try_down_hit; [lia|]. cbn [drop]; rewrite ?drop_0. apply exec_capture, Hv.
Qed.

(** The same under the removal expression: the match runs to the end of
    the line. *)
Lemma exec_remove_tail k v t gs cap :
  valid_value v = true -> line_end t = true ->
  exec (remove_tail k) (value_text k v ++ t) gs cap = Some (t, cap).
Proof.
  intros Hv Ht.
  pose proof (valid_value_plain v Hv) as Hp.
  assert (forallb is_dot v = true) as Hdot
    by (eapply forallb_impl; [apply plain_is_dot|assumption]).
  assert (forall u, forallb is_dot u = true ->
            exec [Star is_dot; Eol] (u ++ 34 :: v ++ 34 :: t) gs cap
            = Some (t, cap)) as Hrest.
  { intros u Hu. rewrite exec_star.
    replace (u ++ 34 :: v ++ 34 :: t) with ((u ++ 34 :: v ++ [34]) ++ t)
      by (rewrite <- !app_assoc; cbn [app]; rewrite <- app_assoc; reflexivity).
    rewrite run_len_app.
    2:{ rewrite forallb_app, Hu. cbn [forallb].
        rewrite forallb_app, Hdot. reflexivity. }
    rewrite (line_end_run is_dot t) by (reflexivity || assumption).
    rewrite Nat.add_0_r. apply try_down_hit; [lia|].
    rewrite drop_app_length. rewrite exec_eol by (apply line_end_eol, Ht).
    reflexivity. }
  destruct k; cbn [remove_tail value_text].
  all: change (lit "=") with [61]; change (lit " ") with [32];
       change (lit " = ") with [32; 61; 32]; cbn [app];
       rewrite <- ?app_assoc; cbn [app].
  - rewrite exec_lit_hit. apply (Hrest []). reflexivity.
  - rewrite exec_lit_hit. apply (Hrest []). reflexivity.
  - rewrite exec_plus, (run_len_one is_space) by reflexivity.
    rewrite try_down_one. cbn [drop]; rewrite ?drop_0.
    apply (Hrest []). reflexivity.
  - rewrite exec_star_lit by reflexivity.
    rewrite (run_len_one is_space) by reflexivity. cbn [drop]; rewrite ?drop_0.
    rewrite exec_lit_hit. apply (Hrest [32]). reflexivity.
Qed.

Lemma value_text_head k v :
  exists x s, value_text k v = x :: s /\ is_word_char x = false /\
              is_space x || (x =? 61) = true.
Proof.
  destruct k; cbn [value_text].
  all: change (lit "=") with [61]; change (lit " ") with [32];
       change (lit " = ") with [32; 61; 32]; cbn [app].
  all: eexists _, _; split; [reflexivity|]; split; reflexivity.
Qed.

(** An assignment line for [n], under the two expressions for [n]. *)
Lemma extract_hit k n v t :
  valid_name n = true -> valid_value v = true ->
  exec (body (extract_pattern (shell_name k) n)) (assignment k n v ++ t)
       None None = Some (t, Some v).
Proof.
  intros Hn Hv. rewrite body_extract, assignment_parts, <- !app_assoc.
  rewrite exec_keyword_name, exec_lits by assumption.
  apply exec_extract_tail, Hv.
Qed.

Lemma remove_hit k n v t :
  valid_name n = true -> valid_value v = true -> line_end t = true ->
  exec (body (remove_pattern (shell_name k) n)) (assignment k n v ++ t)
       None None = Some (t, None).
Proof.
  intros Hn Hv Ht. rewrite body_remove, assignment_parts, <- !app_assoc.
  rewrite exec_keyword_name, exec_lits by assumption.
  apply exec_remove_tail; assumption.
Qed.

(** An assignment line for another name. *)
Lemma pattern_miss_other k n n' v t r :
  valid_name n = true -> valid_name n' = true -> n <> n' ->
  stops_on_word r ->
  exec (Star is_space :: keyword_items k ++ lits n ++ r)
       (assignment k n' v ++ t) None None = None.
Proof.
  intros Hn Hn' Hne Hr. rewrite assignment_parts, <- !app_assoc.
  rewrite exec_keyword_name by assumption.
  destruct (value_text_head k v) as (x & s & -> & Hx & _). cbn [app].
  apply exec_name_other; auto using valid_name_words.
Qed.

(** A text that, after white space, ends or shows a number sign. *)
Lemma pattern_miss_dead k n r s :
  after_space s = None \/ after_space s = Some 35 ->
  exec (Star is_space :: keyword_items k ++ lits n ++ r) s None None = None.
Proof.
  unfold after_space. intros H.
  destruct k; numerals; cbn [app lits map].
  all: rewrite exec_star_lit by reflexivity.
  all: destruct (drop (run_len is_space s) s) as [|c u];
       [reflexivity|].
  all: destruct H as [H|H]; [discriminate|].
  all: injection H as ->; reflexivity.
Qed.

End Patterns.

(** ** Searching and replacing line by line *)

Section Walk.
Variable re : regex.
Hypothesis re_anchored : anchored re = true.
Implicit Types (L s t u : jsstring) (prev : option N).

Lemma attempt_bol prev s :
  at_bol prev = true -> attempt re prev s = exec (body re) s None None.
Proof. intros H. unfold attempt. rewrite re_anchored, H. reflexivity. Qed.

Lemma attempt_mid prev s : at_bol prev = false -> attempt re prev s = None.
Proof. intros H. unfold attempt. rewrite re_anchored, H. reflexivity. Qed.

Lemma attempt_none prev s :
  exec (body re) s None None = None -> attempt re prev s = None.
Proof.
  intros H. unfold attempt. destruct (anchored re && negb (at_bol prev));
    [reflexivity|assumption].
Qed.

Lemma dot_mid c : is_dot c = true -> at_bol (Some c) = false.
Proof. unfold is_dot. simpl. intros H. apply negb_true_iff, H. Qed.

Lemma find_inside L t prev :
  forallb is_dot L = true -> at_bol prev = false ->
  find re prev (L ++ 10 :: t) =
  (fun '(pre, rest, cap) => (L ++ 10 :: pre, rest, cap)) <$>
    find re (Some 10) t.
Proof.
  revert prev. induction L as [|c L IH]; intros prev HL Hprev.
  - cbn [app find]. rewrite attempt_mid by assumption.
    destruct (find re (Some 10) t) as [[[pre rest] cap]|]; reflexivity.
  - simpl in HL. apply andb_true_iff in HL as [Hc HL].
    cbn [app find]. rewrite attempt_mid by assumption.
    rewrite IH by (assumption || apply dot_mid, Hc).
    destruct (find re (Some 10) t) as [[[pre rest] cap]|]; reflexivity.
Qed.

Lemma find_line_miss L t prev :
  forallb is_dot L = true ->
  exec (body re) (L ++ 10 :: t) None None = None ->
  find re prev (L ++ 10 :: t) =
  (fun '(pre, rest, cap) => (L ++ 10 :: pre, rest, cap)) <$>
    find re (Some 10) t.
Proof.
  intros HL Hmiss. destruct L as [|c L].
  - cbn [app find] in *. rewrite attempt_none by assumption.
    destruct (find re (Some 10) t) as [[[pre rest] cap]|]; reflexivity.
  - simpl in HL. apply andb_true_iff in HL as [Hc HL].
    cbn [app find] in *. rewrite attempt_none by assumption.
    rewrite find_inside by (assumption || apply dot_mid, Hc).
    destruct (find re (Some 10) t) as [[[pre rest] cap]|]; reflexivity.
Qed.

Lemma find_line_hit s prev rest cap :
  at_bol prev = true ->
  exec (body re) s None None = Some (rest, cap) ->
  find re prev s = Some ([], rest, cap).
Proof.
  intros Hprev Hhit. destruct s; cbn [find];
    rewrite attempt_bol, Hhit by assumption; reflexivity.
Qed.



Lemma replace_inside repl L t prev :
  forallb is_dot L = true -> at_bol prev = false ->
  replace_go re repl prev (L ++ 10 :: t) 0 =
  L ++ 10 :: replace_go re repl (Some 10) t 0.
Proof.
  revert prev. induction L as [|c L IH]; intros prev HL Hprev.
  - cbn [app replace_go]. rewrite attempt_mid by assumption. reflexivity.
  - simpl in HL. apply andb_true_iff in HL as [Hc HL].
    cbn [app replace_go]. rewrite attempt_mid by assumption.
    rewrite IH by (assumption || apply dot_mid, Hc). reflexivity.
Qed.

Lemma replace_line_miss repl L t prev :
  forallb is_dot L = true ->
  exec (body re) (L ++ 10 :: t) None None = None ->
  replace_go re repl prev (L ++ 10 :: t) 0 =
  L ++ 10 :: replace_go re repl (Some 10) t 0.
Proof.
  intros HL Hmiss. destruct L as [|c L].
  - cbn [app replace_go] in *. rewrite attempt_none by assumption. reflexivity.
  - simpl in HL. apply andb_true_iff in HL as [Hc HL].
    cbn [app replace_go] in *. rewrite attempt_none by assumption.
    rewrite replace_inside by (assumption || apply dot_mid, Hc). reflexivity.
Qed.

(** Dropping the rest of a match. *)
Lemma replace_skip repl c u t prev :
  exists p, In p (c :: u) /\
    replace_go re repl prev ((c :: u) ++ t) (length (c :: u)) =
    replace_go re repl (Some p) t 0.
Proof.
  revert c prev. induction u as [|d u IH]; intros c prev.
  - exists c. split; [left; reflexivity|]. destruct t; reflexivity.
  - destruct (IH d (Some c)) as (p & Hp & Heq).
    exists p. split; [right; exact Hp|]. exact Heq.
Qed.

Lemma replace_line_hit repl L t prev cap :
  at_bol prev = true -> L <> [] -> forallb is_dot L = true ->
  exec (body re) (L ++ 10 :: t) None None = Some (10 :: t, cap) ->
  replace_go re repl prev (L ++ 10 :: t) 0 =
  repl ++ 10 :: replace_go re repl (Some 10) t 0.
Proof.
  intros Hprev HL Hdots Hhit. destruct L as [|c L]; [congruence|].
  cbn [app replace_go]. change (c :: L ++ 10 :: t) with ((c :: L) ++ 10 :: t).
  rewrite attempt_bol, Hhit by assumption.
  replace (length ((c :: L) ++ 10%N :: t) - length (10%N :: t))%nat
    with (S (length L)) by (rewrite length_app; simpl; lia).
  f_equal. destruct L as [|d L].
  - cbn [app length replace_go]. rewrite attempt_mid; [reflexivity|].
    apply dot_mid. simpl in Hdots. apply andb_true_iff in Hdots as [Hc _].
    exact Hc.
  - destruct (replace_skip repl d L (10 :: t) (Some c)) as (p & Hp & Heq).
    rewrite Heq. cbn [replace_go]. rewrite attempt_mid; [reflexivity|].
    apply dot_mid. rewrite forallb_forall in Hdots. apply Hdots.
    right. exact Hp.
Qed.

End Walk.

(** ** The two expressions on a file kept by the tool *)

Section Render.
Import ConfigFileManager.
Implicit Types (k : shell_kind) (n v s t : jsstring) (l : line)
               (ls : list line) (prev : option N).

Lemma render_app k ls ls' : render k (ls ++ ls') = render k ls ++ render k ls'.
Proof.
  induction ls as [|l ls IH]; [reflexivity|].
  cbn [app render]. rewrite IH, <- app_assoc. reflexivity.
Qed.

Lemma keyword_text_dots k : forallb is_dot (keyword_text k) = true.
Proof. destruct k; reflexivity. Qed.

Lemma value_text_dots k v :
  forallb is_dot v = true -> forallb is_dot (value_text k v) = true.
Proof.
  intros Hv. destruct k; cbn [value_text];
    rewrite forallb_app; cbn [forallb]; rewrite forallb_app, Hv; reflexivity.
Qed.

Lemma line_text_dots k l :
  line_ok l = true -> forallb is_dot (line_text k l) = true.
Proof.
  destruct l as [|c|n v]; cbn [line_ok line_text]; intros H.
  - reflexivity.
  - rewrite forallb_app, (valid_comment_dots c H). reflexivity.
  - apply andb_true_iff in H as [Hn Hv].
    rewrite assignment_parts, !forallb_app, keyword_text_dots.
    rewrite (forallb_impl is_word_char is_dot n word_is_dot)
      by apply valid_name_words, Hn.
    rewrite value_text_dots; [reflexivity|].
    eapply forallb_impl; [apply plain_is_dot|apply valid_value_plain, Hv].
Qed.

Lemma value_text_utf8 k v :
  utf8_text v = v -> utf8_text (value_text k v) = value_text k v.
Proof.
  intros Hv.
  assert (utf8_text (34 :: v ++ [34]) = 34 :: v ++ [34]) as Hq.
  { apply (utf8_text_app [34]); [reflexivity|].
    apply utf8_text_app; [assumption|reflexivity]. }
  destruct k; cbn [value_text]; apply utf8_text_app;
    (reflexivity || assumption).
Qed.

Lemma line_text_utf8 k l :
  line_ok l = true -> utf8_text (line_text k l) = line_text k l.
Proof.
  destruct l as [|c|n v]; cbn [line_ok line_text]; intros H.
  - reflexivity.
  - apply utf8_text_app; [reflexivity|apply valid_comment_text, H].
  - apply andb_true_iff in H as [Hn Hv]. rewrite assignment_parts.
    apply utf8_text_app; [destruct k; reflexivity|].
    apply utf8_text_app; [apply utf8_text_words, valid_name_words, Hn|].
    apply value_text_utf8, valid_value_text, Hv.
Qed.

(** A file kept by the tool reaches the disk as it is. *)
Lemma render_utf8 k ls :
  tidy ls = true -> utf8_text (render k ls) = render k ls.
Proof.
  induction ls as [|l ls IH]; intros H; [reflexivity|].
  cbn [tidy] in H. apply andb_true_iff in H as [H Hls].
  apply andb_true_iff in H as [Hok _].
  cbn [render]. apply utf8_text_app; [apply line_text_utf8, Hok|].
  apply (utf8_text_app [10]); [reflexivity|apply IH, Hls].
Qed.

Lemma assignment_not_empty k n v : assignment k n v <> [].
Proof. rewrite assignment_parts. destruct k; discriminate. Qed.

Lemma tidy_cons l ls :
  tidy (l :: ls) = true ->
  line_ok l = true /\ tidy ls = true /\
  (l = Blank -> forall n v ls', ls <> Assign n v :: ls').
Proof.
  cbn [tidy]. intros H. apply andb_true_iff in H as [H Hls].
  apply andb_true_iff in H as [Hl Hadj]. repeat split; try assumption.
  intros -> n v ls' ->. discriminate.
Qed.

Lemma after_space_feed s : after_space (10 :: s) = after_space s.
Proof. reflexivity. Qed.

Lemma blank_ahead k ls :
  tidy (Blank :: ls) = true ->
  after_space (render k ls) = None \/ after_space (render k ls) = Some 35.
Proof.
  induction ls as [|l ls IH]; intros H; [left; reflexivity|].
  apply tidy_cons in H as (_ & Hls & Hadj).
  destruct l as [|c|n v].
  - cbn [render line_text app]. rewrite after_space_feed. apply IH, Hls.
  - right. reflexivity.
  - exfalso. eapply Hadj; reflexivity.
Qed.

Lemma assigns_false n l :
  assigns n l = false ->
  match l with Assign n' _ => n <> n' | _ => True end.
Proof.
  destruct l as [|c|n' v]; cbn [assigns]; try (intros _; exact I).
  unfold str_eqb. intros H%bool_decide_eq_false. congruence.
Qed.

Lemma assigns_true n l :
  assigns n l = true -> exists v, l = Assign n v.
Proof.
  destruct l as [|c|n' v]; cbn [assigns]; try discriminate.
  unfold str_eqb. intros H%bool_decide_eq_true. subst. eauto.
Qed.

(** A line that is not an assignment for [n] starts no match. *)
Lemma line_miss k n r l ls :
  valid_name n = true -> stops_on_word r ->
  tidy (l :: ls) = true -> assigns n l = false ->
  exec (Star is_space :: keyword_items k ++ lits n ++ r)
       (render k (l :: ls)) None None = None.
Proof.
  intros Hn Hr Htidy Hl. pose proof (tidy_cons _ _ Htidy) as (Hok & _ & _).
  destruct l as [|c|n' v]; cbn [render line_text].
  - apply pattern_miss_dead. cbn [app]. rewrite after_space_feed.
    apply blank_ahead, Htidy.
  - apply pattern_miss_dead. right. reflexivity.
  - apply assigns_false in Hl. cbn [line_ok] in Hok.
    apply andb_true_iff in Hok as [Hn' _].
    apply pattern_miss_other; assumption.
Qed.

(** The search of the extraction expression stops at the first
    assignment line for the name. *)
Lemma find_render k n ls prev :
  valid_name n = true -> tidy ls = true -> at_bol prev = true ->
  (fun '(_, _, cap) => cap) <$>
    find (extract_pattern (shell_name k) n) prev (render k ls) =
  Some <$> first_value n ls.
Proof.
  intros Hn. revert prev. induction ls as [|l ls IH]; intros prev Htidy Hprev.
  - cbn [render find]. rewrite attempt_bol
      by (assumption || apply anchored_extract).
    rewrite body_extract. rewrite pattern_miss_dead by (left; reflexivity).
    reflexivity.
  - pose proof (tidy_cons _ _ Htidy) as (Hok & Hls & _).
    destruct (assigns n l) eqn:Hl.
    + apply assigns_true in Hl as [v ->]. cbn [line_ok] in Hok.
      apply andb_true_iff in Hok as [_ Hv].
      cbn [render line_text first_value].
      unfold str_eqb. rewrite bool_decide_eq_true_2 by reflexivity.
      erewrite find_line_hit;
        [reflexivity|apply anchored_extract|assumption|].
      apply extract_hit; assumption.
    + assert (first_value n (l :: ls) = first_value n ls) as ->.
      { destruct l as [|c|n' v]; try reflexivity.
        cbn [assigns] in Hl. cbn [first_value]. rewrite Hl. reflexivity. }
      cbn [render]. rewrite find_line_miss.
      * rewrite <- IH with (prev := Some 10) by (assumption || reflexivity).
        destruct (find _ (Some 10) (render k ls)) as [[[pre rest] cap]|];
          reflexivity.
      * apply anchored_extract.
      * apply line_text_dots, Hok.
      * rewrite body_extract.
        apply (line_miss k n _ l ls);
          auto using extract_tail_stops.
Qed.

Lemma extract_render k n ls :
  valid_name n = true -> tidy ls = true ->
  extractEnvVariable (render k ls) n (shell_name k) = first_value n ls.
Proof.
  intros Hn Htidy. unfold extractEnvVariable, match_group1.
  pose proof (find_render k n ls None Hn Htidy eq_refl) as H.
  destruct (find _ None (render k ls)) as [[[pre rest] cap]|];
    destruct (first_value n ls) as [v|]; cbn in H; try discriminate.
  - injection H as ->. reflexivity.
  - reflexivity.
Qed.

(** The replacement by the removal expression empties every assignment
    line for the name and nothing else. *)
Lemma remove_render k n ls prev :
  valid_name n = true -> tidy ls = true -> at_bol prev = true ->
  replace_go (remove_pattern (shell_name k) n) [] prev (render k ls) 0 =
  render k (blank_out n ls).
Proof.
  intros Hn. revert prev. induction ls as [|l ls IH]; intros prev Htidy Hprev.
  - cbn [render replace_go blank_out map].
    destruct (attempt _ prev []); reflexivity.
  - pose proof (tidy_cons _ _ Htidy) as (Hok & Hls & _).
    cbn [blank_out map render]. fold (blank_out n ls).
    destruct (assigns n l) eqn:Hl.
    + apply assigns_true in Hl as [v ->]. cbn [line_ok] in Hok.
      apply andb_true_iff in Hok as [_ Hv]. cbn [line_text].
      rewrite (replace_line_hit _ (anchored_remove k n) [] _ _ prev None).
      * rewrite IH by (assumption || reflexivity). reflexivity.
      * assumption.
      * apply assignment_not_empty.
      * apply (line_text_dots k (Assign n v)). cbn [line_ok].
        rewrite Hn, Hv. reflexivity.
      * apply remove_hit; (assumption || reflexivity).
    + rewrite replace_line_miss.
      * rewrite IH by (assumption || reflexivity). reflexivity.
      * apply anchored_remove.
      * apply line_text_dots, Hok.
      * rewrite body_remove.
        apply (line_miss k n _ l ls); auto using remove_tail_stops.
Qed.

End Render.

(** ** The clean-up of blank lines *)

Section Cleanup.
Import ConfigFileManager.
Implicit Types (k : shell_kind) (s t u : jsstring) (l : line)
               (ls : list line) (prev : option N) (j : nat).

Lemma attempt_blank prev s :
  attempt blank_lines prev s = exec (body blank_lines) s None None.
Proof. reflexivity. Qed.

Lemma exec_feed_stop t gs cap :
  run_len is_space t = 0%nat -> exec [Lit 10] t gs cap = None.
Proof.
  destruct t as [|c t]; [reflexivity|]. simpl.
  destruct (N.eqb_spec c 10) as [->|Hc]; [discriminate|reflexivity].
Qed.

Lemma exec_space_feed_stop t gs cap :
  run_len is_space t = 0%nat -> exec [Star is_space; Lit 10] t gs cap = None.
Proof.
  intros Ht. rewrite exec_star, Ht, try_down_zero, drop_0.
  apply exec_feed_stop, Ht.
Qed.

Lemma exec_space_feed_one t gs cap :
  run_len is_space t = 0%nat ->
  exec [Star is_space; Lit 10] (10 :: t) gs cap = Some (t, cap).
Proof.
  intros Ht. rewrite exec_star.
  assert (run_len is_space (10 :: t) = 1%nat) as ->
    by (simpl; rewrite Ht; reflexivity).
  apply (try_down_step _ 0 1 1); [lia| |].
  - intros i Hi. assert (i = 1%nat) as -> by lia.
    cbn [drop]. rewrite ?drop_0. apply exec_feed_stop, Ht.
  - cbn [Nat.sub drop]. rewrite exec_lit_hit. reflexivity.
Qed.

Lemma run_len_feeds j t :
  run_len is_space t = 0%nat ->
  run_len is_space (replicate j 10 ++ t) = j.
Proof.
  intros Ht. rewrite run_len_app, Ht by (induction j; [reflexivity|assumption]).
  rewrite length_replicate. lia.
Qed.

Lemma drop_feeds i j t :
  (i <= j)%nat -> drop i (replicate j 10 ++ t) = replicate (j - i) 10 ++ t.
Proof.
  intros Hi. rewrite drop_app_le by (rewrite length_replicate; lia).
  rewrite drop_replicate. reflexivity.
Qed.

(** The expression at a line feed followed by [j] more and then by a
    text that does not start with white space. *)
Lemma exec_blank_run j t :
  run_len is_space t = 0%nat ->
  exec (body blank_lines) (10 :: replicate j 10 ++ t) None None =
  if (2 <=? j)%nat then Some (t, None) else None.
Proof.
  intros Ht. cbn [body blank_lines]. rewrite exec_lit_hit, exec_star.
  rewrite run_len_feeds by assumption.
  destruct (Nat.leb_spec 2 j) as [Hj|Hj].
  - apply (try_down_step _ 0 j 2); [lia| |].
    + intros i Hi. rewrite drop_feeds by lia.
      assert (i = j \/ i = (j - 1)%nat) as [->| ->] by lia.
      * rewrite Nat.sub_diag. cbn [replicate app].
        destruct t as [|c t]; [reflexivity|].
        apply exec_lit_miss. intros ->. discriminate.
      * replace (j - (j - 1))%nat with 1%nat by lia. cbn [replicate app].
        rewrite exec_lit_hit. apply exec_space_feed_stop, Ht.
    + rewrite drop_feeds by lia.
      replace (j - (j - 2))%nat with 2%nat by lia. cbn [replicate app].
      rewrite exec_lit_hit. apply exec_space_feed_one, Ht.
  - apply try_down_none. intros i Hi. rewrite drop_feeds by lia.
    destruct (j - i)%nat as [|[|m]] eqn:Hm; [| |lia]; cbn [replicate app].
    + destruct t as [|c t]; [reflexivity|].
      apply exec_lit_miss. intros ->. discriminate.
    + rewrite exec_lit_hit. apply exec_space_feed_stop, Ht.
Qed.

Lemma replace_prev (re : regex) repl prev prev' s j :
  anchored re = false ->
  replace_go re repl prev s j = replace_go re repl prev' s j.
Proof.
  intros Hre. revert prev prev' j.
  induction s as [|c s IH]; intros prev prev' j.
  - destruct j; [|reflexivity]. cbn [replace_go]. unfold attempt.
    rewrite Hre. reflexivity.
  - destruct j; cbn [replace_go]; [|reflexivity].
    unfold attempt. rewrite Hre. reflexivity.
Qed.

Lemma replace_copy repl u t prev :
  forallb is_dot u = true ->
  replace_go blank_lines repl prev (u ++ t) 0 =
  u ++ replace_go blank_lines repl prev t 0.
Proof.
  revert prev. induction u as [|c u IH]; intros prev Hu; [reflexivity|].
  simpl in Hu. apply andb_true_iff in Hu as [Hc Hu].
  cbn [app replace_go]. rewrite attempt_blank.
  change (c :: u ++ t) with ((c :: u) ++ t).
  cbn [body blank_lines app]. rewrite exec_lit_miss by (apply dot_not_feed, Hc).
  rewrite IH by assumption.
  rewrite (replace_prev blank_lines repl (Some c) prev) by reflexivity.
  reflexivity.
Qed.

Lemma replace_feeds_hit repl j t prev :
  run_len is_space t = 0%nat -> (2 <= j)%nat ->
  replace_go blank_lines repl prev (10 :: replicate j 10 ++ t) 0 =
  repl ++ replace_go blank_lines repl prev t 0.
Proof.
  intros Ht Hj. cbn [replace_go]. rewrite attempt_blank, exec_blank_run
    by assumption.
  assert ((2 <=? j)%nat = true) as -> by (apply Nat.leb_le; lia).
  replace (length (10%N :: replicate j 10%N ++ t) - length t)%nat with (S j)
    by (cbn [length]; rewrite length_app, length_replicate; lia).
  f_equal. destruct j as [|j]; [lia|].
  destruct (replace_skip blank_lines repl 10 (replicate j 10) t (Some 10))
    as (p & _ & Heq).
  cbn [replicate app]. cbn [length] in Heq. rewrite length_replicate in Heq.
  cbn [app] in Heq. rewrite Heq.
  apply replace_prev. reflexivity.
Qed.

Lemma replace_feeds_miss repl j t prev :
  run_len is_space t = 0%nat -> (j < 2)%nat ->
  replace_go blank_lines repl prev (10 :: replicate j 10 ++ t) 0 =
  10 :: replace_go blank_lines repl prev (replicate j 10 ++ t) 0.
Proof.
  intros Ht Hj. cbn [replace_go]. rewrite attempt_blank, exec_blank_run
    by assumption.
  assert ((2 <=? j)%nat = false) as -> by (apply Nat.leb_gt; lia).
  f_equal. apply replace_prev. reflexivity.
Qed.

End Cleanup.

Section CleanupLines.
Import ConfigFileManager.
Implicit Types (k : shell_kind) (n v s t u : jsstring) (l : line)
               (ls : list line) (prev : option N) (j : nat).

Lemma render_blanks k j ls :
  render k (replicate j Blank ++ ls) = replicate j 10 ++ render k ls.
Proof.
  induction j as [|j IH]; [reflexivity|].
  cbn [replicate app render line_text]. rewrite IH. reflexivity.
Qed.

Lemma split_blanks ls :
  exists j ls1, ls = replicate j Blank ++ ls1 /\
                match ls1 with Blank :: _ => False | _ => True end.
Proof.
  induction ls as [|l ls (j & ls1 & -> & H)].
  - exists 0%nat, []. split; [reflexivity|exact I].
  - destruct l as [|c|n v].
    + exists (S j), ls1. split; [reflexivity|exact H].
    + exists 0%nat, (Note c :: replicate j Blank ++ ls1).
      split; [reflexivity|exact I].
    + exists 0%nat, (Assign n v :: replicate j Blank ++ ls1).
      split; [reflexivity|exact I].
Qed.

Lemma render_start k ls :
  match ls with Blank :: _ => False | _ => True end ->
  run_len is_space (render k ls) = 0%nat.
Proof.
  destruct ls as [|[|c|n v] ls]; intros H; [reflexivity|contradiction| |].
  - reflexivity.
  - cbn [render line_text]. rewrite assignment_parts.
    destruct k; numerals; reflexivity.
Qed.

Lemma shorter_refl ls : shorter ls ls.
Proof. induction ls; constructor; assumption. Qed.

Lemma shorter_blanks j ls' ls :
  shorter ls' ls -> shorter ls' (replicate j Blank ++ ls).
Proof.
  intros H. induction j as [|j IH]; [exact H|].
  cbn [replicate app]. constructor. exact IH.
Qed.

Lemma tidy_app_r ls1 ls2 : tidy (ls1 ++ ls2) = true -> tidy ls2 = true.
Proof.
  induction ls1 as [|l ls1 IH]; [trivial|].
  cbn [app]. intros H. apply tidy_cons in H as (_ & H & _). apply IH, H.
Qed.

(** The clean-up only takes blank lines out. *)
Lemma cleanup_lines k m ls prev :
  (length ls <= m)%nat -> tidy ls = true ->
  exists ls',
    replace_go blank_lines [10; 10] prev (render k ls) 0 = render k ls' /\
    shorter ls' ls.
Proof.
  revert ls prev. induction m as [|m IH]; intros ls prev Hlen Htidy.
  - destruct ls; [|simpl in Hlen; lia]. exists []. split; [reflexivity|constructor].
  - destruct ls as [|l ls0]; [exists []; split; [reflexivity|constructor]|].
    pose proof (tidy_cons _ _ Htidy) as (Hok & Htidy0 & _).
    destruct (split_blanks ls0) as (j & ls1 & -> & Hhead).
    pose proof (render_start k ls1 Hhead) as Hstart.
    pose proof (tidy_app_r _ _ Htidy0) as Htidy1.
    cbn [length] in Hlen. rewrite length_app, length_replicate in Hlen.
    cbn [render]. rewrite replace_copy by apply line_text_dots, Hok.
    rewrite render_blanks.
    destruct (Nat.le_gt_cases 2 j) as [Hj|Hj].
    + rewrite replace_feeds_hit by assumption.
      destruct (IH ls1 prev) as (ls1' & Heq & Hsh); [lia|assumption|].
      exists (l :: Blank :: ls1'). split.
      * cbn [render line_text app]. rewrite Heq. reflexivity.
      * constructor. destruct j as [|j]; [lia|].
        cbn [replicate app]. constructor. apply shorter_blanks, Hsh.
    + rewrite replace_feeds_miss by assumption.
      rewrite <- render_blanks.
      destruct (IH (replicate j Blank ++ ls1) prev) as (ls0' & Heq & Hsh);
        [rewrite length_app, length_replicate; lia|assumption|].
      exists (l :: ls0'). split.
      * cbn [render]. rewrite Heq. reflexivity.
      * constructor. exact Hsh.
Qed.

End CleanupLines.

(** ** The shape of the file is kept *)

Section Invariant.
Import ConfigFileManager.
Implicit Types (k : shell_kind) (n m v c s t : jsstring) (l : line)
               (ls : list line) (b : bool).

Lemma kept_tidy b ls : kept_from b ls = true -> tidy ls = true.
Proof.
  revert b. induction ls as [|l ls IH]; intros b H; [reflexivity|].
  cbn [kept_from] in H. apply andb_true_iff in H as [H Hls].
  apply andb_true_iff in H as [Hok Hnoted].
  cbn [tidy]. rewrite Hok, (IH _ Hls), andb_true_r. cbn [andb].
  destruct l as [|c|n v]; try reflexivity.
  destruct ls as [|[|c|n v] ls]; try reflexivity.
  cbn in Hls. rewrite andb_false_r in Hls. discriminate.
Qed.

Lemma kept_weaken b ls : kept_from false ls = true -> kept_from b ls = true.
Proof.
  destruct ls as [|l ls]; [reflexivity|]. cbn [kept_from].
  destruct (is_assign l); [|trivial].
  rewrite andb_false_r. discriminate.
Qed.

Lemma kept_blank_out n b ls :
  kept_from b ls = true -> kept_from b (blank_out n ls) = true.
Proof.
  revert b. induction ls as [|l ls IH]; intros b H; [reflexivity|].
  cbn [kept_from] in H. apply andb_true_iff in H as [H Hls].
  apply andb_true_iff in H as [Hok Hnoted].
  cbn [blank_out map]. fold (blank_out n ls).
  destruct (assigns n l) eqn:Hl.
  - apply assigns_true in Hl as [v ->]. cbn [kept_from line_ok is_assign is_note andb].
    apply IH. exact Hls.
  - cbn [kept_from]. rewrite Hok, Hnoted. cbn [andb]. apply IH, Hls.
Qed.

Lemma kept_shorter ls' ls :
  shorter ls' ls -> forall b, kept_from b ls = true -> kept_from b ls' = true.
Proof.
  induction 1 as [|l ls' ls Hsh IH|ls' ls Hsh IH]; intros b H.
  - reflexivity.
  - cbn [kept_from] in *. apply andb_true_iff in H as [H Hls].
    rewrite H. cbn [andb]. apply IH, Hls.
  - cbn [kept_from line_ok is_assign is_note andb] in H.
    apply kept_weaken, IH, H.
Qed.

Lemma kept_append n v c b ls :
  valid_comment c = true -> valid_name n = true -> valid_value v = true ->
  kept_from b ls = true ->
  kept_from b (ls ++ [Blank; Note c; Assign n v]) = true.
Proof.
  intros Hc Hn Hv. revert b. induction ls as [|l ls IH]; intros b H.
  - cbn. rewrite Hc, Hn, Hv. reflexivity.
  - cbn [kept_from app] in *. apply andb_true_iff in H as [H Hls].
    rewrite H. cbn [andb]. apply IH, Hls.
Qed.

Lemma values_blank_out_same n ls : values_of n (blank_out n ls) = [].
Proof.
  induction ls as [|l ls IH]; [reflexivity|].
  cbn [blank_out map]. fold (blank_out n ls).
  destruct (assigns n l) eqn:Hl; [exact IH|].
  destruct l as [|c|n' v]; cbn [values_of]; try exact IH.
  cbn [assigns] in Hl. rewrite Hl. exact IH.
Qed.

Lemma values_blank_out_other n m ls :
  m <> n -> values_of m (blank_out n ls) = values_of m ls.
Proof.
  intros Hne. induction ls as [|l ls IH]; [reflexivity|].
  cbn [blank_out map]. fold (blank_out n ls).
  destruct (assigns n l) eqn:Hl.
  - apply assigns_true in Hl as [v ->]. cbn [values_of].
    unfold str_eqb. rewrite bool_decide_eq_false_2 by congruence. exact IH.
  - destruct l as [|c|n' v]; cbn [values_of]; rewrite IH; reflexivity.
Qed.

Lemma values_shorter m ls' ls :
  shorter ls' ls -> values_of m ls' = values_of m ls.
Proof.
  induction 1 as [|l ls' ls Hsh IH|ls' ls Hsh IH]; [reflexivity| |exact IH].
  destruct l as [|c|n v]; cbn [values_of]; rewrite IH; reflexivity.
Qed.

Lemma values_app m ls ls' :
  values_of m (ls ++ ls') = values_of m ls ++ values_of m ls'.
Proof.
  induction ls as [|l ls IH]; [reflexivity|].
  destruct l as [|c|n v]; cbn [values_of app]; try exact IH.
  destruct (str_eqb n m); [cbn [app]; rewrite IH; reflexivity|exact IH].
Qed.

Lemma first_value_head n ls : first_value n ls = head (values_of n ls).
Proof.
  induction ls as [|l ls IH]; [reflexivity|].
  destruct l as [|c|n' v]; cbn [first_value values_of]; try exact IH.
  destruct (str_eqb n' n); [reflexivity|exact IH].
Qed.

Lemma values_valid n b ls v :
  kept_from b ls = true -> In v (values_of n ls) -> valid_value v = true.
Proof.
  revert b. induction ls as [|l ls IH]; intros b H Hin; [contradiction|].
  cbn [kept_from] in H. apply andb_true_iff in H as [H Hls].
  apply andb_true_iff in H as [Hok _].
  destruct l as [|c|n' v']; cbn [values_of] in Hin; eauto.
  destruct (str_eqb n' n); eauto.
  destruct Hin as [<-|Hin]; eauto.
  cbn [line_ok] in Hok. apply andb_true_iff in Hok as [_ Hv]. exact Hv.
Qed.

Lemma valid_value_truthy v : valid_value v = true -> str_truthy v = true.
Proof. destruct v; [discriminate|reflexivity]. Qed.

Lemma render_last k ls : ls <> [] -> endsWith1 (render k ls) 10 = true.
Proof.
  unfold endsWith1. induction ls as [|l ls IH]; [congruence|]. intros _.
  cbn [render]. destruct ls as [|l' ls].
  - cbn [render]. rewrite last_snoc. reflexivity.
  - rewrite last_app_cons, last_cons.
    specialize (IH ltac:(discriminate)).
    destruct (last (render k (l' :: ls))); [exact IH|discriminate].
Qed.

Lemma newContent_render k ls c n v :
  newContent (render k ls) c (assignment k n v) =
  render k (ls ++ [Blank; Note c; Assign n v]).
Proof.
  unfold newContent. rewrite render_app. f_equal.
  assert ((str_truthy (render k ls) && negb (endsWith1 (render k ls) 10))
          = false) as ->.
  { destruct ls as [|l ls]; [reflexivity|].
    rewrite render_last by discriminate. apply andb_false_r. }
  cbn [render line_text app]. rewrite <- !app_assoc. reflexivity.
Qed.

(** The text [writeEnvVariable] hands to the file system, when the file
    is kept by the tool: what was there without the assignment lines for
    the name, a few blank lines fewer, and the new block at the end. *)
Lemma written_text k n v c ls :
  valid_name n = true -> valid_value v = true -> valid_comment c = true ->
  kept_lines ls = true ->
  exists ls1,
    newContent
      (if opt_truthy (extractEnvVariable (render k ls) n (shell_name k))
       then removeEnvVariable_content (render k ls) n (shell_name k)
       else render k ls) c (assignment k n v)
    = render k (ls1 ++ [Blank; Note c; Assign n v]) /\
    kept_lines (ls1 ++ [Blank; Note c; Assign n v]) = true /\
    values_of n ls1 = [] /\
    (forall m, m <> n -> values_of m ls1 = values_of m ls).
Proof.
  intros Hn Hv Hc Hkept. pose proof (kept_tidy _ _ Hkept) as Htidy.
  rewrite extract_render, first_value_head by assumption.
  destruct (values_of n ls) as [|v0 vs] eqn:Hvals.
  - exists ls. cbn [head opt_truthy]. rewrite newContent_render.
    repeat split; auto. apply kept_append; assumption.
  - cbn [head opt_truthy].
    rewrite valid_value_truthy
      by (apply (values_valid n false ls); [assumption|rewrite Hvals; left; reflexivity]).
    unfold removeEnvVariable_content, replace_all.
    rewrite remove_render by (assumption || reflexivity).
    destruct (cleanup_lines k (length (blank_out n ls)) (blank_out n ls) None)
      as (ls1 & Heq & Hsh);
      [lia|apply (kept_tidy false), kept_blank_out, Hkept|].
    exists ls1. rewrite Heq, newContent_render. repeat split.
    + apply kept_append; try assumption.
      apply (kept_shorter _ _ Hsh), kept_blank_out, Hkept.
    + rewrite (values_shorter _ _ _ Hsh). apply values_blank_out_same.
    + intros m Hm. rewrite (values_shorter _ _ _ Hsh).
      apply values_blank_out_other, Hm.
Qed.

End Invariant.

(** ** Writing and reading in a world *)

Section World.
Import ConfigFileManager.
Implicit Types (k : shell_kind) (n m v c s t p dir : jsstring) (l : line)
               (ls : list line) (w : world) (fs : list jsstring).

Lemma or_detect_name k w : ShellDetector.or_detect (shell_name k) w = shell_name k.
Proof. destruct k; reflexivity. Qed.

Lemma supports_name k w :
  ShellDetector.supportsEnvPersistence (shell_name k) w = true.
Proof.
  unfold ShellDetector.supportsEnvPersistence. rewrite or_detect_name.
  destruct k; reflexivity.
Qed.

Lemma possibleFiles_name k :
  exists f fs, ShellDetector.possibleFiles (shell_name k) = f :: fs.
Proof. destruct k; eexists _, _; reflexivity. Qed.

Lemma writeFileSync_ok p text w :
  p ∉ unwritable w ->
  writeFileSync p text w = Some (with_file p (utf8_text text) w).
Proof.
  intros H. unfold writeFileSync. rewrite bool_decide_eq_false_2 by assumption.
  reflexivity.
Qed.

Lemma existsSync_with_same p text w : existsSync p (with_file p text w) = true.
Proof.
  unfold existsSync, with_file. cbn [files]. apply bool_decide_eq_true_2.
  rewrite lookup_insert_eq. eauto.
Qed.

Lemma existsSync_with_other p q text w :
  p <> q -> existsSync q (with_file p text w) = existsSync q w.
Proof.
  intros H. unfold existsSync, with_file. cbn [files].
  rewrite lookup_insert_ne by assumption. reflexivity.
Qed.

Lemma first_existing_some dir fs w p :
  ShellDetector.first_existing dir fs w = Some p -> existsSync p w = true.
Proof.
  induction fs as [|f fs IH]; cbn [ShellDetector.first_existing];
    [discriminate|].
  destruct (existsSync (path_join dir f) w) eqn:Hf; [|exact IH].
  intros [= <-]. exact Hf.
Qed.

Lemma first_existing_with dir fs w p text :
  ShellDetector.first_existing dir fs w = Some p ->
  ShellDetector.first_existing dir fs (with_file p text w) = Some p.
Proof.
  induction fs as [|f fs IH]; cbn [ShellDetector.first_existing];
    [discriminate|].
  destruct (existsSync (path_join dir f) w) eqn:Hf.
  - intros [= <-]. rewrite existsSync_with_same. reflexivity.
  - intros H. pose proof (first_existing_some _ _ _ _ H) as Hp.
    rewrite existsSync_with_other, Hf by congruence. apply IH, H.
Qed.

(** The config path of a shell does not move when the file is written. *)
Lemma getShellConfigPath_with k w text :
  let p := ShellDetector.getShellConfigPath (shell_name k) w in
  ShellDetector.getShellConfigPath (shell_name k) (with_file p text w) = p /\
  ShellDetector.first_existing (homedir w)
    (ShellDetector.possibleFiles (shell_name k)) (with_file p text w) = Some p.
Proof.
  unfold ShellDetector.getShellConfigPath. rewrite !or_detect_name.
  cbn [homedir with_file].
  destruct (possibleFiles_name k) as (f & fs & ->).
  destruct (ShellDetector.first_existing (homedir w) (f :: fs) w) as [p|] eqn:H.
  - fold (with_file p text w). rewrite (first_existing_with _ _ _ _ _ H).
    split; reflexivity.
  - cbn [head default]. fold (with_file (path_join (homedir w) f) text w).
    cbn [ShellDetector.first_existing]. rewrite existsSync_with_same.
    split; reflexivity.
Qed.

Lemma detectShell_with p text w :
  ShellDetector.detectShell (with_file p text w) = ShellDetector.detectShell w.
Proof. reflexivity. Qed.

Lemma config_text k w ls :
  config_kept k w ls ->
  default [] (files w !! ShellDetector.getShellConfigPath (shell_name k) w)
  = render k ls.
Proof.
  intros [_ H]. destruct (files w !! _) as [text|]; cbn [default];
    subst; reflexivity.
Qed.

(** One write to a config file kept by the tool. *)
Lemma write_kept k w ls n v o :
  ShellDetector.detectShell w = shell_name k ->
  o_shell o = None -> default true (o_overwrite o) = true ->
  valid_comment (default (default_comment w) (o_comment o)) = true ->
  config_kept k w ls ->
  ShellDetector.getShellConfigPath (shell_name k) w ∉ unwritable w ->
  valid_name n = true -> valid_value v = true ->
  exists ls1 text,
    text = render k (ls1 ++ [Blank;
                             Note (default (default_comment w) (o_comment o));
                             Assign n v]) /\
    writeEnvVariable n v o w =
      (true, with_file (ShellDetector.getShellConfigPath (shell_name k) w)
                       text w) /\
    kept_lines (ls1 ++ [Blank;
                        Note (default (default_comment w) (o_comment o));
                        Assign n v]) = true /\
    values_of n ls1 = [] /\
    (forall m, m <> n -> values_of m ls1 = values_of m ls).
Proof.
  intros Hsh Ho Hover Hc Hkept Hw Hn Hv.
  destruct (written_text k n v _ ls Hn Hv Hc (proj1 Hkept))
    as (ls1 & Htext & Hk1 & Hvals & Hother).
  exists ls1, (render k (ls1 ++ [Blank;
                 Note (default (default_comment w) (o_comment o));
                 Assign n v])).
  split; [reflexivity|]. split; [|auto].
  unfold writeEnvVariable. rewrite Ho. cbn [default]. rewrite Hsh, Hover.
  rewrite supports_name. cbn [negb]. rewrite andb_false_r.
  rewrite (config_text k w ls Hkept).
  unfold ShellDetector.getExportSyntax. rewrite or_detect_name.
  fold (assignment k n v). rewrite Htext.
  rewrite writeFileSync_ok by assumption.
  rewrite render_utf8 by apply (kept_tidy false), Hk1.
  reflexivity.
Qed.

Lemma config_kept_with k w ls text :
  kept_lines ls = true -> text = render k ls ->
  config_kept k
    (with_file (ShellDetector.getShellConfigPath (shell_name k) w) text w) ls.
Proof.
  intros Hk ->. split; [assumption|].
  rewrite (proj1 (getShellConfigPath_with k w _)).
  cbn [files with_file]. rewrite lookup_insert_eq. reflexivity.
Qed.

(** A write leaves the config file kept by the tool. *)
Lemma write_keeps_config k w ls n v o :
  ShellDetector.detectShell w = shell_name k ->
  o_shell o = None -> default true (o_overwrite o) = true ->
  valid_comment (default (default_comment w) (o_comment o)) = true ->
  config_kept k w ls ->
  ShellDetector.getShellConfigPath (shell_name k) w ∉ unwritable w ->
  valid_name n = true -> valid_value v = true ->
  exists ls', config_kept k (snd (writeEnvVariable n v o w)) ls'.
Proof.
  intros Hsh Ho Hover Hc Hkept Hw Hn Hv.
  destruct (write_kept k w ls n v o Hsh Ho Hover Hc Hkept Hw Hn Hv)
    as (ls1 & text & Htext & -> & Hk1 & _).
  eexists. exact (config_kept_with k w _ text Hk1 Htext).
Qed.

Lemma read_paths_first dir fs w p content n sh :
  ShellDetector.first_existing dir fs w = Some p ->
  files w !! p = Some content ->
  opt_truthy (extractEnvVariable content n sh) = true ->
  read_paths (map (path_join dir) fs) n sh w = extractEnvVariable content n sh.
Proof.
  intros Hfirst Hp Hv. induction fs as [|f fs IH]; [discriminate|].
  cbn [ShellDetector.first_existing map read_paths] in *.
  unfold existsSync in Hfirst.
  destruct (files w !! path_join dir f) as [content'|] eqn:Hf.
  - rewrite bool_decide_eq_true_2 in Hfirst by eauto.
    injection Hfirst as <-. rewrite Hf in Hp. injection Hp as ->.
    rewrite Hv. reflexivity.
  - rewrite bool_decide_eq_false_2 in Hfirst by (intros [? ?]; discriminate).
    apply IH, Hfirst.
Qed.

(** Reading from a world whose config file, freshly written, is kept by
    the tool. *)
Lemma read_written k w ls n v :
  ShellDetector.detectShell w = shell_name k ->
  kept_lines ls = true -> valid_name n = true ->
  truthy (getenv w n) = false ->
  first_value n ls = Some v ->
  readEnvVariable n
    (with_file (ShellDetector.getShellConfigPath (shell_name k) w)
               (render k ls) w) = JStr v.
Proof.
  intros Hsh Hk Hn Henv Hfirst. unfold readEnvVariable.
  change (getenv (with_file (ShellDetector.getShellConfigPath (shell_name k) w)
                            (render k ls) w) n) with (getenv w n).
  rewrite Henv.
  fold (with_file (ShellDetector.getShellConfigPath (shell_name k) w)
                  (render k ls) w).
  rewrite detectShell_with, Hsh. unfold ShellDetector.getAllShellConfigPaths.
  rewrite or_detect_name. cbn [homedir with_file].
  fold (with_file (ShellDetector.getShellConfigPath (shell_name k) w)
                  (render k ls) w).
  assert (extractEnvVariable (render k ls) n (shell_name k) = Some v) as Hx
    by (rewrite extract_render by (assumption || apply (kept_tidy false), Hk);
        exact Hfirst).
  rewrite (read_paths_first _ _ _
    (ShellDetector.getShellConfigPath (shell_name k) w) (render k ls)), Hx;
    [reflexivity| | |].
  - apply (getShellConfigPath_with k w (render k ls)).
  - cbn [files with_file]. apply lookup_insert_eq.
  - rewrite Hx. cbn [opt_truthy]. apply valid_value_truthy.
    apply (values_valid n false ls); [assumption|].
    rewrite first_value_head in Hfirst.
    destruct (values_of n ls); [discriminate|].
    injection Hfirst as <-. left. reflexivity.
Qed.

End World.

(** ** The assignment lines of a file *)

Section Count.
Import ConfigFileManager.
Implicit Types (k : shell_kind) (n m v c s t L cur : jsstring) (l : line)
               (ls : list line).

Lemma lines_from_line cur L t :
  forallb is_dot L = true ->
  lines_from cur (L ++ 10 :: t) = (reverse cur ++ L) :: lines_from [] t.
Proof.
  revert cur. induction L as [|c L IH]; intros cur HL.
  - cbn [app lines_from]. rewrite N.eqb_refl, app_nil_r. reflexivity.
  - simpl in HL. apply andb_true_iff in HL as [Hc HL].
    cbn [app lines_from].
    destruct (N.eqb_spec c 10) as [->|_]; [discriminate|].
    rewrite IH by assumption. rewrite reverse_cons, <- app_assoc. reflexivity.
Qed.

Lemma lines_of_render k ls :
  tidy ls = true -> lines_of (render k ls) = map (line_text k) ls.
Proof.
  unfold lines_of. induction ls as [|l ls IH]; intros Htidy; [reflexivity|].
  apply tidy_cons in Htidy as (Hok & Hls & _).
  cbn [render map]. rewrite lines_from_line by apply line_text_dots, Hok.
  rewrite IH by assumption. reflexivity.
Qed.

Lemma is_assignment_line_text k n l :
  valid_name n = true -> line_ok l = true ->
  is_assignment_line k n (line_text k l) = assigns n l.
Proof.
  intros Hn Hok. unfold is_assignment_line.
  destruct (assigns n l) eqn:Hl.
  - apply assigns_true in Hl as [v ->]. cbn [line_ok] in Hok.
    apply andb_true_iff in Hok as [_ Hv]. cbn [line_text].
    rewrite <- (app_nil_r (assignment k n v)).
    rewrite remove_hit by (assumption || reflexivity).
    apply bool_decide_eq_true_2. eauto.
  - apply bool_decide_eq_false_2. intros [x Hx]. revert Hx.
    rewrite body_remove. destruct l as [|c|n' v]; cbn [line_text].
    + rewrite pattern_miss_dead by (left; reflexivity). discriminate.
    + rewrite pattern_miss_dead by (right; reflexivity). discriminate.
    + apply assigns_false in Hl. cbn [line_ok] in Hok.
      apply andb_true_iff in Hok as [Hn' _].
      rewrite <- (app_nil_r (assignment k n' v)).
      rewrite pattern_miss_other
        by (assumption || apply remove_tail_stops).
      discriminate.
Qed.

Lemma assignment_lines_render k n ls :
  valid_name n = true -> tidy ls = true ->
  assignment_lines k n (render k ls) = map (assignment k n) (values_of n ls).
Proof.
  intros Hn Htidy. unfold assignment_lines.
  rewrite lines_of_render by assumption.
  induction ls as [|l ls IH]; [reflexivity|].
  apply tidy_cons in Htidy as (Hok & Hls & _).
  cbn [map List.filter]. rewrite is_assignment_line_text by assumption.
  destruct (assigns n l) eqn:Hl.
  - apply assigns_true in Hl as [v ->]. cbn [values_of line_text].
    unfold str_eqb. rewrite bool_decide_eq_true_2 by reflexivity.
    cbn [map]. rewrite IH by assumption. reflexivity.
  - rewrite IH by assumption.
    destruct l as [|c|n' v]; cbn [values_of]; try reflexivity.
    cbn [assigns] in Hl. rewrite Hl. reflexivity.
Qed.

End Count.
(** ** Masking *)

Section Masking.
Import AuthManager.

Lemma maskApiKey_long (k : jsstring) :
  (8 <= length k)%nat ->
  maskApiKey k =
    take 8 k ++ replicate (length k - 12) 42 ++ drop (length k - 4) k.
Proof.
  intros Hlen. unfold maskApiKey, substring, repeat_char.
  destruct k as [|c k]; [simpl in Hlen; lia|].
  assert ((length (c :: k) <? 8)%nat = false) as -> by (apply Nat.ltb_ge; lia).
  assert (str_truthy (c :: k) = true) as -> by reflexivity.
  cbn [negb orb]. rewrite Nat.max_0_l, Nat.sub_0_r, drop_0.
  replace (length (c :: k) - (length (c :: k) - 4))%nat with 4%nat by lia.
  rewrite (take_ge (drop _ _)) by (rewrite length_drop; lia).
  reflexivity.
Qed.

(** C7.  A key of at least 12 characters is shown with the same
    length, its first 8 and last 4 characters as they are and a star at
    every position in between; a key of fewer than 8 characters is
    shown as four stars. *)
Theorem maskApiKey_masks (k : jsstring) :
  ((12 <= length k)%nat ->
     length (maskApiKey k) = length k /\
     take 8 (maskApiKey k) = take 8 k /\
     drop (length k - 4) (maskApiKey k) = drop (length k - 4) k /\
     forall i : nat, (8 <= i < length k - 4)%nat -> maskApiKey k !! i = Some 42) /\
  ((length k < 8)%nat -> maskApiKey k = lit "****").
Proof.
  split.
  - intros Hlen. rewrite maskApiKey_long by lia.
    assert (length (take 8 k) = 8%nat) as H8 by (rewrite length_take; lia).
    repeat split.
    + rewrite !length_app, length_replicate, length_take, length_drop. lia.
    + rewrite take_app_le by lia. rewrite take_take. f_equal.
    + rewrite drop_app_ge by lia. rewrite H8.
      rewrite drop_app_ge by (rewrite length_replicate; lia).
      rewrite length_replicate.
      replace (length k - 4 - 8 - (length k - 12))%nat with 0%nat by lia.
      apply drop_0.
    + intros i Hi. rewrite lookup_app_r by lia. rewrite H8.
      rewrite lookup_app_l by (rewrite length_replicate; lia).
      apply lookup_replicate_2. lia.
  - intros Hlen. unfold maskApiKey.
    assert ((length k <? 8)%nat = true) as -> by (apply Nat.ltb_lt; lia).
    rewrite orb_true_r. reflexivity.
Qed.

Lemma maskApiKey_masks_witness :
  (length (maskApiKey (lit "PMAK-0123456789abcdef")) = 21%nat /\
   maskApiKey (lit "PMAK-0123456789abcdef") !! 8%nat = Some 42) /\
  maskApiKey (lit "PMAK-1") = lit "****".
Proof.
  split.
  - destruct (maskApiKey_masks (lit "PMAK-0123456789abcdef")) as [H _].
    destruct H as (Hl & _ & _ & Hm); [simpl; lia|].
    split; [exact Hl | apply Hm; simpl; lia].
  - destruct (maskApiKey_masks (lit "PMAK-1")) as [_ H].
    apply H. simpl. lia.
Defined.

(** C10.  For a key of 8 to 11 characters the display is the first 8
    characters followed by the last 4, without any star: 12 characters,
    more than the key has, and every character of the key appears in
    it at a fixed place. *)
Theorem maskApiKey_short_overlap (k : jsstring) :
  (8 <= length k <= 11)%nat ->
  maskApiKey k = take 8 k ++ drop (length k - 4) k /\
  length (maskApiKey k) = 12%nat /\
  (length k < length (maskApiKey k))%nat /\
  (forall i : nat, (i < 8)%nat -> maskApiKey k !! i = k !! i) /\
  (forall i : nat, (length k - 4 <= i < length k)%nat ->
     maskApiKey k !! (i + 12 - length k)%nat = k !! i) /\
  (forall (i : nat) (c : N), k !! i = Some c ->
     exists j : nat, maskApiKey k !! j = Some c).
Proof.
  intros Hlen. rewrite maskApiKey_long by lia.
  replace (length k - 12)%nat with 0%nat by lia. cbn [replicate app].
  assert (length (take 8 k) = 8%nat) as H8 by (rewrite length_take; lia).
  assert (forall i : nat, (i < 8)%nat ->
            (take 8 k ++ drop (length k - 4) k) !! i = k !! i) as Hfirst.
  { intros i Hi. rewrite lookup_app_l by lia. apply lookup_take_lt. lia. }
  assert (forall i : nat, (length k - 4 <= i < length k)%nat ->
            (take 8 k ++ drop (length k - 4) k) !! (i + 12 - length k)%nat
            = k !! i) as Hlast.
  { intros i Hi. rewrite lookup_app_r by lia. rewrite H8, lookup_drop.
    f_equal. lia. }
  repeat split; try assumption.
  - rewrite length_app, length_take, length_drop. lia.
  - rewrite length_app, length_take, length_drop. lia.
  - intros i c Hi. pose proof (lookup_lt_Some _ _ _ Hi) as Hlt.
    destruct (Nat.lt_ge_cases i 8) as [Hi8|Hi8].
    + exists i. rewrite Hfirst by lia. exact Hi.
    + exists (i + 12 - length k)%nat. rewrite Hlast by lia. exact Hi.
Qed.

Lemma maskApiKey_short_overlap_witness :
  maskApiKey (lit "abcdefghi") = lit "abcdefghfghi".
Proof.
  destruct (maskApiKey_short_overlap (lit "abcdefghi")) as [H _].
  - simpl. lia.
  - exact H.
Defined.

End Masking.

(** ** The validation gate of the credential store *)

Section ValidationGate.
Import CredentialStorage.

Lemma validateApiKey_false_iff (key : jsval) :
  Validator.validateApiKey key = false <->
  (forall s, key <> JStr s) \/
  (exists s, key = JStr s /\
     (s = [] \/ startsWith s (lit "PMAK-") = false \/ (length s < 20)%nat)).
Proof.
  destruct key as [| |b|s|]; cbn [Validator.validateApiKey];
    try (split; [intros _; left; intros s; discriminate | reflexivity]).
  split.
  - intros H. right. exists s. split; [reflexivity|].
    destruct s as [|c s]; [left; reflexivity|]. right.
    change (truthy (JStr (c :: s))) with true in H. cbn [negb] in H.
    destruct (startsWith (c :: s) (lit "PMAK-")); [|left; reflexivity].
    right. cbn [negb] in H.
    destruct (Nat.ltb_spec (length (c :: s)) 20); [assumption|discriminate].
  - intros [H|(s' & Heq & H)]; [exfalso; apply (H s); reflexivity|].
    injection Heq as <-.
    destruct s as [|c s]; [reflexivity|].
    change (truthy (JStr (c :: s))) with true. cbn [negb].
    destruct H as [H|[H|H]]; [discriminate| |].
    + rewrite H. reflexivity.
    + destruct (startsWith (c :: s) (lit "PMAK-")); [|reflexivity].
      cbn [negb]. apply Nat.ltb_lt in H. rewrite H. reflexivity.
Qed.

Lemma validateApiKey_prefixed (s : jsstring) :
  (15 <= length s)%nat ->
  Validator.validateApiKey (JStr (lit "PMAK-" ++ s)) = true.
Proof.
  intros Hlen. unfold Validator.validateApiKey.
  change (truthy (JStr (lit "PMAK-" ++ s))) with true. cbn [negb].
  assert (startsWith (lit "PMAK-" ++ s) (lit "PMAK-") = true) as ->
    by (vm_compute; reflexivity).
  cbn [negb].
  assert ((length (lit "PMAK-" ++ s) <? 20)%nat = false) as ->.
  { apply Nat.ltb_ge. rewrite length_app. simpl. lia. }
  reflexivity.
Qed.

(** With the options of [storeApiKey] the write succeeds whenever the
    shell keeps a config file and its path can be written; the new text
    ends with the block of the variable. *)
Lemma write_api_key_succeeds (key : jsstring) (w : world) :
  let shell := ShellDetector.detectShell w in
  let p := ShellDetector.getShellConfigPath shell w in
  ShellDetector.supportsEnvPersistence shell w = true ->
  p ∉ unwritable w ->
  exists content,
    ConfigFileManager.writeEnvVariable POSTMAN_API_KEY key api_key_options w =
    (true,
     mkWorld (env w)
       (<[p := utf8_text
                 (ConfigFileManager.newContent content
                    (lit "Postman API Key for flowman-cli")
                    (ConfigFileManager.exportLine shell
                       (ShellDetector.getExportSyntax shell w)
                       POSTMAN_API_KEY key))]> (files w))
       (unwritable w) (platform w) (homedir w) (pkg_name w)).
Proof.
  intros shell p Hsup Hp. unfold ConfigFileManager.writeEnvVariable.
  cbn [ConfigFileManager.o_shell ConfigFileManager.o_comment
       ConfigFileManager.o_overwrite api_key_options default].
  fold shell. rewrite Hsup. cbn [negb]. rewrite andb_false_r. fold p.
  unfold writeFileSync. rewrite bool_decide_eq_false_2 by assumption.
  eexists. reflexivity.
Qed.

(** Without a config file to write to, the write fails and changes
    nothing. *)
Lemma write_api_key_fails (key : jsstring) (w : world) :
  let shell := ShellDetector.detectShell w in
  let p := ShellDetector.getShellConfigPath shell w in
  ShellDetector.supportsEnvPersistence shell w = false \/ p ∈ unwritable w ->
  ConfigFileManager.writeEnvVariable POSTMAN_API_KEY key api_key_options w =
  (false, w).
Proof.
  intros shell p H. unfold ConfigFileManager.writeEnvVariable.
  cbn [ConfigFileManager.o_shell ConfigFileManager.o_comment
       ConfigFileManager.o_overwrite api_key_options default].
  fold shell. destruct (ShellDetector.supportsEnvPersistence shell w);
    [|reflexivity].
  destruct H as [H|H]; [discriminate|].
  cbn [negb]. rewrite andb_false_r. fold p.
  unfold writeFileSync. rewrite bool_decide_eq_true_2 by assumption.
  reflexivity.
Qed.

(** *** The text of the block on disk *)

(** A character that is not the second half of a pair closes what
    stands before it. *)
Lemma utf8_text_two (x d : N) (s : jsstring) :
  utf8_text (x :: d :: s) =
  if is_high_surrogate x then
    if is_low_surrogate d then x :: d :: utf8_text s
    else 65533 :: utf8_text (d :: s)
  else if is_low_surrogate x then 65533 :: utf8_text (d :: s)
  else x :: utf8_text (d :: s).
Proof. reflexivity. Qed.

Lemma utf8_text_one (x : N) :
  utf8_text [x] =
  if is_high_surrogate x then [65533]
  else if is_low_surrogate x then [65533] else [x].
Proof. reflexivity. Qed.

Lemma utf8_text_cut_len m (v t : jsstring) (c : N) :
  (length v <= m)%nat -> is_low_surrogate c = false ->
  utf8_text (v ++ c :: t) = utf8_text v ++ utf8_text (c :: t).
Proof.
  revert v. induction m as [|m IH]; intros v Hlen Hc.
  - destruct v; [reflexivity|simpl in Hlen; lia].
  - destruct v as [|x [|d v]]; [reflexivity| |]; simpl in Hlen.
    + cbn [app]. rewrite utf8_text_two, utf8_text_one, Hc.
      destruct (is_high_surrogate x), (is_low_surrogate x); reflexivity.
    + change ((x :: d :: v) ++ c :: t) with (x :: d :: (v ++ c :: t)).
      rewrite !utf8_text_two.
      change (d :: v ++ c :: t) with ((d :: v) ++ c :: t).
      rewrite (IH v), (IH (d :: v)) by (assumption || simpl; lia).
      destruct (is_high_surrogate x), (is_low_surrogate d),
        (is_low_surrogate x); reflexivity.
Qed.

Lemma utf8_text_cut (v t : jsstring) (c : N) :
  is_low_surrogate c = false ->
  utf8_text (v ++ c :: t) = utf8_text v ++ utf8_text (c :: t).
Proof. apply (utf8_text_cut_len (length v)). lia. Qed.

Lemma utf8_text_quoted (key : jsstring) :
  utf8_text (34 :: key ++ [34; 10]) = 34 :: utf8_text key ++ [34; 10].
Proof.
  change (utf8_text (34 :: key ++ [34; 10]))
    with (34 :: utf8_text (key ++ [34; 10])).
  rewrite utf8_text_cut by reflexivity. reflexivity.
Qed.

(** The export line goes to disk with the key as UTF-8 keeps it. *)
Lemma exportLine_utf8 (sh sh' key : jsstring) :
  utf8_text (ConfigFileManager.exportLine sh (ShellDetector.syntaxMap sh')
               POSTMAN_API_KEY key ++ [10]) =
  ConfigFileManager.exportLine sh (ShellDetector.syntaxMap sh')
    POSTMAN_API_KEY (utf8_text key) ++ [10].
Proof.
  pose proof (utf8_text_quoted key) as Hq.
  unfold ConfigFileManager.exportLine, ShellDetector.syntaxMap.
  repeat match goal with |- context [str_eqb ?a ?b] =>
    destruct (str_eqb a b) end.
  all: rewrite <- !app_assoc.
  all: change ([34] ++ key ++ [34] ++ [10]) with (34 :: key ++ [34; 10]).
  all: change ([34] ++ utf8_text key ++ [34] ++ [10])
         with (34 :: utf8_text key ++ [34; 10]).
  all: rewrite <- Hq.
  all: generalize (34 :: key ++ [34; 10]); intros rest.
  all: reflexivity.
Qed.

(** C6.  A key that is not a string, is empty, lacks the prefix PMAK- or
    has fewer than 20 characters is refused: the call reports failure and
    leaves the world, hence every file, as it was, in every state.  A key
    made of PMAK- and 20 more characters passes the validation and the
    call goes on to the write.  For a shell whose name is not that of a
    member of [Object.prototype]: when the shell keeps a config file and
    its path can be written, the call succeeds; the config file then
    ends with the comment line of the key and its assignment line, which
    holds the key as UTF-8 keeps it, every other file is as before, and
    the process environment holds the key as the environment block
    keeps it.  When the shell keeps no config file or the path cannot be
    written, the call reports failure and leaves the world as it was. *)
Theorem storeApiKey_gate :
  (forall (key : jsval) (w : world),
     (forall s, key <> JStr s) \/
     (exists s, key = JStr s /\
        (s = [] \/ startsWith s (lit "PMAK-") = false \/ (length s < 20)%nat)) ->
     storeApiKey key w = (false, w)) /\
  (forall (s : jsstring) (w : world),
     length s = 20%nat ->
     let key := lit "PMAK-" ++ s in
     let shell := ShellDetector.detectShell w in
     let p := ShellDetector.getShellConfigPath shell w in
     Validator.validateApiKey (JStr key) = true /\
     (own_name shell = true ->
      ShellDetector.supportsEnvPersistence shell w = true ->
      p ∉ unwritable w ->
      fst (storeApiKey (JStr key) w) = true /\
      (exists front,
         files (snd (storeApiKey (JStr key) w)) !! p =
         Some (front ++ [10] ++ lit "# Postman API Key for flowman-cli" ++
               [10] ++
               ConfigFileManager.exportLine shell
                 (ShellDetector.getExportSyntax shell w) POSTMAN_API_KEY
                 (utf8_text key) ++ [10])) /\
      (forall q, q <> p ->
         files (snd (storeApiKey (JStr key) w)) !! q = files w !! q) /\
      getenv (snd (storeApiKey (JStr key) w)) POSTMAN_API_KEY
        = JStr (env_text key)) /\
     (own_name shell = true ->
      ShellDetector.supportsEnvPersistence shell w = false \/
      p ∈ unwritable w ->
      storeApiKey (JStr key) w = (false, w))).
Proof.
  split.
  - intros key w H. apply validateApiKey_false_iff in H.
    unfold storeApiKey. rewrite H. reflexivity.
  - intros s w Hlen key shell p.
    assert (Validator.validateApiKey (JStr key) = true) as Hv
      by (apply validateApiKey_prefixed; lia).
    split; [exact Hv|]. split.
    + intros _ Hsup Hp. unfold storeApiKey. rewrite Hv. cbn [negb to_string].
      destruct (write_api_key_succeeds key w Hsup Hp) as (content & ->).
      fold shell p. cbn [fst snd files set_env env].
      split; [reflexivity|]. split; [|split].
      * rewrite lookup_insert_eq. unfold ConfigFileManager.newContent.
        set (sep := if str_truthy content &&
                       negb (endsWith1 content 10) then [10] else []).
        exists (utf8_text (content ++ sep)). f_equal.
        rewrite (app_assoc content sep).
        change ([10] ++ lit "# " ++ lit "Postman API Key for flowman-cli" ++
                [10] ++
                ConfigFileManager.exportLine shell
                  (ShellDetector.getExportSyntax shell w) POSTMAN_API_KEY key
                ++ [10])
          with (10 :: (lit "# " ++ lit "Postman API Key for flowman-cli" ++
                [10]) ++
                (ConfigFileManager.exportLine shell
                   (ShellDetector.getExportSyntax shell w) POSTMAN_API_KEY key
                 ++ [10])).
        rewrite utf8_text_cut by reflexivity. f_equal.
        unfold ShellDetector.getExportSyntax.
        rewrite <- exportLine_utf8.
        generalize (ConfigFileManager.exportLine shell
                      (ShellDetector.syntaxMap
                         (ShellDetector.or_detect shell w))
                      POSTMAN_API_KEY key ++ [10]).
        intros rest. reflexivity.
      * intros q Hq. apply lookup_insert_ne. congruence.
      * unfold getenv, set_env. cbn [env]. rewrite lookup_insert_eq.
        reflexivity.
    + intros _ H. unfold storeApiKey. rewrite Hv. cbn [negb to_string].
      rewrite (write_api_key_fails key w H). reflexivity.
Qed.

Lemma storeApiKey_gate_witness :
  storeApiKey (JStr (lit "bad-key")) (posix_world "/bin/bash")
    = (false, posix_world "/bin/bash") /\
  fst (storeApiKey (JStr (lit "PMAK-" ++ lit "0123456789abcdefghij"))
         (posix_world "/bin/bash")) = true /\
  files (snd (storeApiKey (JStr (lit "PMAK-" ++ lit "0123456789abcdefghij"))
                (posix_world "/bin/bash"))) !! lit "/home/u/notes" = None.
Proof.
  destruct storeApiKey_gate as [Hbad Hgood]. split.
  - apply Hbad. right. exists (lit "bad-key"). split; [reflexivity|].
    right. left. reflexivity.
  - destruct (Hgood (lit "0123456789abcdefghij") (posix_world "/bin/bash"))
      as (_ & Hok & _); [reflexivity|].
    destruct Hok as (Hfst & _ & Hother & _);
      [reflexivity|reflexivity|apply not_elem_of_empty|].
    split; [exact Hfst|]. rewrite Hother; [reflexivity|discriminate].
Defined.

End ValidationGate.
(** ** Clearing the credentials *)

Section Clearing.
Import CredentialStorage AuthManager.

(** The name [removeEnvVariable] is bound to the content transform, so a
    call with a variable name takes the name for the content, looks for
    a variable called undefined in it and returns the name, a string;
    the world is not touched. *)
Lemma removeEnvVariable_call (a0 : jsstring) (a1 a2 : jsval) (w : world) :
  ConfigFileManager.removeEnvVariable a0 a1 a2 w =
  (JStr (ConfigFileManager.removeEnvVariable_content
           a0 (to_string a1) (to_string a2)), w).
Proof. reflexivity. Qed.

Lemma clearCredentials_eq (w : world) :
  clearCredentials w =
  (true, delete_env POSTMAN_WORKSPACE_ID (delete_env POSTMAN_API_KEY w)).
Proof.
  unfold clearCredentials. rewrite !removeEnvVariable_call.
  assert (ConfigFileManager.removeEnvVariable_content POSTMAN_API_KEY
            (to_string JUndefined) (to_string JUndefined) = POSTMAN_API_KEY)
    as -> by (vm_compute; reflexivity).
  assert (ConfigFileManager.removeEnvVariable_content POSTMAN_WORKSPACE_ID
            (to_string JUndefined) (to_string JUndefined) = POSTMAN_WORKSPACE_ID)
    as -> by (vm_compute; reflexivity).
  reflexivity.
Qed.

(** C8, as the code has it.  [clearCredentials] reports success in every
    state, whether or not a removal changed anything and also when
    neither variable existed, and takes both variables out of the process
    environment.  [logout] is that call: it reports success, also when
    repeated, and has no access to the remote service. *)
Theorem clearCredentials_reports_success (w : world) :
  fst (clearCredentials w) = true /\
  env (snd (clearCredentials w)) !! POSTMAN_API_KEY = None /\
  env (snd (clearCredentials w)) !! POSTMAN_WORKSPACE_ID = None /\
  logout w = clearCredentials w /\
  fst (logout (snd (logout w))) = true.
Proof.
  unfold logout. rewrite !clearCredentials_eq. cbn [fst snd delete_env env].
  repeat split.
  - rewrite lookup_delete_ne by (vm_compute; discriminate).
    apply lookup_delete_eq.
  - apply lookup_delete_eq.
Qed.

(** C8, as stated, fails: with no stored credentials and no config file,
    nothing is removed, no file changes, and success is reported where
    the claim has "nothing to clear". *)
Lemma clearCredentials_success_without_removal :
  let w := posix_world "/bin/bash" in
  getApiKey w = JNull /\ getWorkspaceId w = JNull /\
  files (snd (clearCredentials w)) = files w /\
  fst (clearCredentials w) = true.
Proof. vm_compute. repeat split. Qed.

(** C1 at the rollback scenario of the specification: the key has the
    right format, the remote service rejects it.  The call reports
    failure, but the config file still holds the assignment line and a
    later read returns the key. *)
Lemma authenticate_rejected_key_remains :
  let key := lit "PMAK-validformat-butremoterejects" in
  let r := authenticateWithApiKey (fun _ => false) (JStr key) JNull
             (posix_world "/bin/bash") in
  fst r = false /\
  getApiKey (snd r) = JStr key /\
  files (snd r) !! lit "/home/u/.bashrc" =
    Some (nl ++ lit "# Postman API Key for flowman-cli" ++ nl ++
          lit "export POSTMAN_API_KEY=" ++ dq ++ key ++ dq ++ nl).
Proof. vm_compute. repeat split. Qed.

(** C2 on a fresh bash configuration: after a successful write of FOO,
    the public [removeEnvVariable] leaves the world as it is and a read
    still returns the value. *)
Lemma public_remove_keeps_variable :
  let w0 := posix_world "/bin/bash" in
  let w1 := snd (ConfigFileManager.writeEnvVariable (lit "FOO") (lit "bar")
                   ConfigFileManager.no_options w0) in
  let r := ConfigFileManager.removeEnvVariable (lit "FOO")
             JUndefined JUndefined w1 in
  fst (ConfigFileManager.writeEnvVariable (lit "FOO") (lit "bar")
         ConfigFileManager.no_options w0) = true /\
  fst r = JStr (lit "FOO") /\
  snd r = w1 /\
  ConfigFileManager.readEnvVariable (lit "FOO") (snd r) = JStr (lit "bar").
Proof. vm_compute. repeat split. Qed.

End Clearing.

(** ** Round trip, update and the empty value *)

Section Written.
Import ConfigFileManager.
Implicit Types (k : shell_kind) (w : world) (ls : list line)
               (name value a b : jsstring) (o : options).

Lemma values_new_block name value c ls :
  values_of name ls = [] ->
  values_of name (ls ++ [Blank; Note c; Assign name value]) = [value].
Proof.
  intros H. rewrite values_app, H. cbn [values_of app]. unfold str_eqb.
  rewrite bool_decide_eq_true_2 by reflexivity. reflexivity.
Qed.

Example valid_value_words : valid_value (lit "two words") = true.
Proof. reflexivity. Qed.

(** A character outside the Basic Multilingual Plane, as a pair. *)
Example valid_value_pair : valid_value [55357; 56832] = true.
Proof. reflexivity. Qed.

Example valid_value_apostrophe : valid_value (lit "it's") = false.
Proof. reflexivity. Qed.

Example valid_value_lone_surrogate : valid_value [97; 55357] = false.
Proof. reflexivity. Qed.







End Written.

Section EmptyValue.
Import ConfigFileManager.
Implicit Types (k : shell_kind) (w : world) (name c t : jsstring).

Lemma read_paths_truthy paths name sh w v :
  read_paths paths name sh w = Some v -> str_truthy v = true.
Proof.
  induction paths as [|p paths IH]; cbn [read_paths]; [discriminate|].
  destruct (files w !! p) as [content|]; [|exact IH].
  destruct (opt_truthy (extractEnvVariable content name sh)) eqn:Hv;
    [|exact IH].
  intros H. rewrite H in Hv. exact Hv.
Qed.








End EmptyValue.

(** ** Names that share a prefix *)

Section Prefix.
Import ConfigFileManager.

(** X22.  On a config file kept by the tool the four shells keep names
    apart, prefixes included: a write for [n] leaves the values of the
    assignment lines of every other name [m], and their order, as they
    were, and the extraction finds for [m] what it found before. *)
Lemma write_keeps_other_names (k : shell_kind) (w : world) (ls : list line)
    (n m v : jsstring) (o : options) :
  ShellDetector.detectShell w = shell_name k ->
  o_shell o = None -> default true (o_overwrite o) = true ->
  valid_comment (default (default_comment w) (o_comment o)) = true ->
  config_kept k w ls ->
  ShellDetector.getShellConfigPath (shell_name k) w ∉ unwritable w ->
  valid_name n = true -> valid_value v = true ->
  valid_name m = true -> m <> n ->
  exists text,
    files (snd (writeEnvVariable n v o w))
      !! ShellDetector.getShellConfigPath (shell_name k) w = Some text /\
    assignment_lines k m text = map (assignment k m) (values_of m ls) /\
    extractEnvVariable text m (shell_name k) = first_value m ls.
Proof.
  intros Hsh Ho Hover Hc Hkept Hw Hn Hv Hm Hne.
  destruct (write_kept k w ls n v o Hsh Ho Hover Hc Hkept Hw Hn Hv)
    as (ls1 & text & -> & Hwrite & Hk1 & _ & Hother).
  rewrite Hwrite. cbn [snd files with_file]. eexists. split.
  - apply lookup_insert_eq.
  - pose proof (kept_tidy _ _ Hk1) as Htidy.
    assert (values_of m (ls1 ++ [Blank;
              Note (default (default_comment w) (o_comment o)); Assign n v])
            = values_of m ls) as Hvals.
    { rewrite values_app, (Hother m Hne). cbn [values_of]. unfold str_eqb.
      rewrite bool_decide_eq_false_2 by congruence. apply app_nil_r. }
    split.
    + rewrite assignment_lines_render, Hvals by assumption. reflexivity.
    + rewrite extract_render, !first_value_head, Hvals by assumption.
      reflexivity.
Qed.

(** C5 on a fish configuration where the line of API_KEY carries no
    value and the line of API_KEY_SECONDARY follows: the white space
    the expressions allow after the name runs over the line feed, so
    reading API_KEY returns text of the next line, and removing or
    writing API_KEY deletes the line of API_KEY_SECONDARY. *)
Lemma fish_prefix_name_takes_next_line :
  let text := lit "set -gx API_KEY" ++ nl ++
              lit "set -gx API_KEY_SECONDARY " ++ dq ++ lit "s" ++ dq ++ nl in
  let w := file_world "/usr/bin/fish" "/home/u/.config/fish/config.fish"
             text in
  let r := writeEnvVariable (lit "API_KEY") (lit "k") no_options w in
  readEnvVariable (lit "API_KEY_SECONDARY") w = JStr (lit "s") /\
  readEnvVariable (lit "API_KEY") w =
    JStr (lit "set -gx API_KEY_SECONDARY ") /\
  removeEnvVariable_content text (lit "API_KEY") (lit "fish") = nl /\
  fst r = true /\
  files (snd r) !! lit "/home/u/.config/fish/config.fish" =
    Some (nl ++ nl ++ lit "# Added by flowman-cli" ++ nl ++
          lit "set -gx API_KEY " ++ dq ++ lit "k" ++ dq ++ nl) /\
  readEnvVariable (lit "API_KEY_SECONDARY") (snd r) = JNull.
Proof. vm_compute. repeat split. Qed.

End Prefix.
(** * Further properties of the code *)

(** ** The shell and its config path *)

Section ShellPaths.
Import ShellDetector.
Implicit Types (w : world) (p q r s dir name shell : jsstring)
               (fs : list jsstring).

Lemma until_slash_free r : 47 ∉ until_slash r.
Proof.
  induction r as [|c r IH]; cbn [until_slash]; [apply not_elem_of_nil|].
  destruct (N.eqb_spec c 47) as [->|Hc]; [apply not_elem_of_nil|].
  apply not_elem_of_cons. split; [congruence|exact IH].
Qed.

Lemma until_slash_app r t : 47 ∉ r -> until_slash (r ++ 47 :: t) = r.
Proof.
  induction r as [|c r IH]; intros Hr; [reflexivity|].
  apply not_elem_of_cons in Hr as [Hc Hr]. cbn [until_slash app].
  destruct (N.eqb_spec c 47) as [->|_]; [congruence|].
  rewrite IH by assumption. reflexivity.
Qed.

Lemma until_slash_all r : 47 ∉ r -> until_slash r = r.
Proof.
  induction r as [|c r IH]; intros Hr; [reflexivity|].
  apply not_elem_of_cons in Hr as [Hc Hr]. cbn [until_slash].
  destruct (N.eqb_spec c 47) as [->|_]; [congruence|].
  rewrite IH by assumption. reflexivity.
Qed.

Lemma drop_slashes_segment r : r <> [] -> 47 ∉ r -> forall t,
  drop_slashes (r ++ t) = r ++ t.
Proof.
  destruct r as [|c r]; [congruence|]. intros _ Hr t.
  apply not_elem_of_cons in Hr as [Hc _]. cbn [drop_slashes app].
  destruct (N.eqb_spec c 47) as [->|_]; [congruence|reflexivity].
Qed.

Lemma basename_free p : 47 ∉ basename p.
Proof.
  unfold basename. rewrite elem_of_reverse. apply until_slash_free.
Qed.

Lemma basename_segment dir name :
  name <> [] -> 47 ∉ name -> basename (dir ++ 47 :: name) = name.
Proof.
  intros Hne Hfree. unfold basename.
  rewrite reverse_app, reverse_cons, <- app_assoc. cbn [app].
  assert (reverse name <> []) as Hne'
    by (intros H; apply Hne; rewrite <- (reverse_involutive name), H;
        reflexivity).
  assert (47 ∉ reverse name) as Hfree' by (rewrite elem_of_reverse; exact Hfree).
  rewrite drop_slashes_segment, until_slash_app by assumption.
  apply reverse_involutive.
Qed.

Lemma basename_plain name : 47 ∉ name -> basename name = name.
Proof.
  intros Hfree. unfold basename.
  assert (47 ∉ reverse name) as Hfree' by (rewrite elem_of_reverse; exact Hfree).
  destruct (reverse name) as [|c r] eqn:Hr.
  - rewrite <- (reverse_involutive name), Hr. reflexivity.
  - rewrite <- (app_nil_r (c :: r)), drop_slashes_segment, app_nil_r,
      until_slash_all, <- Hr by (assumption || discriminate).
    apply reverse_involutive.
Qed.

(** X1.  On a platform with POSIX paths, when SHELL is set and not
    empty, [detectShell] answers with its last path segment, whatever
    the platform default would be: the result never holds a slash; for
    a value of the form dir/name, where name is not empty and has no
    slash, it is name; and a value without a slash is returned as it
    is. *)
Theorem detectShell_last_segment (w : world) (shellEnv : jsstring) :
  platform w <> lit "win32" ->
  env w !! lit "SHELL" = Some shellEnv -> shellEnv <> [] ->
  (47 ∉ detectShell w) /\
  (forall dir name, shellEnv = dir ++ 47 :: name -> name <> [] ->
     47 ∉ name -> detectShell w = name) /\
  (47 ∉ shellEnv -> detectShell w = shellEnv).
Proof.
  intros _ Henv Hne. unfold detectShell. rewrite Henv.
  assert (str_truthy shellEnv = true) as ->.
  { unfold str_truthy, truthy, str_eqb.
    rewrite bool_decide_eq_false_2 by assumption. reflexivity. }
  split; [apply basename_free|]. split.
  - intros dir name -> Hname Hfree. apply basename_segment; assumption.
  - apply basename_plain.
Qed.

Lemma detectShell_last_segment_witness :
  detectShell (posix_world "/usr/local/bin/fish") = lit "fish".
Proof.
  destruct (detectShell_last_segment (posix_world "/usr/local/bin/fish")
              (lit "/usr/local/bin/fish")) as (_ & Hseg & _).
  - discriminate.
  - reflexivity.
  - discriminate.
  - apply (Hseg (lit "/usr/local/bin") (lit "fish")).
    + reflexivity.
    + discriminate.
    + apply (bool_decide_eq_false_1 (47 ∈ lit "fish")). reflexivity.
Defined.

Lemma first_existing_spec dir fs w :
  match first_existing dir fs w with
  | Some p =>
      exists i, map (path_join dir) fs !! i = Some p /\
        existsSync p w = true /\
        forall j q, (j < i)%nat -> map (path_join dir) fs !! j = Some q ->
                    existsSync q w = false
  | None => forall q, q ∈ map (path_join dir) fs -> existsSync q w = false
  end.
Proof.
  induction fs as [|f fs IH]; cbn [first_existing map].
  - intros q Hq. apply elem_of_nil in Hq as [].
  - destruct (existsSync (path_join dir f) w) eqn:Hf.
    + exists 0%nat. split; [reflexivity|]. split; [exact Hf|]. intros; lia.
    + destruct (first_existing dir fs w) as [p|].
      * destruct IH as (i & Hi & Hp & Hbefore). exists (S i).
        split; [exact Hi|]. split; [exact Hp|].
        intros [|j] q Hj Hq; [injection Hq as <-; exact Hf|].
        apply (Hbefore j); [lia|exact Hq].
      * intros q Hq. apply elem_of_cons in Hq as [->|Hq]; [exact Hf|].
        apply IH, Hq.
Qed.

(** X2.  [getShellConfigPath] and [getAllShellConfigPaths] agree, for
    a shell whose name is not that of a member of [Object.prototype]:
    the path returned is the first of the candidate paths that exists,
    no candidate before it existing; when no candidate exists it is the
    first candidate, or .profile in the home directory when the shell
    has no candidate at all. *)
Theorem getShellConfigPath_first_existing (shell : jsstring) (w : world) :
  own_name (or_detect shell w) = true ->
  let all := getAllShellConfigPaths shell w in
  let p := getShellConfigPath shell w in
  (exists i, all !! i = Some p /\ existsSync p w = true /\
     forall j q, (j < i)%nat -> all !! j = Some q -> existsSync q w = false) \/
  ((forall q, q ∈ all -> existsSync q w = false) /\
   p = default (path_join (homedir w) (lit ".profile")) (head all)).
Proof.
  intros _. unfold getAllShellConfigPaths, getShellConfigPath.
  pose proof (first_existing_spec (homedir w)
                (possibleFiles (or_detect shell w)) w) as H.
  destruct (first_existing (homedir w) (possibleFiles (or_detect shell w)) w)
    as [p|]; [left; exact H|].
  right. split; [exact H|].
  destruct (possibleFiles (or_detect shell w)); reflexivity.
Qed.

Lemma getShellConfigPath_first_existing_witness :
  let w := file_world "/bin/bash" "/home/u/.profile" [] in
  let all := getAllShellConfigPaths (lit "bash") w in
  let p := getShellConfigPath (lit "bash") w in
  (exists i, all !! i = Some p /\ existsSync p w = true /\
     forall j q, (j < i)%nat -> all !! j = Some q -> existsSync q w = false) \/
  ((forall q, q ∈ all -> existsSync q w = false) /\
   p = default (path_join (homedir w) (lit ".profile")) (head all)).
Proof.
  apply (getShellConfigPath_first_existing (lit "bash")
           (file_world "/bin/bash" "/home/u/.profile" [])).
  reflexivity.
Defined.

End ShellPaths.
(** ** What a write touches *)

Section WriteFrame.
Import ConfigFileManager.
Implicit Types (w : world) (n v p q a b content : jsstring) (o : options).

Lemma utf8_text_app_l_len m a b :
  (length a <= m)%nat ->
  utf8_text a = a -> utf8_text (a ++ b) = a ++ utf8_text b.
Proof.
  revert a. induction m as [|m IH]; intros a Hlen Ha.
  - destruct a; [reflexivity|simpl in Hlen; lia].
  - destruct a as [|c a]; [reflexivity|]. simpl in Hlen.
    cbn [utf8_text app] in *.
    destruct (is_high_surrogate c) eqn:Hhigh.
    + destruct a as [|d a].
      * injection Ha as Ha. apply high_not_replacement in Hhigh. congruence.
      * cbn [app]. destruct (is_low_surrogate d) eqn:Hlow.
        -- injection Ha as Ha. simpl in Hlen.
           rewrite (IH a) by (assumption || lia). reflexivity.
        -- injection Ha as Ha _. apply high_not_replacement in Hhigh.
           congruence.
    + destruct (is_low_surrogate c) eqn:Hlow.
      * injection Ha as Ha _. apply low_not_replacement in Hlow. congruence.
      * injection Ha as Ha. rewrite (IH a) by (assumption || lia).
        reflexivity.
Qed.

(** A well-formed text reaches the disk as it is, whatever follows it. *)
Lemma utf8_text_app_l a b :
  utf8_text a = a -> utf8_text (a ++ b) = a ++ utf8_text b.
Proof. apply (utf8_text_app_l_len (length a)). lia. Qed.

Lemma extract_empty n shell : extractEnvVariable [] n shell = None.
Proof.
  unfold extractEnvVariable, extract_pattern.
  repeat match goal with |- context [str_eqb ?a ?b] =>
    destruct (str_eqb a b) end; reflexivity.
Qed.

(** The three ways a write can end. *)
Lemma write_cases n v o w :
  let shell := default (ShellDetector.detectShell w) (o_shell o) in
  let p := ShellDetector.getShellConfigPath shell w in
  writeEnvVariable n v o w = (false, w) \/
  (writeEnvVariable n v o w = (true, w) /\ existsSync p w = true) \/
  exists text, writeEnvVariable n v o w = (true, with_file p text w).
Proof.
  cbv zeta. unfold writeEnvVariable.
  set (shell := default (ShellDetector.detectShell w) (o_shell o)).
  set (p := ShellDetector.getShellConfigPath shell w).
  destruct (ShellDetector.supportsEnvPersistence shell w); cbn [negb];
    [|left; reflexivity].
  destruct (opt_truthy (extractEnvVariable (default [] (files w !! p)) n shell)
            && negb (default true (o_overwrite o))) eqn:Hkeep.
  - right. left. split; [reflexivity|].
    apply andb_true_iff in Hkeep as [Hexisting _].
    unfold existsSync. apply bool_decide_eq_true_2.
    destruct (files w !! p) as [content|]; [eauto|].
    cbn [default] in Hexisting. rewrite extract_empty in Hexisting.
    discriminate Hexisting.
  - unfold writeFileSync. destruct (bool_decide (p ∈ unwritable w));
      [left; reflexivity|].
    right. right. eexists. reflexivity.
Qed.

Lemma write_env n v o w : env (snd (writeEnvVariable n v o w)) = env w.
Proof.
  destruct (write_cases n v o w) as [->|[[-> _]|[text ->]]]; reflexivity.
Qed.

Lemma write_failure n v o w :
  fst (writeEnvVariable n v o w) = false -> snd (writeEnvVariable n v o w) = w.
Proof.
  destruct (write_cases n v o w) as [->|[[-> _]|[text ->]]];
    [reflexivity|discriminate|discriminate].
Qed.

(** X3.  [writeEnvVariable] touches at most one file, the config path
    of the shell: for a name of word characters and a shell whose name
    is not that of a member of [Object.prototype], the process
    environment and every other file are as before, whatever the value,
    the options and the state.  A call that reports failure changes
    nothing at all, and after a call that reports success the config
    file exists. *)
Theorem writeEnvVariable_frame (n v : jsstring) (o : options) (w : world) :
  valid_name n = true ->
  own_name (ShellDetector.or_detect
              (default (ShellDetector.detectShell w) (o_shell o)) w) = true ->
  let shell := default (ShellDetector.detectShell w) (o_shell o) in
  let p := ShellDetector.getShellConfigPath shell w in
  let r := writeEnvVariable n v o w in
  env (snd r) = env w /\
  (forall q, q <> p -> files (snd r) !! q = files w !! q) /\
  (fst r = false -> snd r = w) /\
  (fst r = true -> existsSync p (snd r) = true).
Proof.
  intros _ _. cbv zeta. split; [apply write_env|].
  split; [|split; [apply write_failure|]].
  - intros q Hq.
    destruct (write_cases n v o w) as [->|[[-> _]|[text ->]]];
      try reflexivity.
    cbn [snd files with_file]. apply lookup_insert_ne. congruence.
  - destruct (write_cases n v o w) as [->|[[-> Hex]|[text ->]]];
      cbn [fst snd]; [discriminate|intros _; exact Hex|].
    intros _. apply existsSync_with_same.
Qed.

Lemma writeEnvVariable_frame_witness :
  let w := mkWorld {[ lit "SHELL" := lit "/bin/bash" ]}
             {[ lit "/home/u/notes.txt" := lit "keep" ]}
             {[ lit "/home/u/.bashrc" ]}
             (lit "linux") (lit "/home/u") (lit "flowman-cli") in
  let r := writeEnvVariable (lit "TOKEN") (lit "t") no_options w in
  fst r = false /\ snd r = w /\
  files (snd r) !! lit "/home/u/notes.txt" = Some (lit "keep").
Proof.
  intros w r.
  destruct (writeEnvVariable_frame (lit "TOKEN") (lit "t") no_options w)
    as (_ & Hother & Hfail & _); [reflexivity|reflexivity|].
  assert (fst r = false) as Hr by (vm_compute; reflexivity).
  split; [exact Hr|]. split; [exact (Hfail Hr)|].
  subst r. rewrite Hother; [reflexivity|]. vm_compute. discriminate.
Defined.

(** X4.  A variable that the config file does not hold yet is
    appended: when the extraction finds no value for the name, the shell
    keeps a config file, its path can be written and the text of the
    file is well formed (or there is no file), the write succeeds and
    the new text of the file is the old text, a line feed if the old
    text is not empty and does not end with one, and the block of the
    variable: an empty line, the comment line and the assignment line.
    Nothing of the old text is lost or reordered.  The name is made of
    word characters and the name of the shell is not that of a member
    of [Object.prototype]. *)
Theorem write_new_variable_appends (n v : jsstring) (o : options) (w : world) :
  valid_name n = true ->
  own_name (ShellDetector.or_detect
              (default (ShellDetector.detectShell w) (o_shell o)) w) = true ->
  let shell := default (ShellDetector.detectShell w) (o_shell o) in
  let p := ShellDetector.getShellConfigPath shell w in
  let content := default [] (files w !! p) in
  let comment := default (default_comment w) (o_comment o) in
  let line := exportLine shell (ShellDetector.getExportSyntax shell w) n v in
  ShellDetector.supportsEnvPersistence shell w = true ->
  p ∉ unwritable w ->
  opt_truthy (extractEnvVariable content n shell) = false ->
  well_formed content = true ->
  writeEnvVariable n v o w =
    (true,
     with_file p
       (content ++
        (if str_truthy content && negb (endsWith1 content 10) then [10]
         else []) ++
        10 :: utf8_text (lit "# " ++ comment ++ [10] ++ line ++ [10])) w).
Proof.
  intros _ _ shell p content comment line Hsup Hp Hnew Hwf.
  unfold writeEnvVariable. fold shell. rewrite Hsup. cbn [negb].
  fold p. fold content. rewrite Hnew. cbn [andb]. fold comment. fold line.
  rewrite writeFileSync_ok by assumption. unfold newContent.
  apply well_formed_eq in Hwf.
  rewrite utf8_text_app_l by assumption.
  destruct (str_truthy content && negb (endsWith1 content 10));
    reflexivity.
Qed.

Lemma write_new_variable_appends_witness :
  let old := lit "alias ll='ls -l'" in
  let w := file_world "/bin/zsh" "/home/u/.zshrc" old in
  writeEnvVariable (lit "TOKEN") (lit "t") no_options w =
    (true,
     with_file (lit "/home/u/.zshrc")
       (old ++ nl ++ nl ++ lit "# Added by flowman-cli" ++ nl ++
        lit "export TOKEN=" ++ dq ++ lit "t" ++ dq ++ nl) w).
Proof.
  intros old w.
  apply (write_new_variable_appends (lit "TOKEN") (lit "t") no_options w).
  - reflexivity.
  - reflexivity.
  - reflexivity.
  - apply not_elem_of_empty.
  - reflexivity.
  - reflexivity.
Defined.

End WriteFrame.
(** ** The content transform *)

Section Transform.
Import ConfigFileManager.
Implicit Types (k : shell_kind) (n m s t u rest content shell : jsstring)
               (ls : list line) (prev : option N) (its tl : list item).

Lemma try_down_some {A : Type} (f : nat -> option A) lo j r :
  try_down f lo j = Some r -> exists i, (i <= j)%nat /\ f i = Some r.
Proof.
  induction j as [|j IH]; cbn [try_down].
  - destruct (0 <? lo)%nat; [discriminate|].
    destruct (f 0%nat) eqn:Hf; [|discriminate].
    intros [= <-]. exists 0%nat. split; [lia|exact Hf].
  - destruct (S j <? lo)%nat; [discriminate|].
    destruct (f (S j)) eqn:Hf.
    + intros [= <-]. exists (S j). split; [lia|exact Hf].
    + intros H. destruct (IH H) as (i & Hi & Hfi). exists i. split; [lia|exact Hfi].
Qed.

(** A match of a sequence is a match of its first part followed by a
    match of the rest. *)
Lemma exec_split its tl s gs cap rest c :
  exec (its ++ tl) s gs cap = Some (rest, c) ->
  exists u mid gs' cap',
    s = u ++ mid /\ exec tl mid gs' cap' = Some (rest, c).
Proof.
  revert s gs cap. induction its as [|a its IH]; intros s gs cap H.
  - exists [], s, gs, cap. split; [reflexivity|exact H].
  - assert (forall lo top,
      try_down (fun j => exec (its ++ tl) (drop j s) gs cap) lo top
        = Some (rest, c) ->
      exists u mid gs' cap',
        s = u ++ mid /\ exec tl mid gs' cap' = Some (rest, c)) as Hrep.
    { intros lo top Hd. apply try_down_some in Hd as (i & _ & Hi).
      destruct (IH _ _ _ Hi) as (u & mid & gs' & cap' & Heq & Htl).
      exists (take i s ++ u), mid, gs', cap'. split; [|exact Htl].
      rewrite <- app_assoc, <- Heq, take_drop. reflexivity. }
    destruct a; cbn [app exec] in H.
    + destruct s as [|x s]; [discriminate|].
      destruct (x =? c0); [|discriminate].
      destruct (IH _ _ _ H) as (u & mid & gs' & cap' & -> & Htl).
      exists (x :: u), mid, gs', cap'. split; [reflexivity|exact Htl].
    + exact (Hrep _ _ H).
    + exact (Hrep _ _ H).
    + exact (Hrep _ _ H).
    + exact (IH _ _ _ H).
    + exact (IH _ _ _ H).
    + destruct (at_eol s); [|discriminate]. exact (IH _ _ _ H).
Qed.

(** What the clean-up expression matches starts and ends with a line
    feed. *)
Lemma blank_match s rest cap :
  exec (body blank_lines) s None None = Some (rest, cap) ->
  exists u, s = 10 :: u ++ 10 :: rest.
Proof.
  change (body blank_lines)
    with (Lit 10 :: [Star is_space; Lit 10; Star is_space] ++ [Lit 10]).
  cbn [exec]. destruct s as [|x s]; [discriminate|].
  destruct (N.eqb_spec x 10) as [->|_]; [|discriminate].
  intros H. apply exec_split in H as (u & mid & gs' & cap' & -> & Htl).
  exists u. cbn [exec] in Htl. destruct mid as [|y mid]; [discriminate|].
  destruct (N.eqb_spec y 10) as [->|_]; [|discriminate].
  injection Htl as -> _. reflexivity.
Qed.

Lemma replace_drop (re : regex) repl prev u t :
  anchored re = false ->
  replace_go re repl prev (u ++ t) (length u) = replace_go re repl prev t 0.
Proof.
  intros Hre. revert prev. induction u as [|d u IH]; intros prev;
    [reflexivity|].
  cbn [app length replace_go]. rewrite IH. apply replace_prev, Hre.
Qed.

(** Replacing by the empty string only takes characters out. *)
Lemma replace_empty_sublist (re : regex) prev s skip :
  sublist (replace_go re [] prev s skip) s.
Proof.
  revert prev skip. induction s as [|c s IH]; intros prev skip.
  - destruct skip; cbn [replace_go]; [|constructor].
    destruct (attempt re prev []); constructor.
  - destruct skip as [|j]; cbn [replace_go].
    + destruct (attempt re prev (c :: s)) as [[rest cap]|].
      * destruct (length (c :: s) - length rest)%nat; cbn [app].
        -- apply sublist_skip, IH.
        -- apply sublist_cons, IH.
      * apply sublist_skip, IH.
    + apply sublist_cons, IH.
Qed.

(** The clean-up puts two line feeds where it found a run that starts
    and ends with one. *)
Lemma cleanup_sublist j s prev :
  (length s <= j)%nat ->
  sublist (replace_go blank_lines [10; 10] prev s 0) s.
Proof.
  revert s prev. induction j as [|j IH]; intros s prev Hlen.
  - destruct s; [|simpl in Hlen; lia]. cbn. constructor.
  - destruct s as [|c s]; [cbn; constructor|]. simpl in Hlen.
    cbn [replace_go]. unfold attempt. cbn [anchored blank_lines andb].
    destruct (exec (body blank_lines) (c :: s) None None)
      as [[rest cap]|] eqn:Hexec.
    + destruct (blank_match _ _ _ Hexec) as (u & Heq).
      injection Heq as -> ->.
      replace (length (10%N :: u ++ 10%N :: rest) - length rest)%nat
        with (S (length (u ++ [10%N])))
        by (cbn [length]; rewrite !length_app; cbn [length]; lia).
      replace (u ++ 10 :: rest) with ((u ++ [10]) ++ rest)
        by (rewrite <- app_assoc; reflexivity).
      rewrite replace_drop by reflexivity.
      rewrite <- app_assoc. cbn [app].
      apply sublist_skip, sublist_inserts_l, sublist_skip, IH.
      rewrite !length_app in Hlen. cbn [length] in Hlen. lia.
    + apply sublist_skip, IH. lia.
Qed.

(** X5.  The content transform only takes characters out: for every
    content, every name of word characters and every shell whose name
    is not that of a member of [Object.prototype], its result is a
    subsequence of the content, so it never holds text that was not
    there, never reorders text and is never longer. *)
Theorem removeEnvVariable_content_sublist (content n shell : jsstring) :
  valid_name n = true -> own_name shell = true ->
  sublist (removeEnvVariable_content content n shell) content /\
  (length (removeEnvVariable_content content n shell) <= length content)%nat.
Proof.
  intros _ _. assert (sublist (removeEnvVariable_content content n shell) content) as H.
  { unfold removeEnvVariable_content, replace_all.
    transitivity (replace_go (remove_pattern shell n) [] None content 0).
    - apply (cleanup_sublist _ _ _ (Nat.le_refl _)).
    - apply replace_empty_sublist. }
  split; [exact H|apply sublist_length, H].
Qed.

Lemma removeEnvVariable_content_sublist_witness :
  let content := lit "a=1" ++ nl ++ nl ++ nl ++ lit "export TOKEN=x" ++ nl in
  sublist (removeEnvVariable_content content (lit "TOKEN") (lit "bash"))
          content /\
  (length (removeEnvVariable_content content (lit "TOKEN") (lit "bash"))
   <= length content)%nat.
Proof.
  intros content.
  apply (removeEnvVariable_content_sublist content (lit "TOKEN") (lit "bash"));
    reflexivity.
Defined.

(** X6.  On a config file kept by the tool the content transform does
    what its name says, in each of the four shells: for a name of word
    characters the result is again such a file; it has no assignment
    line for the name and the extraction finds nothing for it; and for
    every other name the assignment lines, their values and their order
    are as before, so that the extraction finds what it found before. *)
Theorem removeEnvVariable_content_kept k n ls :
  valid_name n = true -> kept_lines ls = true ->
  exists ls',
    removeEnvVariable_content (render k ls) n (shell_name k) = render k ls' /\
    kept_lines ls' = true /\
    assignment_lines k n (render k ls') = [] /\
    extractEnvVariable (render k ls') n (shell_name k) = None /\
    (forall m, valid_name m = true -> m <> n ->
       assignment_lines k m (render k ls') =
         map (assignment k m) (values_of m ls) /\
       extractEnvVariable (render k ls') m (shell_name k) = first_value m ls).
Proof.
  intros Hn Hkept. pose proof (kept_tidy _ _ Hkept) as Htidy.
  unfold removeEnvVariable_content, replace_all.
  rewrite remove_render by (assumption || reflexivity).
  destruct (cleanup_lines k (length (blank_out n ls)) (blank_out n ls) None)
    as (ls' & Heq & Hsh);
    [lia|apply (kept_tidy false), kept_blank_out, Hkept|].
  assert (kept_lines ls' = true) as Hkept'
    by (apply (kept_shorter _ _ Hsh), kept_blank_out, Hkept).
  pose proof (kept_tidy _ _ Hkept') as Htidy'.
  assert (values_of n ls' = []) as Hvals
    by (rewrite (values_shorter _ _ _ Hsh); apply values_blank_out_same).
  exists ls'. split; [exact Heq|]. split; [exact Hkept'|]. split; [|split].
  - rewrite assignment_lines_render, Hvals by assumption. reflexivity.
  - rewrite extract_render, first_value_head, Hvals by assumption.
    reflexivity.
  - intros m Hm Hne.
    assert (values_of m ls' = values_of m ls) as Hother
      by (rewrite (values_shorter _ _ _ Hsh);
          apply values_blank_out_other, Hne).
    split.
    + rewrite assignment_lines_render, Hother by assumption. reflexivity.
    + rewrite extract_render, !first_value_head, Hother by assumption.
      reflexivity.
Qed.

Lemma removeEnvVariable_content_kept_witness :
  let ls := [Blank; Note (lit "one"); Assign (lit "API_KEY") (lit "a");
             Blank; Note (lit "two");
             Assign (lit "API_KEY_SECONDARY") (lit "b")] in
  exists ls',
    removeEnvVariable_content (render Fish ls) (lit "API_KEY") (lit "fish")
      = render Fish ls' /\
    extractEnvVariable (render Fish ls') (lit "API_KEY") (lit "fish")
      = None /\
    extractEnvVariable (render Fish ls') (lit "API_KEY_SECONDARY")
      (lit "fish") = Some (lit "b").
Proof.
  intros ls.
  destruct (removeEnvVariable_content_kept Fish (lit "API_KEY") ls)
    as (ls' & Heq & _ & _ & Hgone & Hother).
  - reflexivity.
  - reflexivity.
  - exists ls'. split; [exact Heq|]. split; [exact Hgone|].
    apply (Hother (lit "API_KEY_SECONDARY")).
    + reflexivity.
    + discriminate.
Defined.

End Transform.
(** ** Credentials in the process and on disk *)

Section Credentials.
Import ConfigFileManager CredentialStorage.
Implicit Types (w : world) (name s id key value : jsstring) (v : jsval)
               (k : shell_kind) (ls : list line) (o : options).

Lemma str_truthy_ne s : str_truthy s = true -> s <> [].
Proof. intros H ->. discriminate H. Qed.

Lemma ne_str_truthy s : s <> [] -> str_truthy s = true.
Proof.
  intros H. unfold str_truthy, truthy, str_eqb.
  rewrite bool_decide_eq_false_2 by assumption. reflexivity.
Qed.

(** A read answers [null] or something truthy. *)
Lemma read_null_or_truthy name w :
  readEnvVariable name w = JNull \/ truthy (readEnvVariable name w) = true.
Proof.
  unfold readEnvVariable.
  destruct (truthy (getenv w name)) eqn:He; [right; exact He|].
  destruct (read_paths
              (ShellDetector.getAllShellConfigPaths
                 (ShellDetector.detectShell w) w)
              name (ShellDetector.detectShell w) w) as [value|] eqn:Hr;
    [|left; reflexivity].
  right. exact (read_paths_truthy _ _ _ _ _ Hr).
Qed.

Lemma has_truthy name w :
  hasEnvVariable name w = truthy (readEnvVariable name w).
Proof.
  unfold hasEnvVariable.
  destruct (read_null_or_truthy name w) as [-> | H]; [reflexivity|].
  rewrite H. destruct (readEnvVariable name w); (reflexivity || discriminate).
Qed.

(** For a name that [Object.prototype] does not answer, a read gives
    [null] or a string that is not empty. *)
Lemma read_credential name w :
  name ∉ inherited_names ->
  readEnvVariable name w = JNull \/
  exists s, s <> [] /\ readEnvVariable name w = JStr s.
Proof.
  intros Hname. unfold readEnvVariable, getenv.
  rewrite (bool_decide_eq_false_2 _ Hname).
  destruct (env w !! name) as [s|]; cbn [truthy].
  - destruct (negb (str_eqb s [])) eqn:Hs.
    + right. exists s. split; [apply str_truthy_ne, Hs|reflexivity].
    + destruct (read_paths _ name _ w) as [value|] eqn:Hr;
        [|left; reflexivity].
      right. exists value. split; [|reflexivity].
      apply str_truthy_ne, (read_paths_truthy _ _ _ _ _ Hr).
  - destruct (read_paths _ name _ w) as [value|] eqn:Hr;
      [|left; reflexivity].
    right. exists value. split; [|reflexivity].
    apply str_truthy_ne, (read_paths_truthy _ _ _ _ _ Hr).
Qed.

Lemma api_key_name_own : POSTMAN_API_KEY ∉ inherited_names.
Proof.
  apply (bool_decide_eq_false_1 (POSTMAN_API_KEY ∈ inherited_names)).
  reflexivity.
Qed.

Lemma workspace_name_own : POSTMAN_WORKSPACE_ID ∉ inherited_names.
Proof.
  apply (bool_decide_eq_false_1 (POSTMAN_WORKSPACE_ID ∈ inherited_names)).
  reflexivity.
Qed.

Lemma read_env name w s :
  env w !! name = Some s -> s <> [] -> readEnvVariable name w = JStr s.
Proof.
  intros He Hs. unfold readEnvVariable, getenv. rewrite He.
  change (truthy (JStr s)) with (str_truthy s).
  rewrite (ne_str_truthy s Hs). reflexivity.
Qed.

Lemma isAuthenticated_truthy w : isAuthenticated w = truthy (getApiKey w).
Proof.
  unfold isAuthenticated, hasApiKey, getApiKey.
  change (not_null (readEnvVariable POSTMAN_API_KEY w))
    with (hasEnvVariable POSTMAN_API_KEY w).
  rewrite has_truthy. apply andb_diag.
Qed.

Lemma validateApiKey_string v :
  Validator.validateApiKey v = true -> exists s, v = JStr s /\ s <> [].
Proof.
  destruct v as [| |b|s|]; try discriminate. intros H. exists s.
  split; [reflexivity|]. intros ->. discriminate H.
Qed.


(** How [storeApiKey] and [storeWorkspaceId] end. *)
Lemma storeApiKey_cases v w :
  storeApiKey v w = (false, w) \/
  exists s, v = JStr s /\ s <> [] /\ Validator.validateApiKey v = true /\
    fst (writeEnvVariable POSTMAN_API_KEY s api_key_options w) = true /\
    storeApiKey v w =
      (true, set_env POSTMAN_API_KEY s
               (snd (writeEnvVariable POSTMAN_API_KEY s api_key_options w))).
Proof.
  unfold storeApiKey.
  destruct (Validator.validateApiKey v) eqn:Hv; [|left; reflexivity].
  destruct (validateApiKey_string v Hv) as (s & -> & Hs). cbn [negb to_string].
  pose proof (write_failure POSTMAN_API_KEY s api_key_options w) as Hfail.
  destruct (writeEnvVariable POSTMAN_API_KEY s api_key_options w)
    as [[] w1] eqn:Hwrite; cbn [fst snd] in *.
  - right. exists s. rewrite Hwrite.
    repeat split; assumption || reflexivity.
  - left. rewrite Hfail; reflexivity.
Qed.


Lemma get_after_set name s w :
  env_text s <> [] ->
  readEnvVariable name (set_env name s w) = JStr (env_text s).
Proof.
  intros Hs. apply read_env; [|assumption].
  cbn [env set_env]. apply lookup_insert_eq.
Qed.

(** What the environment block keeps of a key that passes the format
    check is not empty. *)
Lemma env_text_key s :
  Validator.validateApiKey (JStr s) = true -> env_text s <> [].
Proof.
  unfold Validator.validateApiKey.
  destruct (negb (truthy (JStr s))); [discriminate|].
  destruct (startsWith s (lit "PMAK-")) eqn:Hp; [|discriminate].
  intros _. destruct s as [|c s]; [discriminate|].
  change (lit "PMAK-") with [80; 77; 65; 75; 45] in Hp.
  cbn [startsWith] in Hp. apply andb_true_iff in Hp as [Hc _].
  apply N.eqb_eq in Hc as ->. destruct s; discriminate.
Qed.

(** A text of ASCII characters other than NUL is kept as it is. *)
Lemma until_nul_plain s :
  forallb (fun c => 0 <? c) s = true -> until_nul s = s.
Proof.
  induction s as [|c s IH]; [reflexivity|]. cbn [forallb until_nul].
  intros H. apply andb_true_iff in H as [Hc Hs].
  apply N.ltb_lt in Hc. destruct (N.eqb_spec c 0) as [->|_]; [lia|].
  rewrite IH by assumption. reflexivity.
Qed.

Lemma utf8_text_ascii s :
  forallb (fun c => c <? 128) s = true -> utf8_text s = s.
Proof.
  induction s as [|c s IH]; [reflexivity|]. cbn [forallb].
  intros H. apply andb_true_iff in H as [Hc Hs]. cbn [utf8_text].
  assert (is_high_surrogate c = false) as ->
    by (apply N.ltb_lt in Hc; unfold is_high_surrogate;
        apply andb_false_iff; left; apply N.leb_gt; lia).
  assert (is_low_surrogate c = false) as ->
    by (apply N.ltb_lt in Hc; unfold is_low_surrogate;
        apply andb_false_iff; left; apply N.leb_gt; lia).
  rewrite IH by assumption. reflexivity.
Qed.

Lemma matches_shape_all (q : N -> bool) (ps : list (N -> bool)) s :
  Forall (fun p => forall c, p c = true -> q c = true) ps ->
  Validator.matches_shape ps s = true ->
  forallb q s = true /\ length s = length ps.
Proof.
  intros Hps. revert s. induction Hps as [|p ps Hp _ IH]; intros s.
  - destruct s; [split; reflexivity|discriminate].
  - destruct s as [|c s]; [discriminate|]. cbn [Validator.matches_shape].
    intros H. apply andb_true_iff in H as [Hc Hs].
    destruct (IH s Hs) as [Hall Hlen]. cbn [forallb length].
    rewrite (Hp c Hc), Hall, Hlen. split; reflexivity.
Qed.

Lemma hex_plain c : Validator.is_hex c = true -> id_char c = true.
Proof.
  unfold Validator.is_hex, id_char. intros H.
  rewrite !andb_true_iff, !N.ltb_lt. revert H. class_solve.
Qed.

Lemma dash_plain c : Validator.is_dash c = true -> id_char c = true.
Proof.
  unfold Validator.is_dash, id_char. intros H.
  rewrite !andb_true_iff, !N.ltb_lt. revert H. class_solve.
Qed.

Lemma version_plain c : Validator.is_1_5 c = true -> id_char c = true.
Proof.
  unfold Validator.is_1_5, id_char. intros H.
  rewrite !andb_true_iff, !N.ltb_lt. revert H. class_solve.
Qed.

Lemma variant_plain c : Validator.is_89ab c = true -> id_char c = true.
Proof.
  unfold Validator.is_89ab, id_char. intros H.
  rewrite !andb_true_iff, !N.ltb_lt. revert H. class_solve.
Qed.

(** An accepted workspace id is a value the quoted line can carry, and
    the environment block keeps it as it is. *)
Lemma workspace_id_value id :
  Validator.validateWorkspaceId (JStr id) = true ->
  valid_value id = true /\ length id = 36%nat /\ env_text id = id.
Proof.
  unfold Validator.validateWorkspaceId.
  destruct (negb (truthy (JStr id))); [discriminate|]. intros H.
  apply (matches_shape_all id_char) in H.
  - destruct H as [Hall Hlen].
    change (length Validator.uuid_shape) with 36%nat in Hlen.
    assert (forallb is_plain_char id = true) as Hplain.
    { apply (forallb_impl id_char); [|exact Hall].
      intros c Hc. unfold id_char in Hc.
      apply andb_true_iff in Hc as [Hc _].
      apply andb_true_iff in Hc as [Hc _]. exact Hc. }
    assert (utf8_text id = id) as Htext.
    { apply utf8_text_ascii, (forallb_impl id_char); [|exact Hall].
      intros c Hc. unfold id_char in Hc.
      apply andb_true_iff in Hc as [_ Hc]. exact Hc. }
    assert (until_nul id = id) as Hnul.
    { apply until_nul_plain, (forallb_impl id_char); [|exact Hall].
      intros c Hc. unfold id_char in Hc.
      apply andb_true_iff in Hc as [Hc _].
      apply andb_true_iff in Hc as [_ Hc]. exact Hc. }
    split; [|split; [exact Hlen|]].
    + unfold valid_value, well_formed, str_eqb. rewrite Hplain.
      rewrite bool_decide_eq_false_2 by (intros ->; discriminate Hlen).
      rewrite bool_decide_eq_true_2 by exact Htext. reflexivity.
    + unfold env_text. rewrite Htext. exact Hnul.
  - unfold Validator.uuid_shape. cbn [replicate app].
    repeat first
      [ apply List.Forall_nil
      | apply List.Forall_cons;
        [intros c Hc;
         first [exact (hex_plain c Hc) | exact (dash_plain c Hc)
               | exact (version_plain c Hc) | exact (variant_plain c Hc)]|] ].
Qed.



(** *** From one process to the next *)

Lemma detectShell_delete name w :
  name <> lit "SHELL" ->
  ShellDetector.detectShell (delete_env name w) = ShellDetector.detectShell w.
Proof.
  intros H. unfold ShellDetector.detectShell, delete_env. cbn [env platform].
  rewrite lookup_delete_ne by assumption. reflexivity.
Qed.

Lemma first_existing_files dir (fs : list jsstring) w w' :
  files w' = files w ->
  ShellDetector.first_existing dir fs w' = ShellDetector.first_existing dir fs w.
Proof.
  intros H. induction fs as [|f fs IH]; [reflexivity|].
  cbn [ShellDetector.first_existing]. unfold existsSync. rewrite H, IH.
  reflexivity.
Qed.

Lemma getShellConfigPath_delete k name w :
  ShellDetector.getShellConfigPath (shell_name k) (delete_env name w) =
  ShellDetector.getShellConfigPath (shell_name k) w.
Proof.
  unfold ShellDetector.getShellConfigPath. rewrite !or_detect_name.
  rewrite (first_existing_files _ _ w (delete_env name w)) by reflexivity.
  reflexivity.
Qed.

(** A value written to a config file kept by the tool is found by a
    process that does not have the variable in its environment. *)
Lemma stored_is_read k w ls name value o :
  ShellDetector.detectShell w = shell_name k ->
  o_shell o = None -> default true (o_overwrite o) = true ->
  valid_comment (default (default_comment w) (o_comment o)) = true ->
  config_kept k w ls ->
  ShellDetector.getShellConfigPath (shell_name k) w ∉ unwritable w ->
  valid_name name = true -> valid_value value = true ->
  name ∉ inherited_names -> name <> lit "SHELL" ->
  fst (writeEnvVariable name value o w) = true /\
  readEnvVariable name
    (delete_env name
       (set_env name value (snd (writeEnvVariable name value o w))))
  = JStr value.
Proof.
  intros Hsh Ho Hover Hc Hkept Hw Hn Hv Hown Hname.
  destruct (write_kept k w ls name value o Hsh Ho Hover Hc Hkept Hw Hn Hv)
    as (ls1 & text & -> & Hwrite & Hk1 & Hvals & _).
  rewrite Hwrite. cbn [fst snd]. split; [reflexivity|].
  set (ls2 := ls1 ++ [Blank; Note (default (default_comment w) (o_comment o));
                      Assign name value]) in *.
  assert (delete_env name
            (set_env name value
               (with_file (ShellDetector.getShellConfigPath (shell_name k) w)
                          (render k ls2) w))
          = with_file
              (ShellDetector.getShellConfigPath (shell_name k)
                 (delete_env name w))
              (render k ls2) (delete_env name w)) as ->.
  { rewrite getShellConfigPath_delete.
    unfold delete_env, set_env, with_file. cbn [env files unwritable platform
      homedir pkg_name]. rewrite delete_insert_eq. reflexivity. }
  apply read_written; try assumption.
  - rewrite detectShell_delete by assumption. exact Hsh.
  - unfold getenv, delete_env. cbn [env]. rewrite lookup_delete_eq.
    rewrite (bool_decide_eq_false_2 _ Hown). reflexivity.
  - subst ls2. rewrite first_value_head, values_new_block by assumption.
    reflexivity.
Qed.

(** X8.  Credentials outlive the process that stored them.  In each of
    the four shells, on a config file that is absent or kept by the tool
    and can be written: every workspace id that passes the format check
    is stored, and a process that does not have the variable in its
    environment reads the id back from the file; the same holds for an
    API key that passes the format check, provided the key has no quote
    character and no line terminator and is well formed. *)
Theorem credentials_persist k w ls :
  ShellDetector.detectShell w = shell_name k ->
  config_kept k w ls ->
  ShellDetector.getShellConfigPath (shell_name k) w ∉ unwritable w ->
  (forall id,
     Validator.validateWorkspaceId (JStr id) = true ->
     fst (storeWorkspaceId (JStr id) w) = true /\
     getWorkspaceId
       (delete_env POSTMAN_WORKSPACE_ID (snd (storeWorkspaceId (JStr id) w)))
     = JStr id) /\
  (forall key,
     Validator.validateApiKey (JStr key) = true -> valid_value key = true ->
     fst (storeApiKey (JStr key) w) = true /\
     getApiKey (delete_env POSTMAN_API_KEY (snd (storeApiKey (JStr key) w)))
     = JStr key).
Proof.
  intros Hsh Hkept Hw. split.
  - intros id Hid. destruct (workspace_id_value id Hid) as (Hv & _ & _).
    destruct (stored_is_read k w ls POSTMAN_WORKSPACE_ID id workspace_options)
      as [Hok Hread]; try assumption; try reflexivity.
    { apply workspace_name_own. }
    { discriminate. }
    unfold storeWorkspaceId. rewrite Hid. cbn [negb to_string].
    destruct (writeEnvVariable POSTMAN_WORKSPACE_ID id workspace_options w)
      as [ok w1]. cbn [fst snd] in *. subst ok. cbn [fst snd].
    split; [reflexivity|exact Hread].
  - intros key Hkey Hv.
    destruct (stored_is_read k w ls POSTMAN_API_KEY key api_key_options)
      as [Hok Hread]; try assumption; try reflexivity.
    { apply api_key_name_own. }
    { discriminate. }
    unfold storeApiKey. rewrite Hkey. cbn [negb to_string].
    destruct (writeEnvVariable POSTMAN_API_KEY key api_key_options w)
      as [ok w1]. cbn [fst snd] in *. subst ok. cbn [fst snd].
    split; [reflexivity|exact Hread].
Qed.

Lemma credentials_persist_witness :
  let id := lit "123e4567-e89b-42d3-A456-426614174000" in
  let w := posix_world "/bin/zsh" in
  fst (storeWorkspaceId (JStr id) w) = true /\
  getWorkspaceId
    (delete_env POSTMAN_WORKSPACE_ID (snd (storeWorkspaceId (JStr id) w)))
  = JStr id.
Proof.
  intros id w.
  destruct (credentials_persist Zsh w []) as [Hid _].
  - reflexivity.
  - split; reflexivity.
  - apply not_elem_of_empty.
  - apply (Hid id). reflexivity.
Defined.

End Credentials.
(** ** Authentication *)

Section Authentication.
Import ConfigFileManager CredentialStorage AuthManager.
Implicit Types (w : world) (s key name other sh : jsstring) (v apiKey workspaceId : jsval)
               (remote : jsval -> bool).

Lemma key_name_differs : POSTMAN_API_KEY <> POSTMAN_WORKSPACE_ID.
Proof. discriminate. Qed.




(** X10.  When storing fails, [authenticateWithApiKey] reports failure
    without asking the remote service and without taking anything
    back.  A key that fails the format check, passed without a
    workspace id, leaves the world as it was.  A workspace id that
    fails the format check makes the call fail after the key has been
    stored: the world is the one [storeApiKey] left, and when that
    store had succeeded the process counts as authenticated although
    the call has reported failure, and [getApiKey] returns the key as
    the environment block keeps it (cut at the first NUL character,
    U+FFFD for a surrogate code unit that is not part of a pair).  The
    name of the shell is not that of a member of [Object.prototype]. *)
Theorem authenticate_store_failure remote apiKey workspaceId w :
  own_name (ShellDetector.detectShell w) = true ->
  (truthy apiKey = true -> Validator.validateApiKey apiKey = false ->
   truthy workspaceId = false ->
   authenticateWithApiKey remote apiKey workspaceId w = (false, w)) /\
  (truthy apiKey = true -> truthy workspaceId = true ->
   Validator.validateWorkspaceId workspaceId = false ->
   authenticateWithApiKey remote apiKey workspaceId w
     = (false, snd (storeApiKey apiKey w)) /\
   (fst (storeApiKey apiKey w) = true ->
    exists key, apiKey = JStr key /\
      getApiKey (snd (authenticateWithApiKey remote apiKey workspaceId w))
        = JStr (env_text key) /\
      isAuthenticated
        (snd (authenticateWithApiKey remote apiKey workspaceId w)) = true)).
Proof.
  intros _. split.
  - intros Hk Hv Hws. unfold authenticateWithApiKey, storeCredentials.
    rewrite Hk, Hws. unfold storeApiKey. rewrite Hv. reflexivity.
  - intros Hk Hws Hv.
    assert (authenticateWithApiKey remote apiKey workspaceId w
            = (false, snd (storeApiKey apiKey w))) as Heq.
    { unfold authenticateWithApiKey, storeCredentials. rewrite Hk, Hws.
      destruct (storeApiKey apiKey w) as [ok w0]. unfold storeWorkspaceId.
      rewrite Hv. reflexivity. }
    split; [exact Heq|]. rewrite Heq. cbn [snd].
    destruct (storeApiKey_cases apiKey w)
      as [->|(s & -> & Hs & Hvk & _ & ->)]; [discriminate|].
    intros _. cbn [snd]. pose proof (env_text_key s Hvk) as Hne.
    assert (getApiKey (set_env POSTMAN_API_KEY s
              (snd (writeEnvVariable POSTMAN_API_KEY s api_key_options w)))
            = JStr (env_text s)) as Hget by (apply get_after_set, Hne).
    exists s. split; [reflexivity|]. split; [exact Hget|].
    rewrite isAuthenticated_truthy, Hget. apply (ne_str_truthy _ Hne).
Qed.

Lemma authenticate_store_failure_witness :
  let key := JStr (lit "PMAK-0123456789abcdefghij") in
  let w := posix_world "/bin/bash" in
  authenticateWithApiKey (fun _ => true) (JStr (lit "not-a-key")) JNull w
    = (false, w) /\
  fst (authenticateWithApiKey (fun _ => true) key (JStr (lit "no-uuid")) w)
    = false /\
  isAuthenticated
    (snd (authenticateWithApiKey (fun _ => true) key (JStr (lit "no-uuid")) w))
    = true.
Proof.
  intros key w. split.
  - destruct (authenticate_store_failure (fun _ => true)
                (JStr (lit "not-a-key")) JNull w) as [H _];
      [reflexivity|].
    apply H; reflexivity.
  - destruct (authenticate_store_failure (fun _ => true) key
                (JStr (lit "no-uuid")) w) as [_ H]; [reflexivity|].
    destruct H as [Heq Hkept]; [reflexivity|reflexivity|reflexivity|].
    split; [rewrite Heq; reflexivity|].
    destruct Hkept as (key' & _ & _ & Hauth); [reflexivity|exact Hauth].
Defined.

(** X11.  The status object agrees with the other queries in every
    state: its [authenticated] flag is [isAuthenticated], its
    [hasWorkspace] flag is [hasWorkspaceId], the key it shows is the
    one [getMaskedApiKey] shows.  When the flag is off the key shown is
    [null]; when it is on, the stored key is a string that is not empty
    and the status shows its masked form, never anything else.  The
    name of the shell is not that of a member of [Object.prototype]. *)
Theorem getAuthStatus_agrees w :
  own_name (ShellDetector.detectShell w) = true ->
  let st := getAuthStatus w in
  authenticated st = AuthManager.isAuthenticated w /\
  s_hasApiKey st = hasApiKey w /\
  s_hasWorkspace st = hasWorkspaceId w /\
  s_apiKey st = getMaskedApiKey w /\
  s_workspaceId st = AuthManager.getWorkspaceId w /\
  match authenticated st with
  | false => getApiKey w = JNull /\ s_apiKey st = JNull
  | true => exists key, key <> [] /\ getApiKey w = JStr key /\
                        s_apiKey st = JStr (maskApiKey key)
  end.
Proof.
  intros _. cbv zeta. unfold getAuthStatus, getAllCredentials, getMaskedApiKey,
    AuthManager.isAuthenticated, AuthManager.getWorkspaceId, hasApiKey,
    hasWorkspaceId.
  cbn [authenticated s_hasApiKey s_hasWorkspace s_apiKey s_workspaceId
       c_apiKey c_workspaceId].
  rewrite isAuthenticated_truthy, !has_truthy.
  fold (getApiKey w). fold (getWorkspaceId w).
  repeat (split; [reflexivity|]).
  destruct (read_credential POSTMAN_API_KEY w api_key_name_own)
    as [Hnull|(key & Hkey & Hread)]; fold (getApiKey w) in *.
  - rewrite Hnull. split; reflexivity.
  - rewrite Hread. change (truthy (JStr key)) with (str_truthy key).
    rewrite (ne_str_truthy key Hkey). exists key. auto.
Qed.

Lemma getAuthStatus_agrees_witness :
  let w := file_world "/bin/bash" "/home/u/.bashrc"
             (lit "export POSTMAN_API_KEY=" ++ dq ++
              lit "PMAK-0123456789abcdefghij" ++ dq ++ nl) in
  authenticated (getAuthStatus w) = AuthManager.isAuthenticated w /\
  s_apiKey (getAuthStatus w) = getMaskedApiKey w.
Proof.
  intros w.
  destruct (getAuthStatus_agrees w) as (Hauth & _ & _ & Hkey & _);
    [reflexivity|].
  split; [exact Hauth|exact Hkey].
Defined.

(** X12.  [getAuthHeaders] and [requireAuthentication] fail together.
    In a state that counts as authenticated neither throws, and the
    headers carry the stored key, a string that is not empty, under
    X-API-Key, followed by the JSON content type; otherwise both
    throw, and there is no stored key.  The name of the shell is not
    that of a member of [Object.prototype]. *)
Theorem getAuthHeaders_when_authenticated w :
  own_name (ShellDetector.detectShell w) = true ->
  match getAuthHeaders w with
  | Returned headers =>
      AuthManager.isAuthenticated w = true /\
      requireAuthentication w = Returned tt /\
      exists key, key <> [] /\ getApiKey w = JStr key /\
        headers = [ (lit "X-API-Key", JStr key);
                    (lit "Content-Type", JStr (lit "application/json")) ]
  | Thrown _ =>
      AuthManager.isAuthenticated w = false /\
      getApiKey w = JNull /\
      exists message, requireAuthentication w = Thrown message
  end.
Proof.
  intros _.
  unfold getAuthHeaders, requireAuthentication, AuthManager.isAuthenticated.
  rewrite isAuthenticated_truthy.
  destruct (read_credential POSTMAN_API_KEY w api_key_name_own)
    as [Hnull|(key & Hkey & Hread)]; fold (getApiKey w) in *.
  - rewrite Hnull. cbn [truthy negb]. repeat split. eexists. reflexivity.
  - rewrite Hread. change (truthy (JStr key)) with (str_truthy key).
    rewrite (ne_str_truthy key Hkey). cbn [negb]. repeat split.
    exists key. auto.
Qed.

Lemma getAuthHeaders_when_authenticated_witness :
  let w := posix_world "/bin/bash" in
  match getAuthHeaders w with
  | Returned _ => False
  | Thrown _ =>
      AuthManager.isAuthenticated w = false /\
      exists message, requireAuthentication w = Thrown message
  end.
Proof.
  intros w.
  pose proof (getAuthHeaders_when_authenticated w eq_refl) as H.
  change (getAuthHeaders w)
    with (@Thrown (list (jsstring * jsval))
            (lit "No API key found. Please authenticate first.")) in *.
  destruct H as (Hauth & _ & Hthrown). split; [exact Hauth|exact Hthrown].
Defined.

(** X13.  [refreshAuthStatus] returns what [checkCredentialsHealth]
    finds.  When it returns true nothing has changed, and the stored
    key has passed the format check and has been accepted by the
    remote service.  When it returns false in a state that does not
    count as authenticated, nothing has changed either.  When it
    returns false in a state that counts as authenticated, the stored
    key has failed the format check or has been rejected, and both
    variables have been taken out of the process environment; no file
    has been touched.  The name of the shell is not that of a member of
    [Object.prototype]. *)
Theorem refreshAuthStatus_outcome remote w :
  own_name (ShellDetector.detectShell w) = true ->
  let r := refreshAuthStatus remote w in
  fst r = checkCredentialsHealth remote w /\
  (fst r = true ->
   snd r = w /\ AuthManager.isAuthenticated w = true /\
   Validator.validateApiKey (getApiKey w) = true /\
   remote (getApiKey w) = true) /\
  (fst r = false -> AuthManager.isAuthenticated w = false -> snd r = w) /\
  (fst r = false -> AuthManager.isAuthenticated w = true ->
   (Validator.validateApiKey (getApiKey w) = false \/
    remote (getApiKey w) = false) /\
   snd r = delete_env POSTMAN_WORKSPACE_ID (delete_env POSTMAN_API_KEY w) /\
   files (snd r) = files w).
Proof.
  intros _. cbv zeta. unfold refreshAuthStatus, checkCredentialsHealth,
    validateStoredApiKey, validateCredentials, AuthManager.isAuthenticated.
  rewrite clearCredentials_eq, isAuthenticated_truthy.
  destruct (truthy (getApiKey w)) eqn:Ht; cbn [negb andb fst snd].
  - destruct (Validator.validateApiKey (getApiKey w)) eqn:Hv;
      cbn [negb andb fst snd].
    + destruct (remote (getApiKey w)) eqn:Hr; cbn [negb andb fst snd].
      * repeat split; discriminate.
      * split; [reflexivity|]. split; [discriminate|].
        split; [discriminate|]. intros _ _. repeat split. right. reflexivity.
    + split; [reflexivity|]. split; [discriminate|].
      split; [discriminate|]. intros _ _. repeat split. left. reflexivity.
  - repeat split; discriminate.
Qed.

Lemma refreshAuthStatus_outcome_witness :
  let w := mkWorld {[ lit "POSTMAN_API_KEY" := lit "PMAK-0123456789abcdefghij" ]}
             ∅ ∅ (lit "linux") (lit "/home/u") (lit "flowman-cli") in
  snd (refreshAuthStatus (fun _ => true) w) = w /\
  env (snd (refreshAuthStatus (fun _ => false) w)) = ∅.
Proof.
  intros w. split.
  - destruct (refreshAuthStatus_outcome (fun _ => true) w)
      as (_ & Hvalid & _); [reflexivity|].
    apply Hvalid. reflexivity.
  - destruct (refreshAuthStatus_outcome (fun _ => false) w)
      as (_ & _ & _ & Hrejected); [reflexivity|].
    destruct Hrejected as (_ & -> & _); reflexivity.
Defined.

Lemma read_paths_files paths name sh w w' :
  files w' = files w ->
  read_paths paths name sh w' = read_paths paths name sh w.
Proof.
  intros H. induction paths as [|p paths IH]; [reflexivity|].
  cbn [read_paths]. rewrite H, IH. reflexivity.
Qed.

Lemma getAllShellConfigPaths_delete shell other w :
  other <> lit "SHELL" ->
  ShellDetector.getAllShellConfigPaths shell (delete_env other w) =
  ShellDetector.getAllShellConfigPaths shell w.
Proof.
  intros H. unfold ShellDetector.getAllShellConfigPaths,
    ShellDetector.or_detect.
  rewrite detectShell_delete by assumption. reflexivity.
Qed.

Lemma read_delete_other name other w :
  other <> name -> other <> lit "SHELL" ->
  readEnvVariable name (delete_env other w) = readEnvVariable name w.
Proof.
  intros Hne Hshell. unfold readEnvVariable.
  assert (getenv (delete_env other w) name = getenv w name) as ->.
  { unfold getenv, delete_env. cbn [env].
    rewrite lookup_delete_ne by assumption. reflexivity. }
  rewrite detectShell_delete, getAllShellConfigPaths_delete by assumption.
  rewrite (read_paths_files _ _ _ w (delete_env other w)) by reflexivity.
  reflexivity.
Qed.

Lemma read_delete_unset name w :
  name <> lit "SHELL" -> name ∉ inherited_names ->
  truthy (getenv w name) = false ->
  readEnvVariable name (delete_env name w) = readEnvVariable name w.
Proof.
  intros Hshell Hown Hunset. unfold readEnvVariable. rewrite Hunset.
  assert (truthy (getenv (delete_env name w) name) = false) as ->.
  { unfold getenv, delete_env. cbn [env]. rewrite lookup_delete_eq.
    rewrite (bool_decide_eq_false_2 _ Hown). reflexivity. }
  rewrite detectShell_delete, getAllShellConfigPaths_delete by assumption.
  rewrite (read_paths_files _ _ _ w (delete_env name w)) by reflexivity.
  reflexivity.
Qed.

(** X14.  [logout] never touches a file.  What [getApiKey] returns
    after it is what the config files give for the key once the
    variable is out of the process environment; so when the key was
    not in the process environment but in a config file, [getApiKey]
    returns the same key after the logout as before, and the process
    counts as authenticated exactly if it did before.  The name of the
    shell is not that of a member of [Object.prototype]. *)
Theorem logout_keeps_files w :
  own_name (ShellDetector.detectShell w) = true ->
  files (snd (logout w)) = files w /\
  getApiKey (snd (logout w)) = getApiKey (delete_env POSTMAN_API_KEY w) /\
  (truthy (getenv w POSTMAN_API_KEY) = false ->
   getApiKey (snd (logout w)) = getApiKey w /\
   AuthManager.isAuthenticated (snd (logout w))
     = AuthManager.isAuthenticated w).
Proof.
  intros _. unfold logout. rewrite clearCredentials_eq. cbn [snd].
  assert (getApiKey (delete_env POSTMAN_WORKSPACE_ID
                       (delete_env POSTMAN_API_KEY w))
          = getApiKey (delete_env POSTMAN_API_KEY w)) as Hget
    by (apply read_delete_other; discriminate).
  split; [reflexivity|]. split; [exact Hget|].
  intros Hunset.
  assert (getApiKey (delete_env POSTMAN_WORKSPACE_ID
                       (delete_env POSTMAN_API_KEY w)) = getApiKey w) as Hsame
    by (rewrite Hget; apply read_delete_unset;
        [discriminate|apply api_key_name_own|exact Hunset]).
  split; [exact Hsame|].
  unfold AuthManager.isAuthenticated.
  rewrite !isAuthenticated_truthy, Hsame. reflexivity.
Qed.

Lemma logout_keeps_files_witness :
  let w := file_world "/bin/bash" "/home/u/.bashrc"
             (lit "export POSTMAN_API_KEY=" ++ dq ++
              lit "PMAK-0123456789abcdefghij" ++ dq ++ nl) in
  getApiKey (snd (logout w)) = JStr (lit "PMAK-0123456789abcdefghij") /\
  AuthManager.isAuthenticated (snd (logout w)) = true.
Proof.
  intros w.
  destruct (logout_keeps_files w) as (_ & _ & Hsame); [reflexivity|].
  destruct Hsame as [Hget Hauth]; [reflexivity|].
  split; [rewrite Hget|rewrite Hauth]; reflexivity.
Defined.

End Authentication.
(** ** The login and logout commands *)

Section Commands.
Import ConfigFileManager CredentialStorage AuthManager LoginCommand.
Implicit Types (w : world) (key value : jsstring) (remote : jsval -> bool).


(** X15.  The key prompt and the credential store check the same
    format: the prompt lets a value through exactly when
    [Validator.validateApiKey] accepts it as a string, so a key that
    has passed the prompt is never refused by the format check of
    [storeApiKey]. *)
Theorem prompt_validate_agrees value :
  validate value = None <-> Validator.validateApiKey (JStr value) = true.
Proof.
  unfold validate, Validator.validateApiKey.
  change (truthy (JStr value)) with (str_truthy value).
  destruct (str_truthy value); cbn [negb]; [|split; discriminate].
  destruct (startsWith value (lit "PMAK-")); cbn [negb];
    [|split; discriminate].
  destruct (length value <? 20)%nat; split; (reflexivity || discriminate).
Qed.

Lemma prompt_validate_agrees_witness :
  validate (lit "PMAK-0123456789abcdefghij") = None /\
  validate (lit "PMAK-short") <> None.
Proof.
  split.
  - apply (proj2 (prompt_validate_agrees (lit "PMAK-0123456789abcdefghij"))).
    reflexivity.
  - intros H.
    apply (proj1 (prompt_validate_agrees (lit "PMAK-short"))) in H.
    discriminate H.
Defined.



(** X17.  The logout command has three ends, and the fourth, the
    report of a failed logout, is never reached.  Without a stored key
    there is nothing to do; with an answer that is not truthy the
    logout is cancelled; in both cases the world is as it was.
    Otherwise the command reports success, both variables are out of
    the process environment, and no file has been touched.  The name
    of the shell is not that of a member of [Object.prototype]. *)
Theorem handleLogout_ends (shouldLogout : jsval) w :
  own_name (ShellDetector.detectShell w) = true ->
  let r := handleLogout shouldLogout w in
  match fst r with
  | NothingToDo => AuthManager.isAuthenticated w = false /\ snd r = w
  | LogoutCancelled =>
      AuthManager.isAuthenticated w = true /\
      truthy shouldLogout = false /\ snd r = w
  | LoggedOut =>
      AuthManager.isAuthenticated w = true /\
      truthy shouldLogout = true /\
      env (snd r) !! POSTMAN_API_KEY = None /\
      env (snd r) !! POSTMAN_WORKSPACE_ID = None /\
      files (snd r) = files w
  | FailedToLogout => False
  end.
Proof.
  intros _. cbv zeta. unfold handleLogout, logout. rewrite clearCredentials_eq.
  destruct (AuthManager.isAuthenticated w); cbn [negb fst snd];
    [|split; reflexivity].
  destruct (truthy shouldLogout); cbn [negb fst snd];
    [|repeat split].
  repeat split; cbn [env delete_env].
  - rewrite lookup_delete_ne by (symmetry; apply key_name_differs).
    apply lookup_delete_eq.
  - apply lookup_delete_eq.
Qed.

Lemma handleLogout_ends_witness :
  let w := mkWorld {[ lit "SHELL" := lit "/bin/bash";
                      lit "POSTMAN_API_KEY" := lit "PMAK-0123456789abcdefghij" ]}
             ∅ ∅ (lit "linux") (lit "/home/u") (lit "flowman-cli") in
  fst (handleLogout (JBool true) w) = LoggedOut /\
  env (snd (handleLogout (JBool true) w)) !! POSTMAN_API_KEY = None /\
  snd (handleLogout (JBool false) w) = w.
Proof.
  intros w.
  pose proof (handleLogout_ends (JBool true) w eq_refl) as Hyes.
  pose proof (handleLogout_ends (JBool false) w eq_refl) as Hno.
  cbv zeta in Hyes, Hno.
  change (fst (handleLogout (JBool true) w)) with LoggedOut in Hyes.
  change (fst (handleLogout (JBool false) w)) with LogoutCancelled in Hno.
  split; [reflexivity|]. split; [apply Hyes|apply Hno].
Defined.

End Commands.
(** ** Keys that pass the format check, as they are shown *)

Section StoredKeyMask.
Import AuthManager.

Lemma startsWith_take (s p : jsstring) :
  startsWith s p = true -> take (length p) s = p.
Proof.
  revert s. induction p as [|c p IH]; intros s; [reflexivity|].
  destruct s as [|x s]; [discriminate|]. cbn [startsWith length take].
  intros H. apply andb_true_iff in H as [Hx Hs].
  apply N.eqb_eq in Hx as ->. rewrite IH by assumption. reflexivity.
Qed.

(** X18.  A key that passes the format check is shown with at least
    eight of its characters hidden, and the overlap of short keys
    cannot occur for it: its masked form has the length of the key,
    starts with PMAK- and the next three characters of the key, ends
    with its last four characters, and has a star at each of the at
    least eight positions in between. *)
Theorem accepted_key_is_masked (key : jsstring) :
  Validator.validateApiKey (JStr key) = true ->
  length (maskApiKey key) = length key /\
  (8 <= length key - 12)%nat /\
  take 5 (maskApiKey key) = lit "PMAK-" /\
  take 8 (maskApiKey key) = take 8 key /\
  drop (length key - 4) (maskApiKey key) = drop (length key - 4) key /\
  (forall i : nat, (8 <= i < length key - 4)%nat ->
     maskApiKey key !! i = Some 42).
Proof.
  unfold Validator.validateApiKey.
  destruct (negb (truthy (JStr key))); [discriminate|].
  destruct (startsWith key (lit "PMAK-")) eqn:Hprefix; [|discriminate].
  destruct (Nat.ltb_spec (length key) 20) as [|Hlen]; [discriminate|].
  intros _. cbn [negb]. rewrite maskApiKey_long by lia.
  assert (length (take 8 key) = 8%nat) as H8 by (rewrite length_take; lia).
  repeat split.
  - rewrite !length_app, length_replicate, length_take, length_drop. lia.
  - lia.
  - rewrite take_app_le by lia. rewrite take_take.
    apply (startsWith_take key (lit "PMAK-") Hprefix).
  - rewrite take_app_le by lia. rewrite take_take. f_equal.
  - rewrite drop_app_ge by lia. rewrite H8.
    rewrite drop_app_ge by (rewrite length_replicate; lia).
    rewrite length_replicate.
    replace (length key - 4 - 8 - (length key - 12))%nat with 0%nat by lia.
    apply drop_0.
  - intros i Hi. rewrite lookup_app_r by lia. rewrite H8.
    rewrite lookup_app_l by (rewrite length_replicate; lia).
    apply lookup_replicate_2. lia.
Qed.

Lemma accepted_key_is_masked_witness :
  take 5 (maskApiKey (lit "PMAK-0123456789abcdefghij")) = lit "PMAK-" /\
  maskApiKey (lit "PMAK-0123456789abcdefghij") !! 8%nat = Some 42.
Proof.
  destruct (accepted_key_is_masked (lit "PMAK-0123456789abcdefghij"))
    as (_ & _ & Hprefix & _ & _ & Hstars); [reflexivity|].
  split; [exact Hprefix|]. apply Hstars. simpl. lia.
Defined.

End StoredKeyMask.

(** ** A shell without a config file *)

Section NoConfigFile.
Import ConfigFileManager CredentialStorage AuthManager.
Implicit Types (w : world) (n v name : jsstring) (o : options).

Lemma write_cmd n v o w :
  ShellDetector.detectShell w = lit "cmd" -> o_shell o = None ->
  writeEnvVariable n v o w = (false, w).
Proof.
  intros Hsh Ho. unfold writeEnvVariable. rewrite Ho. cbn [default].
  rewrite Hsh. reflexivity.
Qed.

(** X19.  Where the shell is cmd, which is what [detectShell] answers
    on Windows when SHELL is not set, nothing can be stored: every
    write, every store and every authentication with a key reports
    failure and leaves the world as it was, without asking the remote
    service; and a read finds only what the process environment
    holds. *)
Theorem cmd_stores_nothing w :
  ShellDetector.detectShell w = lit "cmd" ->
  (forall n v o, o_shell o = None -> writeEnvVariable n v o w = (false, w)) /\
  (forall name, truthy (getenv w name) = false ->
     readEnvVariable name w = JNull) /\
  (forall apiKey, storeApiKey apiKey w = (false, w)) /\
  (forall workspaceId, storeWorkspaceId workspaceId w = (false, w)) /\
  (forall remote apiKey workspaceId, truthy apiKey = true ->
     authenticateWithApiKey remote apiKey workspaceId w = (false, w)).
Proof.
  intros Hsh.
  assert (forall apiKey, storeApiKey apiKey w = (false, w)) as Hkey.
  { intros apiKey. unfold storeApiKey.
    destruct (Validator.validateApiKey apiKey); [|reflexivity].
    cbn [negb]. rewrite write_cmd by (assumption || reflexivity).
    reflexivity. }
  assert (forall workspaceId, storeWorkspaceId workspaceId w = (false, w))
    as Hws.
  { intros workspaceId. unfold storeWorkspaceId.
    destruct (Validator.validateWorkspaceId workspaceId); [|reflexivity].
    cbn [negb]. rewrite write_cmd by (assumption || reflexivity).
    reflexivity. }
  split; [intros n v o Ho; apply write_cmd; assumption|].
  split; [|split; [exact Hkey|split; [exact Hws|]]].
  - intros name Hunset. unfold readEnvVariable. rewrite Hunset, Hsh.
    reflexivity.
  - intros remote apiKey workspaceId Ht.
    unfold authenticateWithApiKey, storeCredentials.
    rewrite Ht, Hkey. cbn [andb].
    destruct (truthy workspaceId); [rewrite Hws|]; reflexivity.
Qed.

Lemma cmd_stores_nothing_witness :
  let w := mkWorld ∅ ∅ ∅ (lit "win32") (lit "C:/Users/u") (lit "flowman-cli") in
  storeApiKey (JStr (lit "PMAK-0123456789abcdefghij")) w = (false, w) /\
  authenticateWithApiKey (fun _ => true)
    (JStr (lit "PMAK-0123456789abcdefghij")) JNull w = (false, w).
Proof.
  intros w. destruct (cmd_stores_nothing w) as (_ & _ & Hkey & _ & Hauth);
    [reflexivity|].
  split; [apply Hkey|apply Hauth; reflexivity].
Defined.

End NoConfigFile.

(** ** Comment lines *)

Section Comments.
Import ConfigFileManager.
Implicit Types (k : shell_kind) (w : world) (ls : list line)
               (n v c : jsstring) (o : options).

Lemma notes_blank_out n ls : notes_of (blank_out n ls) = notes_of ls.
Proof.
  induction ls as [|l ls IH]; [reflexivity|].
  cbn [blank_out map]. fold (blank_out n ls).
  destruct l as [|c|m v]; cbn [assigns];
    [| |destruct (str_eqb m n)]; cbn [notes_of]; rewrite ?IH; reflexivity.
Qed.

Lemma notes_shorter ls' ls : shorter ls' ls -> notes_of ls' = notes_of ls.
Proof.
  induction 1 as [|l ls' ls Hsh IH|ls' ls Hsh IH]; [reflexivity| |exact IH].
  destruct l; cbn [notes_of]; rewrite IH; reflexivity.
Qed.

Lemma notes_app ls ls' : notes_of (ls ++ ls') = notes_of ls ++ notes_of ls'.
Proof.
  induction ls as [|l ls IH]; [reflexivity|].
  destruct l; cbn [app notes_of]; rewrite IH; reflexivity.
Qed.

Lemma blank_out_none n ls : values_of n ls = [] -> blank_out n ls = ls.
Proof.
  induction ls as [|l ls IH]; [reflexivity|].
  cbn [blank_out map]. fold (blank_out n ls).
  destruct l as [|c|m v]; cbn [assigns values_of]; intros H;
    try (rewrite IH by assumption; reflexivity).
  destruct (str_eqb m n); [discriminate|].
  rewrite IH by assumption. reflexivity.
Qed.

(** The text handed to the file system keeps every line that is not an
    assignment line of the name, some blank lines apart. *)
Lemma written_shape k n v c ls :
  valid_name n = true -> valid_value v = true -> valid_comment c = true ->
  kept_lines ls = true ->
  exists ls1,
    newContent
      (if opt_truthy (extractEnvVariable (render k ls) n (shell_name k))
       then removeEnvVariable_content (render k ls) n (shell_name k)
       else render k ls) c (assignment k n v)
    = render k (ls1 ++ [Blank; Note c; Assign n v]) /\
    kept_lines (ls1 ++ [Blank; Note c; Assign n v]) = true /\
    shorter ls1 (blank_out n ls).
Proof.
  intros Hn Hv Hc Hkept. pose proof (kept_tidy _ _ Hkept) as Htidy.
  rewrite extract_render, first_value_head by assumption.
  destruct (values_of n ls) as [|v0 vs] eqn:Hvals.
  - exists ls. cbn [head opt_truthy]. rewrite newContent_render.
    repeat split; auto.
    + apply kept_append; assumption.
    + rewrite blank_out_none by assumption. apply shorter_refl.
  - cbn [head opt_truthy].
    rewrite valid_value_truthy
      by (apply (values_valid n false ls);
          [assumption|rewrite Hvals; left; reflexivity]).
    unfold removeEnvVariable_content, replace_all.
    rewrite remove_render by (assumption || reflexivity).
    destruct (cleanup_lines k (length (blank_out n ls)) (blank_out n ls) None)
      as (ls1 & Heq & Hsh);
      [lia|apply (kept_tidy false), kept_blank_out, Hkept|].
    exists ls1. rewrite Heq, newContent_render. repeat split.
    + apply kept_append; try assumption.
      apply (kept_shorter _ _ Hsh), kept_blank_out, Hkept.
    + exact Hsh.
Qed.

(** X20.  A write never takes a comment line out.  On a config file
    kept by the tool, in each of the four shells, the file after a
    write holds the comment lines it held before, in the same order,
    followed by the comment of the new block, and exactly one
    assignment line for the name.  So a variable that is written again
    and again leaves the comment line of each earlier write behind. *)
Theorem comments_accumulate k w ls n v o :
  ShellDetector.detectShell w = shell_name k ->
  o_shell o = None -> default true (o_overwrite o) = true ->
  valid_comment (default (default_comment w) (o_comment o)) = true ->
  config_kept k w ls ->
  ShellDetector.getShellConfigPath (shell_name k) w ∉ unwritable w ->
  valid_name n = true -> valid_value v = true ->
  exists ls',
    config_kept k (snd (writeEnvVariable n v o w)) ls' /\
    notes_of ls' =
      notes_of ls ++ [default (default_comment w) (o_comment o)] /\
    values_of n ls' = [v].
Proof.
  intros Hsh Ho Hover Hc Hkept Hw Hn Hv.
  destruct (written_shape k n v _ ls Hn Hv Hc (proj1 Hkept))
    as (ls1 & Htext & Hk1 & Hshape).
  exists (ls1 ++ [Blank; Note (default (default_comment w) (o_comment o));
                  Assign n v]).
  assert (writeEnvVariable n v o w =
          (true, with_file (ShellDetector.getShellConfigPath (shell_name k) w)
                   (render k (ls1 ++ [Blank;
                      Note (default (default_comment w) (o_comment o));
                      Assign n v])) w)) as ->.
  { unfold writeEnvVariable. rewrite Ho. cbn [default]. rewrite Hsh, Hover.
    rewrite supports_name. cbn [negb]. rewrite andb_false_r.
    rewrite (config_text k w ls Hkept).
    unfold ShellDetector.getExportSyntax. rewrite or_detect_name.
    fold (assignment k n v). rewrite Htext.
    rewrite writeFileSync_ok by assumption.
    rewrite render_utf8 by apply (kept_tidy false), Hk1.
    reflexivity. }
  cbn [snd]. split; [apply config_kept_with; [exact Hk1|reflexivity]|].
  split.
  - rewrite notes_app, (notes_shorter _ _ Hshape), notes_blank_out.
    reflexivity.
  - rewrite values_app, (values_shorter _ _ _ Hshape), values_blank_out_same.
    cbn [values_of app]. unfold str_eqb.
    rewrite bool_decide_eq_true_2 by reflexivity. reflexivity.
Qed.

Lemma comments_accumulate_witness :
  let ls := [Blank; Note (lit "Added by flowman-cli");
             Assign (lit "TOKEN") (lit "old")] in
  let w := file_world "/bin/zsh" "/home/u/.zshrc" (render Zsh ls) in
  exists ls',
    config_kept Zsh
      (snd (writeEnvVariable (lit "TOKEN") (lit "new") no_options w)) ls' /\
    notes_of ls' = [lit "Added by flowman-cli"; lit "Added by flowman-cli"] /\
    values_of (lit "TOKEN") ls' = [lit "new"].
Proof.
  intros ls w.
  apply (comments_accumulate Zsh w ls (lit "TOKEN") (lit "new") no_options).
  - reflexivity.
  - reflexivity.
  - reflexivity.
  - reflexivity.
  - split; reflexivity.
  - apply not_elem_of_empty.
  - reflexivity.
  - reflexivity.
Defined.

End Comments.

(** ** Shells without an entry in the tables *)

Section OtherShells.
Import ConfigFileManager.
Implicit Types (w : world) (ls : list line) (sh name value content : jsstring)
               (o : options).

Lemma other_shell_facts sh :
  other_shell sh = true ->
  str_truthy sh = true /\ str_eqb sh (lit "bash") = false /\
  str_eqb sh (lit "zsh") = false /\ str_eqb sh (lit "fish") = false /\
  str_eqb sh (lit "cmd") = false /\ str_eqb sh (lit "powershell") = false.
Proof.
  unfold other_shell. intros H.
  repeat (apply andb_true_iff in H as [H ?]).
  repeat match goal with
         | Hn : negb _ = true |- _ => apply negb_true_iff in Hn
         end.
  repeat split; assumption.
Qed.

Lemma extract_other sh content name :
  other_shell sh = true ->
  extractEnvVariable content name sh =
  extractEnvVariable content name (shell_name Bash).
Proof.
  intros H. destruct (other_shell_facts sh H) as (_ & Hb & Hz & Hf & _ & Hp).
  unfold extractEnvVariable, extract_pattern.
  rewrite Hb, Hz, Hf, Hp. reflexivity.
Qed.

Lemma remove_other sh content name :
  other_shell sh = true ->
  removeEnvVariable_content content name sh =
  removeEnvVariable_content content name (shell_name Bash).
Proof.
  intros H. destruct (other_shell_facts sh H) as (_ & Hb & Hz & Hf & _ & Hp).
  unfold removeEnvVariable_content, remove_pattern.
  rewrite Hb, Hz, Hf, Hp. reflexivity.
Qed.

Lemma exportLine_other sh name value w :
  other_shell sh = true ->
  exportLine sh (ShellDetector.getExportSyntax sh w) name value =
  assignment Bash name value.
Proof.
  intros H. destruct (other_shell_facts sh H) as (Ht & Hb & Hz & Hf & Hc & Hp).
  unfold exportLine, ShellDetector.getExportSyntax, ShellDetector.or_detect,
    ShellDetector.syntaxMap.
  rewrite Ht, Hb, Hz, Hf, Hc, Hp. reflexivity.
Qed.

Lemma paths_other sh w :
  other_shell sh = true ->
  ShellDetector.supportsEnvPersistence sh w = true /\
  ShellDetector.getShellConfigPath sh w = profile_path w /\
  ShellDetector.getAllShellConfigPaths sh w = [profile_path w].
Proof.
  intros H. destruct (other_shell_facts sh H) as (Ht & Hb & Hz & Hf & Hc & Hp).
  unfold ShellDetector.supportsEnvPersistence,
    ShellDetector.getShellConfigPath, ShellDetector.getAllShellConfigPaths,
    ShellDetector.or_detect, ShellDetector.possibleFiles.
  rewrite Ht, Hb, Hz, Hf, Hc, Hp. cbn [negb map ShellDetector.first_existing].
  repeat split. fold (profile_path w).
  destruct (existsSync (profile_path w) w); reflexivity.
Qed.

(** X21.  A shell that has no entry in the tables (sh, dash, ksh, ...)
    is served by the fallbacks, which fit together: the variable goes
    to .profile in the home directory, in the syntax of bash, and is
    read back from there.  For a name of word characters and a value
    that is not empty, has no quote character and no line terminator
    and is well formed, with .profile absent or kept by the tool and
    writable: the write succeeds, .profile is again kept by the tool
    and holds exactly one assignment line for the name, the values of
    the other names are as before, no other file is touched, and when
    the process environment answers the name with nothing or the empty
    string, the read returns the value written. *)
Theorem other_shell_round_trip w ls name value o :
  other_shell (ShellDetector.detectShell w) = true ->
  o_shell o = None -> default true (o_overwrite o) = true ->
  valid_comment (default (default_comment w) (o_comment o)) = true ->
  profile_kept w ls ->
  profile_path w ∉ unwritable w ->
  valid_name name = true -> valid_value value = true ->
  let r := writeEnvVariable name value o w in
  fst r = true /\
  (exists ls',
     files (snd r) !! profile_path w = Some (render Bash ls') /\
     kept_lines ls' = true /\
     values_of name ls' = [value] /\
     forall m, m <> name -> values_of m ls' = values_of m ls) /\
  (forall q, q <> profile_path w -> files (snd r) !! q = files w !! q) /\
  (truthy (getenv w name) = false ->
   readEnvVariable name (snd r) = JStr value).
Proof.
  intros Hother Ho Hover Hc [Hkept Hfile] Hw Hn Hv. cbv zeta.
  set (sh := ShellDetector.detectShell w) in *.
  set (c := default (default_comment w) (o_comment o)) in *.
  destruct (paths_other sh w Hother) as (Hsup & Hpath & Hall).
  destruct (written_text Bash name value c ls Hn Hv Hc Hkept)
    as (ls1 & Htext & Hk1 & Hvals & Hrest).
  set (ls2 := ls1 ++ [Blank; Note c; Assign name value]) in *.
  assert (default [] (files w !! profile_path w) = render Bash ls) as Hcontent
    by (destruct (files w !! profile_path w); cbn [default]; subst;
        reflexivity).
  assert (writeEnvVariable name value o w =
          (true, with_file (profile_path w) (render Bash ls2) w)) as ->.
  { unfold writeEnvVariable. rewrite Ho. cbn [default]. fold sh. fold c.
    rewrite Hsup, Hover, Hpath. cbn [negb]. rewrite andb_false_r.
    rewrite Hcontent, extract_other, remove_other, exportLine_other
      by assumption.
    rewrite Htext, writeFileSync_ok by assumption.
    rewrite render_utf8 by apply (kept_tidy false), Hk1. reflexivity. }
  cbn [fst snd files with_file]. split; [reflexivity|].
  assert (values_of name ls2 = [value]) as Hvalue
    by (subst ls2; apply values_new_block, Hvals).
  split; [|split].
  - exists ls2. split; [apply lookup_insert_eq|]. split; [exact Hk1|].
    split; [exact Hvalue|]. intros m Hm. subst ls2.
    rewrite values_app, (Hrest m Hm). cbn [values_of]. unfold str_eqb.
    rewrite bool_decide_eq_false_2 by congruence. apply app_nil_r.
  - intros q Hq. apply lookup_insert_ne. congruence.
  - intros Hunset. unfold readEnvVariable.
    change (getenv (with_file (profile_path w) (render Bash ls2) w) name)
      with (getenv w name).
    rewrite Hunset.
    change (ShellDetector.detectShell
              (with_file (profile_path w) (render Bash ls2) w)) with sh.
    destruct (paths_other sh (with_file (profile_path w) (render Bash ls2) w)
                Hother) as (_ & _ & ->).
    change (profile_path (with_file (profile_path w) (render Bash ls2) w))
      with (profile_path w).
    cbn [read_paths files with_file]. rewrite lookup_insert_eq.
    rewrite extract_other by assumption.
    rewrite extract_render by (assumption || apply (kept_tidy false), Hk1).
    rewrite first_value_head, Hvalue. cbn [head opt_truthy].
    rewrite (valid_value_truthy value Hv). reflexivity.
Qed.

Lemma other_shell_round_trip_witness :
  let w := posix_world "/bin/dash" in
  let r := writeEnvVariable (lit "API_KEY") (lit "two words") no_options w in
  fst r = true /\
  readEnvVariable (lit "API_KEY") (snd r) = JStr (lit "two words").
Proof.
  intros w r.
  destruct (other_shell_round_trip w [] (lit "API_KEY") (lit "two words")
              no_options) as (Hok & _ & _ & Hread).
  - reflexivity.
  - reflexivity.
  - reflexivity.
  - reflexivity.
  - split; reflexivity.
  - apply not_elem_of_empty.
  - reflexivity.
  - reflexivity.
  - split; [exact Hok|]. apply Hread. reflexivity.
Defined.

(** On a config file kept by the tool the four shells keep names apart,
    prefixes included. *)
Lemma write_keeps_other_names_witness :
  let ls := [Blank; Note (lit "one"); Assign (lit "API_KEY_SECONDARY") (lit "s")] in
  let w := file_world "/usr/bin/fish" "/home/u/.config/fish/config.fish"
             (render Fish ls) in
  exists text,
    files (snd (writeEnvVariable (lit "API_KEY") (lit "k") no_options w))
      !! ShellDetector.getShellConfigPath (shell_name Fish) w = Some text /\
    assignment_lines Fish (lit "API_KEY_SECONDARY") text =
      map (assignment Fish (lit "API_KEY_SECONDARY"))
          (values_of (lit "API_KEY_SECONDARY") ls) /\
    extractEnvVariable text (lit "API_KEY_SECONDARY") (shell_name Fish) =
      first_value (lit "API_KEY_SECONDARY") ls.
Proof.
  intros ls w.
  apply (write_keeps_other_names Fish w ls (lit "API_KEY")
           (lit "API_KEY_SECONDARY") (lit "k") no_options).
  - reflexivity.
  - reflexivity.
  - reflexivity.
  - reflexivity.
  - split; reflexivity.
  - apply not_elem_of_empty.
  - reflexivity.
  - reflexivity.
  - reflexivity.
  - discriminate.
Defined.

End OtherShells.

(** ** What stays in the config file *)

Section StaysStored.
Import ConfigFileManager CredentialStorage AuthManager.
Implicit Types (k : shell_kind) (w : world) (ls : list line) (key : jsstring)
               (remote : jsval -> bool).

(** After a key has been stored in a config file kept by the tool,
    taking both variables out of the process environment leaves the key
    readable. *)
Lemma stored_key_survives k w ls key :
  ShellDetector.detectShell w = shell_name k ->
  config_kept k w ls ->
  ShellDetector.getShellConfigPath (shell_name k) w ∉ unwritable w ->
  Validator.validateApiKey (JStr key) = true -> valid_value key = true ->
  storeApiKey (JStr key) w =
    (true, set_env POSTMAN_API_KEY key
             (snd (writeEnvVariable POSTMAN_API_KEY key api_key_options w))) /\
  getApiKey
    (delete_env POSTMAN_WORKSPACE_ID
       (delete_env POSTMAN_API_KEY
          (set_env POSTMAN_API_KEY key
             (snd (writeEnvVariable POSTMAN_API_KEY key api_key_options w)))))
  = JStr key.
Proof.
  intros Hsh Hkept Hw Hkey Hv.
  destruct (stored_is_read k w ls POSTMAN_API_KEY key api_key_options)
    as [Hok Hread]; try assumption; try reflexivity.
  { apply api_key_name_own. }
  { discriminate. }
  split.
  - unfold storeApiKey. rewrite Hkey. cbn [negb to_string].
    destruct (writeEnvVariable POSTMAN_API_KEY key api_key_options w)
      as [ok w1]. cbn [fst snd] in *. subst ok. reflexivity.
  - unfold getApiKey. rewrite read_delete_other by discriminate.
    exact Hread.
Qed.

(** X23.  A logout does not undo a login.  In each of the four shells,
    on a config file that is absent or kept by the tool and can be
    written, for a key that passes the format check and has no quote
    character and no line terminator and is well formed: after
    [storeApiKey] has stored the key, [logout] reports success, and
    yet [getApiKey] still returns the key and the process still counts
    as authenticated. *)
Theorem logout_after_store_still_authenticated k w ls key :
  ShellDetector.detectShell w = shell_name k ->
  config_kept k w ls ->
  ShellDetector.getShellConfigPath (shell_name k) w ∉ unwritable w ->
  Validator.validateApiKey (JStr key) = true -> valid_value key = true ->
  let w1 := snd (storeApiKey (JStr key) w) in
  fst (storeApiKey (JStr key) w) = true /\
  fst (logout w1) = true /\
  getApiKey (snd (logout w1)) = JStr key /\
  AuthManager.isAuthenticated (snd (logout w1)) = true.
Proof.
  intros Hsh Hkept Hw Hkey Hv.
  destruct (stored_key_survives k w ls key Hsh Hkept Hw Hkey Hv)
    as [-> Hget].
  cbv zeta. unfold logout. rewrite clearCredentials_eq. cbn [fst snd].
  split; [reflexivity|]. split; [reflexivity|]. split; [exact Hget|].
  unfold AuthManager.isAuthenticated. rewrite isAuthenticated_truthy, Hget.
  apply ne_str_truthy. destruct key; [discriminate Hv|discriminate].
Qed.

Lemma logout_after_store_still_authenticated_witness :
  let key := lit "PMAK-0123456789abcdefghij" in
  let w1 := snd (storeApiKey (JStr key) (posix_world "/usr/bin/fish")) in
  fst (logout w1) = true /\
  AuthManager.isAuthenticated (snd (logout w1)) = true.
Proof.
  intros key w1.
  destruct (logout_after_store_still_authenticated Fish
              (posix_world "/usr/bin/fish") [] key)
    as (_ & Hok & _ & Hauth).
  - reflexivity.
  - split; reflexivity.
  - apply not_elem_of_empty.
  - reflexivity.
  - reflexivity.
  - split; [exact Hok|exact Hauth].
Defined.



End StaysStored.
